(** * SceneManager: texture table, material table and uniform helpers

    A shallow embedding of [Source/SceneManager.cpp].  The scene manager is
    a C++ object with four data members used by the code below
    ([m_pShaderManager], [m_loadedTextures], [m_textureIDs],
    [m_objectMaterials]); it talks to three external interfaces: the image
    loader (stb_image), the OpenGL context and the shader manager.  The
    external interfaces are modelled by their observable calls.

    Conventions.
    - [int] and [GLuint] values are [Z]; the one unsigned-to-signed
      conversion of the source is written out in [int_of_GLuint].
    - [float] values are idealised as real numbers ([R]); rounding is not
      modelled.
    - A method of the class is a function from the state of the world to
      an [outcome]: either a result with the next state, or a fault
      (undefined behaviour of the C++ program: indexing outside the
      texture array, calling through a null shader pointer). *)

From Stdlib Require Import String ZArith List Bool Lia Reals Lra.
Import ListNotations.

(** ** The part of glm the source uses *)

Module vec2.
Record t : Type := mk { x : R; y : R }.
End vec2.

Module vec3.
Record t : Type := mk { x : R; y : R; z : R }.
End vec3.

Module vec4.
Record t : Type := mk { x : R; y : R; z : R; w : R }.
End vec4.

(** A [mat4] is four columns, as in glm ([m[c]] is column [c]). *)
Module mat4.
Record t : Type := mk { c0 : vec4.t; c1 : vec4.t; c2 : vec4.t; c3 : vec4.t }.
End mat4.

Module glm.
Local Open Scope R_scope.

Definition vec4_add (a b : vec4.t) : vec4.t :=
    vec4.mk (vec4.x a + vec4.x b) (vec4.y a + vec4.y b)
            (vec4.z a + vec4.z b) (vec4.w a + vec4.w b).

Definition vec4_scale (a : vec4.t) (k : R) : vec4.t :=
    vec4.mk (vec4.x a * k) (vec4.y a * k) (vec4.z a * k) (vec4.w a * k).

  (** [m * v]: the linear combination of the columns of [m]. *)
Definition mat_vec (m : mat4.t) (v : vec4.t) : vec4.t :=
    vec4_add
      (vec4_add
         (vec4_add (vec4_scale (mat4.c0 m) (vec4.x v))
                   (vec4_scale (mat4.c1 m) (vec4.y v)))
         (vec4_scale (mat4.c2 m) (vec4.z v)))
      (vec4_scale (mat4.c3 m) (vec4.w v)).

  (** [a * b] on matrices: column [j] of the product is [a * b[j]]. *)
Definition mat_mul (a b : mat4.t) : mat4.t :=
    mat4.mk (mat_vec a (mat4.c0 b)) (mat_vec a (mat4.c1 b))
            (mat_vec a (mat4.c2 b)) (mat_vec a (mat4.c3 b)).

  (** [glm::radians] *)
Definition radians (degrees : R) : R := degrees * (PI / 180).

  (** [glm::scale(v)] *)
Definition scale (v : vec3.t) : mat4.t :=
    mat4.mk (vec4.mk (vec3.x v) 0 0 0)
            (vec4.mk 0 (vec3.y v) 0 0)
            (vec4.mk 0 0 (vec3.z v) 0)
            (vec4.mk 0 0 0 1).

  (** [glm::translate(v)] *)
Definition translate (v : vec3.t) : mat4.t :=
    mat4.mk (vec4.mk 1 0 0 0)
            (vec4.mk 0 1 0 0)
            (vec4.mk 0 0 1 0)
            (vec4.mk (vec3.x v) (vec3.y v) (vec3.z v) 1).

Definition dot (a b : vec3.t) : R :=
    vec3.x a * vec3.x b + vec3.y a * vec3.y b + vec3.z a * vec3.z b.

  (** [glm::normalize(v)] is [v * inversesqrt(dot(v, v))]. *)
Definition normalize (v : vec3.t) : vec3.t :=
    let k := 1 / sqrt (dot v v) in
    vec3.mk (vec3.x v * k) (vec3.y v * k) (vec3.z v * k).

  (** [glm::rotate(angle, v)]: the axis-angle matrix glm builds, applied to
      the identity. *)
Definition rotate (angle : R) (v : vec3.t) : mat4.t :=
    let c := cos angle in
    let s := sin angle in
    let axis := normalize v in
    let temp := vec3.mk ((1 - c) * vec3.x axis) ((1 - c) * vec3.y axis)
                        ((1 - c) * vec3.z axis) in
    mat4.mk
      (vec4.mk (c + vec3.x temp * vec3.x axis)
               (vec3.x temp * vec3.y axis + s * vec3.z axis)
               (vec3.x temp * vec3.z axis - s * vec3.y axis)
               0)
      (vec4.mk (vec3.y temp * vec3.x axis - s * vec3.z axis)
               (c + vec3.y temp * vec3.y axis)
               (vec3.y temp * vec3.z axis + s * vec3.x axis)
               0)
      (vec4.mk (vec3.z temp * vec3.x axis + s * vec3.y axis)
               (vec3.z temp * vec3.y axis - s * vec3.x axis)
               (c + vec3.z temp * vec3.z axis)
               0)
      (vec4.mk 0 0 0 1).
End glm.

Open Scope string_scope.
Open Scope Z_scope.

(** ** Machine integers *)

(** The value an [int] variable holds after it is assigned a [GLuint]
    (32 bits, two's complement). *)
Definition int_of_GLuint (u : Z) : Z :=
  let m := u mod 2 ^ 32 in
  if m <? 2 ^ 31 then m else m - 2 ^ 32.

(** [a.compare(b)] of [std::string]: negative, zero or positive. *)
Definition compare (a b : string) : Z :=
  match String.compare a b with
  | Lt => -1
  | Eq => 0
  | Gt => 1
  end.

(** ** Outcomes *)

Inductive fault : Type :=
| NullPointer                (* a call through a null [m_pShaderManager] *)
| OutOfBounds (index : Z)    (* [m_textureIDs[index]] outside the array *)
| OutOfFuel.                 (* a loop ran past its iteration bound *)

Inductive outcome (A : Type) : Type :=
| Done (a : A)
| Fault (f : fault).

Arguments Done {A} a.
Arguments Fault {A} f.

(** ** Data members *)

Module TEXTURE_INFO.
Record t : Type := mk { ID : Z; tag : string }.
End TEXTURE_INFO.

Module OBJECT_MATERIAL.
Record t : Type := mk {
    ambientColor : vec3.t;
    ambientStrength : R;
    diffuseColor : vec3.t;
    specularColor : vec3.t;
    shininess : R;
    tag : string
  }.
End OBJECT_MATERIAL.

(** ** The shader manager (external)

    The shader manager is used through its setters only.  Its state is the
    list of the uniform updates it has received, newest first. *)

Inductive uniform_value : Type :=
| IntValue (v : Z)
| BoolValue (v : bool)
| FloatValue (v : R)
| Vec2Value (v : vec2.t)
| Vec3Value (v : vec3.t)
| Vec4Value (v : vec4.t)
| Mat4Value (v : mat4.t)
| Sampler2DValue (v : Z).

Definition ShaderManager : Type := list (string * uniform_value).

(** The value a uniform holds: the newest update under its name. *)
Fixpoint uniform (name : string) (sh : ShaderManager) : option uniform_value :=
  match sh with
  | [] => None
  | (n, v) :: rest => if String.eqb n name then Some v else uniform name rest
  end.

Definition g_ModelName := "model".
Definition g_ColorValueName := "objectColor".
Definition g_TextureValueName := "objectTexture".
Definition g_UseTextureName := "bUseTexture".
Definition g_UseLightingName := "bUseLighting".

(** ** The image loader and the OpenGL context (external) *)

(** What [stbi_load] reports for a file it could decode. *)
Record Image : Type := mkImage { width : Z; height : Z; colorChannels : Z }.

Inductive GLenum : Type :=
| GL_TEXTURE_2D
| GL_TEXTURE_WRAP_S | GL_TEXTURE_WRAP_T
| GL_TEXTURE_MIN_FILTER | GL_TEXTURE_MAG_FILTER
| GL_REPEAT | GL_LINEAR
| GL_RGB8 | GL_RGB | GL_RGBA8 | GL_RGBA
| GL_UNSIGNED_BYTE.

Definition GL_TEXTURE0 : Z := 33984.

(** The calls the scene manager makes to stb_image, to OpenGL and to the
    console.  [glDeleteTextures] is part of the OpenGL interface; it is
    listed so that traces can be examined for it. *)
Inductive Event : Type :=
| stbi_set_flip_vertically_on_load (flag : bool)
| stbi_image_free
| glGenTextures (name : Z)
| glDeleteTextures (name : Z)
| glBindTexture (target : GLenum) (texture : Z)
| glTexParameteri (target pname param : GLenum)
| glTexImage2D (target : GLenum) (level : Z) (internalformat : GLenum)
               (w h border : Z) (format type : GLenum)
| glGenerateMipmap (target : GLenum)
| glActiveTexture (texture : Z)
| cout_loaded (filename : string) (w h channels : Z)
| cout_not_implemented (channels : Z)
| cout_could_not_load (filename : string).

(** The texture names that exist in the context after a trace (newest
    call first): the generated ones that were not deleted since. *)
Fixpoint live_textures (calls : list Event) : list Z :=
  match calls with
  | [] => []
  | glGenTextures n :: rest => n :: live_textures rest
  | glDeleteTextures n :: rest => remove Z.eq_dec n (live_textures rest)
  | _ :: rest => live_textures rest
  end.

(** ** The state of the world *)

Record World : Type := mkWorld {
  (* members of SceneManager *)
  m_pShaderManager : option ShaderManager;   (* [None] is NULL *)
  m_loadedTextures : Z;
  m_textureIDs : list TEXTURE_INFO.t;        (* the fixed-size array *)
  m_objectMaterials : list OBJECT_MATERIAL.t;
  (* environment *)
  disk : string -> option Image;             (* what [stbi_load] finds *)
  gl_next_name : Z;                          (* next unused texture name *)
  trace : list Event                         (* newest first *)
}.

Definition with_shader (sh : option ShaderManager) (w : World) : World :=
  mkWorld sh (m_loadedTextures w) (m_textureIDs w) (m_objectMaterials w)
          (disk w) (gl_next_name w) (trace w).

Definition with_loadedTextures (n : Z) (w : World) : World :=
  mkWorld (m_pShaderManager w) n (m_textureIDs w) (m_objectMaterials w)
          (disk w) (gl_next_name w) (trace w).

Definition with_textureIDs (a : list TEXTURE_INFO.t) (w : World) : World :=
  mkWorld (m_pShaderManager w) (m_loadedTextures w) a (m_objectMaterials w)
          (disk w) (gl_next_name w) (trace w).

Definition with_objectMaterials (l : list OBJECT_MATERIAL.t) (w : World) : World :=
  mkWorld (m_pShaderManager w) (m_loadedTextures w) (m_textureIDs w) l
          (disk w) (gl_next_name w) (trace w).

Definition with_gl (next : Z) (t : list Event) (w : World) : World :=
  mkWorld (m_pShaderManager w) (m_loadedTextures w) (m_textureIDs w)
          (m_objectMaterials w) (disk w) next t.

(** ** Methods as state transformers that may fault *)

Definition M (A : Type) : Type := World -> outcome (A * World).

Definition ret {A} (a : A) : M A := fun w => Done (a, w).

Definition bind {A B} (m : M A) (k : A -> M B) : M B :=
  fun w =>
    match m w with
    | Done (a, w') => k a w'
    | Fault f => Fault f
    end.

Definition fail {A} (f : fault) : M A := fun _ => Fault f.

Definition gets {A} (proj : World -> A) : M A := fun w => Done (proj w, w).

Definition modify (f : World -> World) : M unit := fun w => Done (tt, f w).

Declare Scope scene_scope.
Delimit Scope scene_scope with scene.
Notation "x <- m ;; k" := (bind m (fun x => k))
  (at level 100, m at next level, right associativity) : scene_scope.
Notation "m ;; k" := (bind m (fun _ => k))
  (at level 100, right associativity) : scene_scope.
Open Scope scene_scope.

(** [while (cond) body] on the local variables [s].  [fuel] bounds the
    number of times the body runs. *)
Fixpoint while {S : Type} (fuel : nat) (cond : S -> bool) (body : S -> M S)
  (s : S) : M S :=
  if cond s then
    match fuel with
    | O => fail OutOfFuel
    | Datatypes.S fuel' => s' <- body s ;; while fuel' cond body s'
    end
  else ret s.

(** [for (int i = from; i < to; i++) body(i)] *)
Fixpoint for_loop (count : nat) (i : Z) (body : Z -> M unit) : M unit :=
  match count with
  | O => ret tt
  | Datatypes.S count' => body i ;; for_loop count' (i + 1) body
  end.

Definition for_range (from to : Z) (body : Z -> M unit) : M unit :=
  for_loop (Z.to_nat (to - from)) from body.

(** *** Calls to the environment *)

Definition call (e : Event) : M unit :=
  modify (fun w => with_gl (gl_next_name w) (e :: trace w) w).

Definition stbi_load (filename : string) : M (option Image) :=
  w <- gets (fun w => w) ;; ret (disk w filename).

(** [glGenTextures(1, &name)]: the context hands out an unused name. *)
Definition gen_texture : M Z :=
  name <- gets gl_next_name ;;
  modify (fun w => with_gl (name + 1) (glGenTextures name :: trace w) w) ;;
  ret name.

(** [m_pShaderManager->set...Value(name, v)] *)
Definition set_uniform (name : string) (v : uniform_value) : M unit :=
  p <- gets m_pShaderManager ;;
  match p with
  | None => fail NullPointer
  | Some sh => modify (with_shader (Some ((name, v) :: sh)))
  end.

Definition Z_of_bool (b : bool) : Z := if b then 1 else 0.

Definition setIntValue (name : string) (v : Z) := set_uniform name (IntValue v).
Definition setBoolValue (name : string) (v : bool) := set_uniform name (BoolValue v).
Definition setFloatValue (name : string) (v : R) := set_uniform name (FloatValue v).
Definition setVec2Value (name : string) (v : vec2.t) := set_uniform name (Vec2Value v).
Definition setVec3Value (name : string) (v : vec3.t) := set_uniform name (Vec3Value v).
Definition setVec4Value (name : string) (v : vec4.t) := set_uniform name (Vec4Value v).
Definition setMat4Value (name : string) (v : mat4.t) := set_uniform name (Mat4Value v).
Definition setSampler2DValue (name : string) (v : Z) := set_uniform name (Sampler2DValue v).

(** *** The texture array *)

Definition in_bounds {A} (a : list A) (i : Z) : bool :=
  (0 <=? i) && (i <? Z.of_nat (length a)).

Fixpoint update_nth {A} (n : nat) (f : A -> A) (a : list A) : list A :=
  match a, n with
  | [], _ => []
  | e :: rest, O => f e :: rest
  | e :: rest, Datatypes.S n' => e :: update_nth n' f rest
  end.

(** Reading [m_textureIDs[i]]. *)
Definition textureIDs_at (i : Z) : M TEXTURE_INFO.t :=
  a <- gets m_textureIDs ;;
  match (if in_bounds a i then nth_error a (Z.to_nat i) else None) with
  | Some e => ret e
  | None => fail (OutOfBounds i)
  end.

(** Assigning to a field of [m_textureIDs[i]]. *)
Definition textureIDs_store (i : Z) (f : TEXTURE_INFO.t -> TEXTURE_INFO.t)
  : M unit :=
  a <- gets m_textureIDs ;;
  if in_bounds a i
  then modify (with_textureIDs (update_nth (Z.to_nat i) f a))
  else fail (OutOfBounds i).

Definition set_ID (v : Z) (e : TEXTURE_INFO.t) : TEXTURE_INFO.t :=
  TEXTURE_INFO.mk v (TEXTURE_INFO.tag e).

Definition set_tag (v : string) (e : TEXTURE_INFO.t) : TEXTURE_INFO.t :=
  TEXTURE_INFO.mk (TEXTURE_INFO.ID e) v.

(** Reading [m_objectMaterials[i]]. *)
Definition objectMaterials_at (i : Z) : M OBJECT_MATERIAL.t :=
  l <- gets m_objectMaterials ;;
  match (if in_bounds l i then nth_error l (Z.to_nat i) else None) with
  | Some e => ret e
  | None => fail (OutOfBounds i)
  end.

(** ** The methods of SceneManager *)

(** [CreateGLTexture(filename, tag)] *)
Definition CreateGLTexture (filename tag : string) : M bool :=
  call (stbi_set_flip_vertically_on_load true) ;;
  image <- stbi_load filename ;;
  match image with
  | Some img =>
      let width := width img in
      let height := height img in
      let colorChannels := colorChannels img in
      call (cout_loaded filename width height colorChannels) ;;
      textureID <- gen_texture ;;
      call (glBindTexture GL_TEXTURE_2D textureID) ;;
      call (glTexParameteri GL_TEXTURE_2D GL_TEXTURE_WRAP_S GL_REPEAT) ;;
      call (glTexParameteri GL_TEXTURE_2D GL_TEXTURE_WRAP_T GL_REPEAT) ;;
      call (glTexParameteri GL_TEXTURE_2D GL_TEXTURE_MIN_FILTER GL_LINEAR) ;;
      call (glTexParameteri GL_TEXTURE_2D GL_TEXTURE_MAG_FILTER GL_LINEAR) ;;
      let register : M bool :=
        call (glGenerateMipmap GL_TEXTURE_2D) ;;
        call stbi_image_free ;;
        call (glBindTexture GL_TEXTURE_2D 0) ;;
        n <- gets m_loadedTextures ;;
        textureIDs_store n (set_ID textureID) ;;
        n <- gets m_loadedTextures ;;
        textureIDs_store n (set_tag tag) ;;
        modify (fun w => with_loadedTextures (m_loadedTextures w + 1) w) ;;
        ret true in
      if colorChannels =? 3 then
        call (glTexImage2D GL_TEXTURE_2D 0 GL_RGB8 width height 0
                           GL_RGB GL_UNSIGNED_BYTE) ;;
        register
      else if colorChannels =? 4 then
        call (glTexImage2D GL_TEXTURE_2D 0 GL_RGBA8 width height 0
                           GL_RGBA GL_UNSIGNED_BYTE) ;;
        register
      else
        call (cout_not_implemented colorChannels) ;;
        ret false
  | None =>
      call (cout_could_not_load filename) ;;
      ret false
  end.

(** [BindGLTextures()] *)
Definition BindGLTextures : M unit :=
  n <- gets m_loadedTextures ;;
  for_range 0 n (fun i =>
    call (glActiveTexture (GL_TEXTURE0 + i)) ;;
    e <- textureIDs_at i ;;
    call (glBindTexture GL_TEXTURE_2D (TEXTURE_INFO.ID e))).

(** [DestroyGLTextures()]: the body of the loop is
    [glGenTextures(1, &m_textureIDs[i].ID)]. *)
Definition DestroyGLTextures : M unit :=
  n <- gets m_loadedTextures ;;
  for_range 0 n (fun i =>
    _ <- textureIDs_at i ;;
    name <- gen_texture ;;
    textureIDs_store i (set_ID name)).

(** [FindTextureID(tag)].  The loop runs on the local variables
    (textureID, index, bFound). *)
Definition FindTextureID (tag : string) : M Z :=
  n <- gets m_loadedTextures ;;
  locals <-
    while (Z.to_nat n)
      (fun '(textureID, index, bFound) =>
         (index <? n) && Bool.eqb bFound false)
      (fun '(textureID, index, bFound) =>
         e <- textureIDs_at index ;;
         if compare (TEXTURE_INFO.tag e) tag =? 0
         then ret (int_of_GLuint (TEXTURE_INFO.ID e), index, true)
         else ret (textureID, index + 1, bFound))
      (-1, 0, false) ;;
  let '(textureID, _, _) := locals in
  ret textureID.

(** [FindTextureSlot(tag)] *)
Definition FindTextureSlot (tag : string) : M Z :=
  n <- gets m_loadedTextures ;;
  locals <-
    while (Z.to_nat n)
      (fun '(textureSlot, index, bFound) =>
         (index <? n) && Bool.eqb bFound false)
      (fun '(textureSlot, index, bFound) =>
         e <- textureIDs_at index ;;
         if compare (TEXTURE_INFO.tag e) tag =? 0
         then ret (index, index, true)
         else ret (textureSlot, index + 1, bFound))
      (-1, 0, false) ;;
  let '(textureSlot, _, _) := locals in
  ret textureSlot.

(** The five assignments of [FindMaterial] to its reference parameter. *)
Definition copy_properties (from material : OBJECT_MATERIAL.t)
  : OBJECT_MATERIAL.t :=
  OBJECT_MATERIAL.mk
    (OBJECT_MATERIAL.ambientColor from)
    (OBJECT_MATERIAL.ambientStrength from)
    (OBJECT_MATERIAL.diffuseColor from)
    (OBJECT_MATERIAL.specularColor from)
    (OBJECT_MATERIAL.shininess from)
    (OBJECT_MATERIAL.tag material).

(** [FindMaterial(tag, material)]: the result is the returned flag and the
    value of the reference parameter [material] at return. *)
Definition FindMaterial (tag : string) (material : OBJECT_MATERIAL.t)
  : M (bool * OBJECT_MATERIAL.t) :=
  size <- gets (fun w => Z.of_nat (length (m_objectMaterials w))) ;;
  if size =? 0 then ret (false, material)
  else
    locals <-
      while (Z.to_nat size)
        (fun '(material, index, bFound) =>
           (index <? size) && Bool.eqb bFound false)
        (fun '(material, index, bFound) =>
           e <- objectMaterials_at index ;;
           if compare (OBJECT_MATERIAL.tag e) tag =? 0
           then ret (copy_properties e material, index, true)
           else ret (material, index + 1, bFound))
        (material, 0, false) ;;
    let '(material, _, _) := locals in
    ret (true, material).

(** [SetTransformations(scaleXYZ, Xdeg, Ydeg, Zdeg, positionXYZ)] *)
Definition SetTransformations (scaleXYZ : vec3.t)
  (XrotationDegrees YrotationDegrees ZrotationDegrees : R)
  (positionXYZ : vec3.t) : M unit :=
  let scale := glm.scale scaleXYZ in
  let rotationX :=
    glm.rotate (glm.radians XrotationDegrees) (vec3.mk 1 0 0) in
  let rotationY :=
    glm.rotate (glm.radians YrotationDegrees) (vec3.mk 0 1 0) in
  let rotationZ :=
    glm.rotate (glm.radians ZrotationDegrees) (vec3.mk 0 0 1) in
  let translation := glm.translate positionXYZ in
  let modelView :=
    glm.mat_mul
      (glm.mat_mul (glm.mat_mul (glm.mat_mul translation rotationZ) rotationY)
                   rotationX)
      scale in
  p <- gets m_pShaderManager ;;
  match p with
  | Some _ => setMat4Value g_ModelName modelView
  | None => ret tt
  end.

(** [SetShaderColor(r, g, b, a)] *)
Definition SetShaderColor
  (redColorValue greenColorValue blueColorValue alphaValue : R) : M unit :=
  let currentColor :=
    vec4.mk redColorValue greenColorValue blueColorValue alphaValue in
  p <- gets m_pShaderManager ;;
  match p with
  | Some _ =>
      setIntValue g_UseTextureName (Z_of_bool false) ;;
      setVec4Value g_ColorValueName currentColor
  | None => ret tt
  end.

(** [SetShaderTexture(textureTag)] *)
Definition SetShaderTexture (textureTag : string) : M unit :=
  p <- gets m_pShaderManager ;;
  match p with
  | Some _ =>
      setIntValue g_UseTextureName (Z_of_bool true) ;;
      textureID <- FindTextureSlot textureTag ;;
      setSampler2DValue g_TextureValueName textureID
  | None => ret tt
  end.

(** [SetTextureUVScale(u, v)] *)
Definition SetTextureUVScale (u v : R) : M unit :=
  p <- gets m_pShaderManager ;;
  match p with
  | Some _ => setVec2Value "UVscale" (vec2.mk u v)
  | None => ret tt
  end.

(** [SetShaderMaterial(materialTag)].  The local [material] is declared
    without an initialiser; [uninitialised] stands for what it holds. *)
Definition SetShaderMaterial (materialTag : string)
  (uninitialised : OBJECT_MATERIAL.t) : M unit :=
  size <- gets (fun w => Z.of_nat (length (m_objectMaterials w))) ;;
  if 0 <? size then
    r <- FindMaterial materialTag uninitialised ;;
    let '(bReturn, material) := r in
    if Bool.eqb bReturn true then
      setVec3Value "material.ambientColor"
                   (OBJECT_MATERIAL.ambientColor material) ;;
      setFloatValue "material.ambientStrength"
                    (OBJECT_MATERIAL.ambientStrength material) ;;
      setVec3Value "material.diffuseColor"
                   (OBJECT_MATERIAL.diffuseColor material) ;;
      setVec3Value "material.specularColor"
                   (OBJECT_MATERIAL.specularColor material) ;;
      setFloatValue "material.shininess"
                    (OBJECT_MATERIAL.shininess material)
    else ret tt
  else ret tt.

(** [LoadSceneTextures()] *)
Definition LoadSceneTextures : M unit :=
  CreateGLTexture "textures/drywall.jpg" "drywall" ;;
  CreateGLTexture "textures/backdrop.jpg" "backdrop" ;;
  CreateGLTexture "textures/abstract.jpg" "abstract" ;;
  CreateGLTexture "textures/stainedglass.jpg" "stainedglass" ;;
  CreateGLTexture "textures/pyramid.jpg" "pyramid" ;;
  CreateGLTexture "textures/pyramid2.jpg" "pyramid2" ;;
  CreateGLTexture "textures/sand.jpg" "sand" ;;
  BindGLTextures.

(** [DefineObjectMaterials()].  [steelMaterial] is declared without an
    initialiser and its ambient fields are never assigned. *)
Definition DefineObjectMaterials (uninitialised : OBJECT_MATERIAL.t)
  : M unit :=
  let steelMaterial :=
    OBJECT_MATERIAL.mk
      (OBJECT_MATERIAL.ambientColor uninitialised)
      (OBJECT_MATERIAL.ambientStrength uninitialised)
      (vec3.mk 0.5 0.5 0.5)
      (vec3.mk 0.7 0.7 0.7)
      64
      "steel" in
  modify (fun w =>
    with_objectMaterials (m_objectMaterials w ++ [steelMaterial]) w).

(** * Specification-level definitions *)

(** ** Linear search

    The three lookups ([FindTextureID], [FindTextureSlot], [FindMaterial])
    run the same loop over (result, index, bFound); they differ in the
    container they read and in the assignment made on a match. *)

Definition search_cond {R : Type} (n : Z) : R * Z * bool -> bool :=
  fun '(_, index, bFound) => (index <? n) && Bool.eqb bFound false.

Definition search_body {A R : Type} (tag_of : A -> string) (read : Z -> M A)
  (hit : R -> Z -> A -> R) (tag : string) : R * Z * bool -> M (R * Z * bool) :=
  fun '(r, index, bFound) =>
    e <- read index ;;
    if compare (tag_of e) tag =? 0
    then ret (hit r index e, index, true)
    else ret (r, index + 1, bFound).

(** First element of [l] tagged [tag], with its index counted from [i]. *)
Fixpoint first_hit {A : Type} (tag_of : A -> string) (tag : string)
  (l : list A) (i : Z) : option (Z * A) :=
  match l with
  | [] => None
  | e :: rest =>
      if String.eqb (tag_of e) tag then Some (i, e)
      else first_hit tag_of tag rest (i + 1)
  end.

(** ** The registered part of the texture table *)

(** The entries the lookups scan: the first [m_loadedTextures] ones. *)
Definition loaded (w : World) : list TEXTURE_INFO.t :=
  firstn (Z.to_nat (m_loadedTextures w)) (m_textureIDs w).

Definition registered_tags (w : World) : list string :=
  map TEXTURE_INFO.tag (loaded w).

(** The count does not exceed the size of the array. *)
Definition table_ok (w : World) : Prop :=
  m_loadedTextures w <= Z.of_nat (length (m_textureIDs w)).

(** What the slot lookup is to return: the index of the first registered
    entry with the tag, or -1. *)
Definition slot_of (tag : string) (w : World) : Z :=
  match first_hit TEXTURE_INFO.tag tag (loaded w) 0 with
  | Some (j, _) => j
  | None => -1
  end.

(** What the handle lookup is to return: the handle of that entry as an
    [int], or -1. *)
Definition id_of (tag : string) (w : World) : Z :=
  match first_hit TEXTURE_INFO.tag tag (loaded w) 0 with
  | Some (_, e) => int_of_GLuint (TEXTURE_INFO.ID e)
  | None => -1
  end.

(** What [FindMaterial] leaves in its reference parameter. *)
Definition material_of (tag : string) (material : OBJECT_MATERIAL.t)
  (w : World) : OBJECT_MATERIAL.t :=
  match first_hit OBJECT_MATERIAL.tag tag (m_objectMaterials w) 0 with
  | Some (_, e) => copy_properties e material
  | None => material
  end.

(** The members of the scene manager that [CreateGLTexture] never
    assigns, and the files on disk. *)
Definition same_rest (w w' : World) : Prop :=
  m_pShaderManager w' = m_pShaderManager w /\
  m_objectMaterials w' = m_objectMaterials w /\
  disk w' = disk w.

Definition same_table (w w' : World) : Prop :=
  m_loadedTextures w' = m_loadedTextures w /\
  m_textureIDs w' = m_textureIDs w.

(** Channel counts [CreateGLTexture] uploads. *)
Definition supported (img : Image) : Prop :=
  colorChannels img = 3 \/ colorChannels img = 4.

(** A run of registrations, one [CreateGLTexture] per (filename, tag),
    with the flags the calls returned. *)
Fixpoint register_all (calls : list (string * string)) : M (list bool) :=
  match calls with
  | [] => ret []
  | (filename, tag) :: rest =>
      b <- CreateGLTexture filename tag ;;
      bs <- register_all rest ;;
      ret (b :: bs)
  end.

(** Unfolding the monad and the primitive operations. *)
Ltac run :=
  cbv beta iota zeta delta
    [bind ret fail gets modify call stbi_load gen_texture set_uniform
     setIntValue setBoolValue setFloatValue setVec2Value setVec3Value
     setVec4Value setMat4Value setSampler2DValue
     textureIDs_at textureIDs_store objectMaterials_at
     with_gl with_textureIDs with_loadedTextures with_shader
     with_objectMaterials];
  simpl.

(** The two ways [RenderScene] chooses how the next mesh is coloured. *)
Inductive appearance : Type :=
| Color (redColorValue greenColorValue blueColorValue alphaValue : R)
| Texture (textureTag : string).

Definition set_appearance (c : appearance) : M unit :=
  match c with
  | Color r g b a => SetShaderColor r g b a
  | Texture textureTag => SetShaderTexture textureTag
  end.

Fixpoint set_appearances (calls : list appearance) : M unit :=
  match calls with
  | [] => ret tt
  | c :: rest => set_appearance c ;; set_appearances rest
  end.

(** The value of [bUseTexture] each of the two calls asks for. *)
Definition texture_flag (c : appearance) : Z :=
  match c with
  | Color _ _ _ _ => 0
  | Texture _ => 1
  end.

(** ** Concrete scenes *)

(** Modelled from the spec: [SceneManager.h] is not among the sources, so
    the declaration of the members is missing.  The texture table is "a
    fixed-capacity table (capacity bound by available texture units,
    nominally 16)", with no texture loaded and no material defined at
    first; the constructor stores the shader manager it is given. *)
Definition new_SceneManager (pShaderManager : option ShaderManager)
  (files : string -> option Image) : World :=
  mkWorld pShaderManager 0 (repeat (TEXTURE_INFO.mk 0 "") 16) [] files 1 [].

(** A directory of images: the seven textures of [LoadSceneTextures] as
    RGB files, one RGBA file, one greyscale file, and nothing else. *)
Definition textures_dir (filename : string) : option Image :=
  if String.eqb filename "textures/icon.png" then Some (mkImage 2 2 4)
  else if String.eqb filename "textures/gray.png" then Some (mkImage 2 2 1)
  else if String.eqb filename "textures/missing.jpg" then None
  else Some (mkImage 512 512 3).

Definition after {A : Type} (m : M A) (w : World) : World :=
  match m w with
  | Done (_, w') => w'
  | Fault _ => w
  end.

(** The scene after [LoadSceneTextures], with a shader manager. *)
Definition loaded_scene : World :=
  after LoadSceneTextures (new_SceneManager (Some []) textures_dir).

(** Seventeen registrations under distinct tags. *)
Definition seventeen : list (string * string) :=
  [ ("textures/drywall.jpg", "drywall"); ("textures/backdrop.jpg", "backdrop");
    ("textures/abstract.jpg", "abstract");
    ("textures/stainedglass.jpg", "stainedglass");
    ("textures/pyramid.jpg", "pyramid"); ("textures/pyramid2.jpg", "pyramid2");
    ("textures/sand.jpg", "sand"); ("textures/t08.jpg", "t08");
    ("textures/t09.jpg", "t09"); ("textures/t10.jpg", "t10");
    ("textures/t11.jpg", "t11"); ("textures/t12.jpg", "t12");
    ("textures/t13.jpg", "t13"); ("textures/t14.jpg", "t14");
    ("textures/t15.jpg", "t15"); ("textures/t16.jpg", "t16");
    ("textures/t17.jpg", "t17") ].

(** The scene after the first sixteen of them. *)
Definition full_scene : World :=
  after (register_all (firstn 16 seventeen))
        (new_SceneManager (Some []) textures_dir).

(** [loaded_scene] after one more registration under the tag "sand". *)
Definition sand_twice : World :=
  after (CreateGLTexture "textures/sand.jpg" "sand") loaded_scene.

(** [loaded_scene] after a greyscale file is offered under the tag "sand". *)
Definition sand_gray : World :=
  after (CreateGLTexture "textures/gray.png" "sand") loaded_scene.

(** A material with every field zero, for declared-but-unassigned locals. *)
Definition zero_material : OBJECT_MATERIAL.t :=
  OBJECT_MATERIAL.mk (vec3.mk 0 0 0) 0 (vec3.mk 0 0 0) (vec3.mk 0 0 0) 0 "".

(** A scene manager constructed with a null shader manager, after
    [DefineObjectMaterials]. *)
Definition unset_shader_scene : World :=
  after (DefineObjectMaterials zero_material)
        (new_SceneManager None textures_dir).

(** ** Teardown *)

(** [count] calls of [glGenTextures] that return [name], [name + 1], ...
    (newest first, as in [trace]). *)
Definition generate_calls (name : Z) (count : nat) : list Event :=
  rev (map (fun k => glGenTextures (name + Z.of_nat k)) (seq 0 count)).

(** The array after the loop of [DestroyGLTextures] has run [count] times
    from index [i], the context handing out [name] first. *)
Fixpoint regenerate (count i : nat) (name : Z) (a : list TEXTURE_INFO.t)
  : list TEXTURE_INFO.t :=
  match count with
  | O => a
  | Datatypes.S c =>
      regenerate c (Datatypes.S i) (name + 1) (update_nth i (set_ID name) a)
  end.

Definition is_generate (e : Event) : Prop :=
  match e with
  | glGenTextures _ => True
  | _ => False
  end.

(** ** The model matrix *)

(** The product [SetTransformations] sends, as a function of its five
    factors, leftmost first. *)
Definition compose5 (m1 m2 m3 m4 m5 : mat4.t) : mat4.t :=
  glm.mat_mul (glm.mat_mul (glm.mat_mul (glm.mat_mul m1 m2) m3) m4) m5.

(** The transformations of a point (in homogeneous coordinates) that the
    specification names, each by its textbook formula. *)
Module point.
Local Open Scope R_scope.

Definition scale (s : vec3.t) (p : vec4.t) : vec4.t :=
  vec4.mk (vec3.x s * vec4.x p) (vec3.y s * vec4.y p) (vec3.z s * vec4.z p)
          (vec4.w p).

Definition rotate_x (a : R) (p : vec4.t) : vec4.t :=
  vec4.mk (vec4.x p)
          (cos a * vec4.y p - sin a * vec4.z p)
          (sin a * vec4.y p + cos a * vec4.z p)
          (vec4.w p).

Definition rotate_y (a : R) (p : vec4.t) : vec4.t :=
  vec4.mk (cos a * vec4.x p + sin a * vec4.z p)
          (vec4.y p)
          (cos a * vec4.z p - sin a * vec4.x p)
          (vec4.w p).

Definition rotate_z (a : R) (p : vec4.t) : vec4.t :=
  vec4.mk (cos a * vec4.x p - sin a * vec4.y p)
          (sin a * vec4.x p + cos a * vec4.y p)
          (vec4.z p)
          (vec4.w p).

Definition translate (t : vec3.t) (p : vec4.t) : vec4.t :=
  vec4.mk (vec4.x p + vec3.x t * vec4.w p)
          (vec4.y p + vec3.y t * vec4.w p)
          (vec4.z p + vec3.z t * vec4.w p)
          (vec4.w p).
End point.

Definition axis_x : vec3.t := vec3.mk 1 0 0.
Definition axis_y : vec3.t := vec3.mk 0 1 0.
Definition axis_z : vec3.t := vec3.mk 0 0 1.

(** ** Replaying the OpenGL calls of a trace *)

(** The texture bound by the newest [glBindTexture] of a trace. *)
Fixpoint current_binding (calls : list Event) : option Z :=
  match calls with
  | [] => None
  | glBindTexture _ texture :: _ => Some texture
  | _ :: rest => current_binding rest
  end.

(** The texture unit selected by the newest [glActiveTexture]; a context
    starts with [GL_TEXTURE0] selected. *)
Fixpoint active_unit (calls : list Event) : Z :=
  match calls with
  | [] => GL_TEXTURE0
  | glActiveTexture unit :: _ => unit
  | _ :: rest => active_unit rest
  end.

(** The texture bound on [unit] after a trace: that of the newest
    [glBindTexture] issued while [unit] was the selected one. *)
Fixpoint texture_on_unit (unit : Z) (calls : list Event) : option Z :=
  match calls with
  | [] => None
  | glBindTexture _ texture :: rest =>
      if active_unit rest =? unit then Some texture
      else texture_on_unit unit rest
  | _ :: rest => texture_on_unit unit rest
  end.

Definition is_delete (e : Event) : Prop :=
  match e with
  | glDeleteTextures _ => True
  | _ => False
  end.

(** No OpenGL call at all (calls to stb_image and to the console only). *)
Definition is_not_gl (e : Event) : Prop :=
  match e with
  | stbi_set_flip_vertically_on_load _ | stbi_image_free
  | cout_loaded _ _ _ _ | cout_not_implemented _ | cout_could_not_load _ =>
      True
  | _ => False
  end.

(** The pixel format [CreateGLTexture] uploads an image in. *)
Definition upload_call (img : Image) : Event :=
  if colorChannels img =? 3
  then glTexImage2D GL_TEXTURE_2D 0 GL_RGB8 (width img) (height img) 0
                    GL_RGB GL_UNSIGNED_BYTE
  else glTexImage2D GL_TEXTURE_2D 0 GL_RGBA8 (width img) (height img) 0
                    GL_RGBA GL_UNSIGNED_BYTE.

(** The files [CreateGLTexture] registers a texture for. *)
Definition loads (files : string -> option Image) (filename : string) : bool :=
  match files filename with
  | Some img => (colorChannels img =? 3) || (colorChannels img =? 4)
  | None => false
  end.

(** The calls of [CreateGLTexture] between a successful [stbi_load] and the
    upload, newest first; [name] is the generated texture name. *)
Definition prepare_calls (filename : string) (img : Image) (name : Z)
  : list Event :=
  [ glTexParameteri GL_TEXTURE_2D GL_TEXTURE_MAG_FILTER GL_LINEAR;
    glTexParameteri GL_TEXTURE_2D GL_TEXTURE_MIN_FILTER GL_LINEAR;
    glTexParameteri GL_TEXTURE_2D GL_TEXTURE_WRAP_T GL_REPEAT;
    glTexParameteri GL_TEXTURE_2D GL_TEXTURE_WRAP_S GL_REPEAT;
    glBindTexture GL_TEXTURE_2D name;
    glGenTextures name;
    cout_loaded filename (width img) (height img) (colorChannels img);
    stbi_set_flip_vertically_on_load true ].

(** All the calls of a [CreateGLTexture] that registers a texture. *)
Definition register_calls (filename : string) (img : Image) (name : Z)
  : list Event :=
  ([ glBindTexture GL_TEXTURE_2D 0;
     stbi_image_free;
     glGenerateMipmap GL_TEXTURE_2D;
     upload_call img ] ++ prepare_calls filename img name)%list.

(** All the calls of a [CreateGLTexture] that rejects the channel count. *)
Definition reject_calls (filename : string) (img : Image) (name : Z)
  : list Event :=
  cout_not_implemented (colorChannels img) :: prepare_calls filename img name.

(** The calls of the loop of [BindGLTextures] run [count] times from index
    [i], newest first. *)
Fixpoint bind_calls (count i : nat) (a : list TEXTURE_INFO.t) : list Event :=
  match count with
  | O => []
  | Datatypes.S c =>
      (bind_calls c (Datatypes.S i) a
       ++ [ glBindTexture GL_TEXTURE_2D
              (TEXTURE_INFO.ID (nth i a (TEXTURE_INFO.mk 0 "")));
            glActiveTexture (GL_TEXTURE0 + Z.of_nat i) ])%list
  end.

(** ** The scene script *)

(** [SetupSceneLights()].  The three-float form of [setVec3Value] is
    written with the vector it builds. *)
Definition SetupSceneLights : M unit :=
  setBoolValue g_UseLightingName true ;;
  setVec3Value "globalAmbientColor" (vec3.mk 0.05 0.04 0.07) ;;
  setVec3Value "lightSources[0].position" (vec3.mk (-5) 5 10) ;;
  setVec3Value "lightSources[0].diffuseColor" (vec3.mk 0.7 0.1 0.05) ;;
  setVec3Value "lightSources[0].specularColor" (vec3.mk 0.5 0.01 0.005) ;;
  setFloatValue "lightSources[0].focalStrength" 16 ;;
  setFloatValue "lightSources[0].specularIntensity" 0.15 ;;
  setVec3Value "lightSources[1].position" (vec3.mk 5 15 6) ;;
  setVec3Value "lightSources[1].diffuseColor" (vec3.mk 0.4 0.4 0.4) ;;
  setVec3Value "lightSources[1].specularColor" (vec3.mk 0.25 0.25 0.25) ;;
  setFloatValue "lightSources[1].focalStrength" 8 ;;
  setFloatValue "lightSources[1].specularIntensity" 0.1.

(** The mesh library (external): [m_basicMeshes] is used through these
    calls only.  A draw call is recorded with the arguments the source
    writes; the defaults of the omitted ones are declared in a header that
    is not among the sources. *)
Inductive MeshCall : Type :=
| LoadPlaneMesh
| LoadConeMesh
| LoadBoxMesh
| LoadSphereMesh
| LoadCylinderMesh
| DrawPlaneMesh
| DrawBoxMesh
| DrawConeMesh (arguments : list bool)
| DrawCylinderMesh (arguments : list bool).

(** The state seen by [PrepareScene] and [RenderScene]: the world and the
    calls [m_basicMeshes] has received, newest first. *)
Definition Stage : Type := (World * list MeshCall)%type.

Definition MR (A : Type) : Type := Stage -> outcome (A * Stage).

Definition retR {A} (a : A) : MR A := fun s => Done (a, s).

Definition bindR {A B} (m : MR A) (k : A -> MR B) : MR B :=
  fun s =>
    match m s with
    | Done (a, s') => k a s'
    | Fault f => Fault f
    end.

(** A method of the scene manager, run on the world of the stage. *)
Definition lift {A} (m : M A) : MR A :=
  fun s =>
    match m (fst s) with
    | Done (a, w') => Done (a, (w', snd s))
    | Fault f => Fault f
    end.

(** [m_basicMeshes->c] *)
Definition mesh (c : MeshCall) : MR unit :=
  fun s => Done (tt, (fst s, c :: snd s)).

Declare Scope stage_scope.
Delimit Scope stage_scope with stage.
Notation "x <- m ;; k" := (bindR m (fun x => k))
  (at level 100, m at next level, right associativity) : stage_scope.
Notation "m ;; k" := (bindR m (fun _ => k))
  (at level 100, right associativity) : stage_scope.

Fixpoint for_loopR (count : nat) (i : Z) (body : Z -> MR unit) : MR unit :=
  match count with
  | O => retR tt
  | Datatypes.S count' => bindR (body i) (fun _ => for_loopR count' (i + 1) body)
  end.

Definition for_rangeR (from to : Z) (body : Z -> MR unit) : MR unit :=
  for_loopR (Z.to_nat (to - from)) from body.

(** [PrepareScene()].  [uninitialised] is what the local [steelMaterial]
    of [DefineObjectMaterials] holds before its fields are assigned. *)
Definition PrepareScene (uninitialised : OBJECT_MATERIAL.t) : MR unit :=
  (lift LoadSceneTextures ;;
   lift (DefineObjectMaterials uninitialised) ;;
   lift SetupSceneLights ;;
   mesh LoadPlaneMesh ;;
   mesh LoadConeMesh ;;
   mesh LoadBoxMesh ;;
   mesh LoadSphereMesh ;;
   mesh LoadCylinderMesh)%stage.

(** [RenderScene()].  [uninitialised] is what the local [material] of
    [SetShaderMaterial] holds. *)
Definition RenderScene (uninitialised : OBJECT_MATERIAL.t) : MR unit :=
  (let XrotationDegrees := 0%R in
   let YrotationDegrees := 0%R in
   let ZrotationDegrees := 0%R in
   let place scaleXYZ positionXYZ :=
     lift (SetTransformations scaleXYZ XrotationDegrees YrotationDegrees
                              ZrotationDegrees positionXYZ) in
   (* the ground *)
   place (vec3.mk 20 1 10) (vec3.mk 0 0 0) ;;
   lift (SetShaderTexture "sand") ;;
   lift (SetTextureUVScale 1 1) ;;
   mesh DrawPlaneMesh ;;
   (* descending cubes *)
   let numCubes := 9 in
   let maxHeight := 3%R in
   let cubeHeight := (maxHeight / IZR numCubes)%R in
   let cubeSize := 0.5%R in
   for_rangeR 0 numCubes (fun i =>
     let scaleFactor := (IZR (numCubes - i) / IZR numCubes)%R in
     let yPos := (cubeHeight * IZR i)%R in
     let r := (0.8 + 0.2 * scaleFactor)%R in
     let g := (0.6 + 0.4 * scaleFactor)%R in
     let b := (0.4 + 0.6 * scaleFactor)%R in
     place (vec3.mk (scaleFactor * 3 * cubeSize) (scaleFactor * 3 * cubeSize)
                    (scaleFactor * 3 * cubeSize))
           (vec3.mk 3 yPos 3.8) ;;
     lift (SetShaderColor r g b 1) ;;
     lift (SetShaderTexture "pyramid2") ;;
     lift (SetTextureUVScale 1 1) ;;
     mesh DrawBoxMesh) ;;
   (* ascending cubes and cones *)
   let numCubess := 5 in
   for_rangeR 0 numCubess (fun i =>
     let scaleFactor := (IZR (numCubess - i) / IZR numCubess)%R in
     let yPos := (cubeHeight * IZR i)%R in
     let r := (0.8 + 0.2 * scaleFactor)%R in
     let g := (0.6 + 0.4 * scaleFactor)%R in
     let b := (0.4 + 0.6 * scaleFactor)%R in
     place (vec3.mk (scaleFactor * 3 * cubeSize) (scaleFactor * 3 * cubeSize)
                    (scaleFactor * 3 * cubeSize))
           (vec3.mk 2 yPos 5.6) ;;
     lift (SetShaderColor r g b 1) ;;
     if i =? numCubes - 1 then retR tt
     else if i =? numCubes - 2 then
       lift (SetShaderTexture "pyramid2") ;;
       lift (SetTextureUVScale 1 1) ;;
       mesh (DrawConeMesh [])
     else
       lift (SetShaderTexture "pyramid2") ;;
       lift (SetTextureUVScale 1 1) ;;
       mesh DrawBoxMesh) ;;
   (* large pyramid #2 *)
   place (vec3.mk 2 2 2) (vec3.mk 10 0 1) ;;
   lift (SetShaderTexture "pyramid") ;;
   lift (SetTextureUVScale 1 1) ;;
   mesh (DrawConeMesh []) ;;
   (* medium pyramid #3 *)
   place (vec3.mk 2 2 2) (vec3.mk 6 0 2) ;;
   lift (SetShaderTexture "pyramid") ;;
   lift (SetTextureUVScale 1 1) ;;
   mesh (DrawConeMesh [true]) ;;
   (* small pyramid #3 *)
   place (vec3.mk 0.5 0.5 0.5) (vec3.mk 6 1.6 2) ;;
   lift (SetShaderTexture "pyramid2") ;;
   lift (SetTextureUVScale 1 1) ;;
   mesh (DrawConeMesh [true]) ;;
   (* textured cylinder *)
   place (vec3.mk 0.3 0.3 0.3) (vec3.mk (-1.2) 0 4) ;;
   lift (SetShaderTexture "pyramid2") ;;
   lift (SetTextureUVScale 1 1) ;;
   mesh (DrawCylinderMesh [false; true; true]) ;;
   lift (SetShaderMaterial "steel" uninitialised) ;;
   lift (SetShaderTexture "sand") ;;
   lift (SetTextureUVScale 1 1) ;;
   mesh (DrawCylinderMesh [true; false; false]) ;;
   (* small cone *)
   place (vec3.mk 1 1 1) (vec3.mk 0.3 0 3) ;;
   lift (SetShaderColor 0.82 0.71 0.55 1) ;;
   mesh (DrawConeMesh []))%stage.

(** ** Relations between the state before and after a call *)

(** Every completed run of [m] relates the state before to the state
    after. *)
Definition keeps {A} (Rel : World -> World -> Prop) (m : M A) : Prop :=
  forall w a w', m w = Done (a, w') -> Rel w w'.

Definition keepsR {A} (Rel : World -> World -> Prop) (m : MR A) : Prop :=
  forall s a s', m s = Done (a, s') -> Rel (fst s) (fst s').

Class Frame (Rel : World -> World -> Prop) : Prop := {
  frame_refl : forall w, Rel w w;
  frame_trans : forall w1 w2 w3, Rel w1 w2 -> Rel w2 w3 -> Rel w1 w3
}.

(** The trace was only extended, and not by a [glDeleteTextures]. *)
Definition no_delete_since (w w' : World) : Prop :=
  exists new,
    trace w' = (new ++ trace w)%list /\
    forall name, ~ In (glDeleteTextures name) new.

(** Nothing but the shader manager changed. *)
Definition only_shader (w w' : World) : Prop :=
  m_loadedTextures w' = m_loadedTextures w /\
  m_textureIDs w' = m_textureIDs w /\
  m_objectMaterials w' = m_objectMaterials w /\
  disk w' = disk w /\
  gl_next_name w' = gl_next_name w /\
  trace w' = trace w.

(** The value of a uniform in the shader manager of a state. *)
Definition uniform_of (w : World) (name : string) : option uniform_value :=
  match m_pShaderManager w with
  | Some sh => uniform name sh
  | None => None
  end.

(** The uniforms outside [names] hold what they held. *)
Definition others_kept (names : list string) (w w' : World) : Prop :=
  forall name, ~ In name names -> uniform_of w' name = uniform_of w name.

(** From a count inside the array: the count is still inside it, and the
    registered tags are the old ones, in their slots, followed by new
    ones. *)
Definition table_extended (w w' : World) : Prop :=
  table_ok w ->
  table_ok w' /\
  exists added, registered_tags w' = (registered_tags w ++ added)%list.

(** The calls that only send uniforms. *)
Inductive uniform_call : Type :=
| CallSetTransformations (scaleXYZ : vec3.t) (Xdeg Ydeg Zdeg : R)
                         (positionXYZ : vec3.t)
| CallSetShaderColor (r g b a : R)
| CallSetShaderTexture (textureTag : string)
| CallSetTextureUVScale (u v : R)
| CallSetShaderMaterial (materialTag : string)
                        (uninitialised : OBJECT_MATERIAL.t)
| CallSetupSceneLights.

Definition run_uniform_call (c : uniform_call) : M unit :=
  match c with
  | CallSetTransformations s x y z p => SetTransformations s x y z p
  | CallSetShaderColor r g b a => SetShaderColor r g b a
  | CallSetShaderTexture t => SetShaderTexture t
  | CallSetTextureUVScale u v => SetTextureUVScale u v
  | CallSetShaderMaterial t u => SetShaderMaterial t u
  | CallSetupSceneLights => SetupSceneLights
  end.

(** The names of the uniforms each of them writes in the source. *)
Definition uniforms_written (c : uniform_call) : list string :=
  match c with
  | CallSetTransformations _ _ _ _ _ => [g_ModelName]
  | CallSetShaderColor _ _ _ _ => [g_UseTextureName; g_ColorValueName]
  | CallSetShaderTexture _ => [g_UseTextureName; g_TextureValueName]
  | CallSetTextureUVScale _ _ => ["UVscale"]
  | CallSetShaderMaterial _ _ =>
      ["material.ambientColor"; "material.ambientStrength";
       "material.diffuseColor"; "material.specularColor";
       "material.shininess"]
  | CallSetupSceneLights =>
      [g_UseLightingName; "globalAmbientColor";
       "lightSources[0].position"; "lightSources[0].diffuseColor";
       "lightSources[0].specularColor"; "lightSources[0].focalStrength";
       "lightSources[0].specularIntensity";
       "lightSources[1].position"; "lightSources[1].diffuseColor";
       "lightSources[1].specularColor"; "lightSources[1].focalStrength";
       "lightSources[1].specularIntensity"]
  end.

(** Every method of the class the model covers, as a call on the stage. *)
Inductive method_call : Type :=
| CallCreateGLTexture (filename tag : string)
| CallBindGLTextures
| CallDestroyGLTextures
| CallFindTextureID (tag : string)
| CallFindTextureSlot (tag : string)
| CallFindMaterial (tag : string) (material : OBJECT_MATERIAL.t)
| CallUniform (c : uniform_call)
| CallLoadSceneTextures
| CallDefineObjectMaterials (uninitialised : OBJECT_MATERIAL.t)
| CallPrepareScene (uninitialised : OBJECT_MATERIAL.t)
| CallRenderScene (uninitialised : OBJECT_MATERIAL.t).

Definition run_method (c : method_call) : MR unit :=
  match c with
  | CallCreateGLTexture f t => lift (CreateGLTexture f t ;; ret tt)
  | CallBindGLTextures => lift BindGLTextures
  | CallDestroyGLTextures => lift DestroyGLTextures
  | CallFindTextureID t => lift (FindTextureID t ;; ret tt)
  | CallFindTextureSlot t => lift (FindTextureSlot t ;; ret tt)
  | CallFindMaterial t m => lift (FindMaterial t m ;; ret tt)
  | CallUniform c => lift (run_uniform_call c)
  | CallLoadSceneTextures => lift LoadSceneTextures
  | CallDefineObjectMaterials u => lift (DefineObjectMaterials u)
  | CallPrepareScene u => PrepareScene u
  | CallRenderScene u => RenderScene u
  end.

Fixpoint run_methods (calls : list method_call) : MR unit :=
  match calls with
  | [] => retR tt
  | c :: rest => bindR (run_method c) (fun _ => run_methods rest)
  end.

(** The files and tags of [LoadSceneTextures], in call order. *)
Definition scene_textures : list (string * string) :=
  [ ("textures/drywall.jpg", "drywall"); ("textures/backdrop.jpg", "backdrop");
    ("textures/abstract.jpg", "abstract");
    ("textures/stainedglass.jpg", "stainedglass");
    ("textures/pyramid.jpg", "pyramid"); ("textures/pyramid2.jpg", "pyramid2");
    ("textures/sand.jpg", "sand") ].

(** The draw calls of [RenderScene], oldest first. *)
Definition scene_draws : list MeshCall :=
  ([DrawPlaneMesh] ++ repeat DrawBoxMesh 9 ++ repeat DrawBoxMesh 5
   ++ [ DrawConeMesh []; DrawConeMesh [true]; DrawConeMesh [true];
        DrawCylinderMesh [false; true; true];
        DrawCylinderMesh [true; false; false];
        DrawConeMesh [] ])%list.

Definition stage_after {A : Type} (m : MR A) (s : Stage) : Stage :=
  match m s with
  | Done (_, s') => s'
  | Fault _ => s
  end.

(** A stage with a fresh scene manager and a shader manager. *)
Definition fresh_stage : Stage :=
  (new_SceneManager (Some []) textures_dir, []).

(** ** Running the scene script *)

(** With a shader manager and a count inside the array, [m] completes,
    changes nothing in the world but the shader manager, which then
    satisfies [Q], and adds the mesh calls [calls] (newest first). *)
Definition shading {A} (calls : list MeshCall) (Q : ShaderManager -> Prop)
  (m : MR A) : Prop :=
  forall (w : World) (sh : ShaderManager) (log : list MeshCall),
    table_ok w -> m_pShaderManager w = Some sh ->
    exists a sh',
      m (w, log) = Done (a, (with_shader (Some sh') w, calls ++ log)%list) /\
      Q sh'.

Definition any_shader : ShaderManager -> Prop := fun _ => True.

(** In a world satisfying [P], [m] completes, leaves the world as it is
    and adds the mesh calls [calls]. *)
Definition passes (P : World -> Prop) (calls : list MeshCall) (m : MR unit)
  : Prop :=
  forall (w : World) (log : list MeshCall),
    P w -> m (w, log) = Done (tt, (w, calls ++ log)%list).

(** In a world satisfying [P], [m] calls through the null pointer. *)
Definition faults (P : World -> Prop) (m : MR unit) : Prop :=
  forall (w : World) (log : list MeshCall),
    P w -> m (w, log) = Fault NullPointer.

Definition null_shader (w : World) : Prop := m_pShaderManager w = None.

Definition null_shader_no_material (w : World) : Prop :=
  m_pShaderManager w = None /\ m_objectMaterials w = [].

Definition null_shader_with_material (w : World) : Prop :=
  m_pShaderManager w = None /\ m_objectMaterials w <> [].

(** The material [DefineObjectMaterials] appends. *)
Definition steel (uninitialised : OBJECT_MATERIAL.t) : OBJECT_MATERIAL.t :=
  OBJECT_MATERIAL.mk
    (OBJECT_MATERIAL.ambientColor uninitialised)
    (OBJECT_MATERIAL.ambientStrength uninitialised)
    (vec3.mk 0.5 0.5 0.5) (vec3.mk 0.7 0.7 0.7) 64 "steel".

(** The tags [LoadSceneTextures] registers when the files are [files]. *)
Definition loadable_tags (files : string -> option Image) : list string :=
  map snd (filter (fun c => loads files (fst c)) scene_textures).

(** [textures_dir] without the third file of [LoadSceneTextures]. *)
Definition incomplete_dir (filename : string) : option Image :=
  if String.eqb filename "textures/abstract.jpg" then None
  else textures_dir filename.

Definition loaded_stage : Stage := (loaded_scene, []).

(** The five updates [SetShaderMaterial] sends for [m], newest first. *)
Definition material_uniforms (m : OBJECT_MATERIAL.t) : ShaderManager :=
  [ ("material.shininess", FloatValue (OBJECT_MATERIAL.shininess m));
    ("material.specularColor", Vec3Value (OBJECT_MATERIAL.specularColor m));
    ("material.diffuseColor", Vec3Value (OBJECT_MATERIAL.diffuseColor m));
    ("material.ambientStrength",
     FloatValue (OBJECT_MATERIAL.ambientStrength m));
    ("material.ambientColor", Vec3Value (OBJECT_MATERIAL.ambientColor m)) ].

(** The twelve updates of [SetupSceneLights], newest first. *)
Definition light_uniforms : ShaderManager :=
  [ ("lightSources[1].specularIntensity", FloatValue 0.1);
    ("lightSources[1].focalStrength", FloatValue 8);
    ("lightSources[1].specularColor", Vec3Value (vec3.mk 0.25 0.25 0.25));
    ("lightSources[1].diffuseColor", Vec3Value (vec3.mk 0.4 0.4 0.4));
    ("lightSources[1].position", Vec3Value (vec3.mk 5 15 6));
    ("lightSources[0].specularIntensity", FloatValue 0.15);
    ("lightSources[0].focalStrength", FloatValue 16);
    ("lightSources[0].specularColor", Vec3Value (vec3.mk 0.5 0.01 0.005));
    ("lightSources[0].diffuseColor", Vec3Value (vec3.mk 0.7 0.1 0.05));
    ("lightSources[0].position", Vec3Value (vec3.mk (-5) 5 10));
    ("globalAmbientColor", Vec3Value (vec3.mk 0.05 0.04 0.07));
    (g_UseLightingName, BoolValue true) ].

(** A scene with a shader manager and two materials. *)
Definition two_materials : World :=
  with_objectMaterials
    [ OBJECT_MATERIAL.mk (vec3.mk 1 1 1) 1 (vec3.mk 0 0 1) (vec3.mk 0 1 0) 8
                         "glass";
      steel zero_material ] loaded_scene.

(** The mesh calls of [PrepareScene], newest first. *)
Definition scene_meshes : list MeshCall :=
  [LoadCylinderMesh; LoadSphereMesh; LoadBoxMesh; LoadConeMesh; LoadPlaneMesh].

(** The shader manager was not replaced. *)
Definition same_shader (w w' : World) : Prop :=
  m_pShaderManager w' = m_pShaderManager w.

(** The uniforms the calls of [RenderScene] name. *)
Definition render_uniforms : list string :=
  [ g_ModelName; g_UseTextureName; g_ColorValueName; g_TextureValueName;
    "UVscale";
    "material.ambientColor"; "material.ambientStrength";
    "material.diffuseColor"; "material.specularColor";
    "material.shininess" ].

(** * Properties *)

Lemma compare_zero (a b : string) : (compare a b =? 0) = String.eqb a b.
Proof.
  unfold compare.
  destruct (String.compare a b) eqn:E.
  - apply String.compare_eq_iff in E. subst. now rewrite String.eqb_refl.
  - destruct (String.eqb a b) eqn:Q; [|reflexivity].
    apply String.eqb_eq in Q. subst.
    pose proof (String.compare_antisym b b) as A.
    rewrite E in A. discriminate A.
  - destruct (String.eqb a b) eqn:Q; [|reflexivity].
    apply String.eqb_eq in Q. subst.
    pose proof (String.compare_antisym b b) as A.
    rewrite E in A. discriminate A.
Qed.

(** ** The search loop *)

Section LinearSearch.
Context {A R : Type}.
Variable tag_of : A -> string.
Variable read : Z -> M A.
Variable hit : R -> Z -> A -> R.
Variable tag : string.
Variable w : World.
Variable n : Z.
Variable l : list A.

(** [l] is what [read] sees below index [n], and reading it leaves the
    state alone. *)
Hypothesis length_l : length l = Z.to_nat n.
Hypothesis read_l :
  forall i e, 0 <= i -> nth_error l (Z.to_nat i) = Some e ->
              read i w = Done (e, w).

(** Started at index [i] with nothing found, the loop stops at the first
    element tagged [tag] or at index [n], without running out of fuel. *)
Lemma search_run (rest : list A) :
  forall (fuel : nat) (i : Z) (r : R),
    0 <= i ->
    skipn (Z.to_nat i) l = rest ->
    (length rest <= fuel)%nat ->
    while fuel (search_cond n) (search_body tag_of read hit tag)
          (r, i, false) w
    = Done (match first_hit tag_of tag rest i with
            | Some (j, e) => (hit r j e, j, true)
            | None => (r, i + Z.of_nat (length rest), false)
            end, w).
Proof.
  induction rest as [|e rest IH]; intros fuel i r Hi Hskip Hfuel.
  - assert (L : (length l <= Z.to_nat i)%nat).
    { rewrite <- (firstn_skipn (Z.to_nat i) l), Hskip, app_nil_r.
      rewrite length_firstn. lia. }
    assert (C : (i <? n) = false) by (apply Z.ltb_ge; lia).
    destruct fuel; simpl; rewrite C; simpl; unfold ret;
      now rewrite Z.add_0_r.
  - assert (N : nth_error l (Z.to_nat i) = Some e).
    { rewrite <- (Nat.add_0_r (Z.to_nat i)), <- nth_error_skipn, Hskip.
      reflexivity. }
    assert (Hlt : (Z.to_nat i < length l)%nat)
      by (apply nth_error_Some; congruence).
    assert (C : (i <? n) = true) by (apply Z.ltb_lt; lia).
    destruct fuel as [|fuel]; [simpl in Hfuel; lia|].
    simpl. rewrite C. simpl.
    unfold bind at 1. unfold bind at 1.
    rewrite (read_l i e Hi N), compare_zero.
    destruct (String.eqb (tag_of e) tag).
    + unfold ret at 1.
      destruct fuel; simpl; rewrite andb_false_r; reflexivity.
    + unfold ret at 1.
      rewrite (IH fuel (i + 1) r).
      * destruct (first_hit tag_of tag rest (i + 1)) as [[j e']|];
          [reflexivity|].
        do 4 f_equal. rewrite Zpos_P_of_succ_nat. lia.
      * lia.
      * replace (Z.to_nat (i + 1)) with (1 + Z.to_nat i)%nat by lia.
        rewrite <- skipn_skipn, Hskip. reflexivity.
      * simpl in Hfuel. lia.
Qed.
End LinearSearch.

Lemma first_hit_none {A} (tag_of : A -> string) (tag : string) (l : list A)
  (i : Z) :
  ~ In tag (map tag_of l) -> first_hit tag_of tag l i = None.
Proof.
  revert i. induction l as [|e l IH]; intros i H; [reflexivity|].
  simpl in *.
  destruct (String.eqb (tag_of e) tag) eqn:Q.
  - apply String.eqb_eq in Q. tauto.
  - apply IH. tauto.
Qed.

Lemma first_hit_app {A} (tag_of : A -> string) (tag : string)
  (l1 l2 : list A) (e : A) (i : Z) :
  ~ In tag (map tag_of l1) -> tag_of e = tag ->
  first_hit tag_of tag (l1 ++ e :: l2)%list i
  = Some (i + Z.of_nat (length l1), e).
Proof.
  revert i. induction l1 as [|x l1 IH]; intros i H E.
  - simpl. rewrite E, String.eqb_refl. do 2 f_equal. lia.
  - simpl in H. cbn [app first_hit].
    destruct (String.eqb (tag_of x) tag) eqn:Q.
    + apply String.eqb_eq in Q. tauto.
    + rewrite IH by tauto. do 2 f_equal. cbn [length]. lia.
Qed.

(** ** Reading the texture array *)

Lemma length_loaded (w : World) :
  table_ok w -> length (loaded w) = Z.to_nat (m_loadedTextures w).
Proof.
  unfold table_ok, loaded. intro H. rewrite length_firstn. lia.
Qed.

Lemma nth_error_loaded (w : World) (k : nat) (e : TEXTURE_INFO.t) :
  nth_error (loaded w) k = Some e -> nth_error (m_textureIDs w) k = Some e.
Proof.
  unfold loaded. intro H. rewrite nth_error_firstn in H.
  destruct (Nat.ltb k (Z.to_nat (m_loadedTextures w))); [assumption|].
  discriminate.
Qed.

Lemma in_bounds_nth {A} (a : list A) (i : Z) :
  in_bounds a i = true ->
  0 <= i < Z.of_nat (length a) /\ exists e, nth_error a (Z.to_nat i) = Some e.
Proof.
  unfold in_bounds. intro H. apply andb_true_iff in H. destruct H as [H1 H2].
  apply Z.leb_le in H1. apply Z.ltb_lt in H2. split; [lia|].
  destruct (nth_error a (Z.to_nat i)) eqn:E; [eauto|].
  apply nth_error_None in E. lia.
Qed.

Lemma nth_in_bounds {A} (a : list A) (i : Z) (e : A) :
  0 <= i -> nth_error a (Z.to_nat i) = Some e -> in_bounds a i = true.
Proof.
  intros Hi H. unfold in_bounds.
  assert ((Z.to_nat i < length a)%nat) by (apply nth_error_Some; congruence).
  apply andb_true_iff. split; [apply Z.leb_le | apply Z.ltb_lt]; lia.
Qed.

Lemma in_bounds_false {A} (a : list A) (i : Z) :
  in_bounds a i = false -> i < 0 \/ Z.of_nat (length a) <= i.
Proof.
  unfold in_bounds. intro H. apply andb_false_iff in H. destruct H as [H|H].
  - apply Z.leb_gt in H. lia.
  - apply Z.ltb_ge in H. lia.
Qed.

Lemma textureIDs_at_run (w : World) (i : Z) (e : TEXTURE_INFO.t) :
  0 <= i -> nth_error (m_textureIDs w) (Z.to_nat i) = Some e ->
  textureIDs_at i w = Done (e, w).
Proof.
  intros Hi H. unfold textureIDs_at, bind, gets, ret.
  now rewrite (nth_in_bounds _ _ _ Hi H), H.
Qed.

Lemma objectMaterials_at_run (w : World) (i : Z) (e : OBJECT_MATERIAL.t) :
  0 <= i -> nth_error (m_objectMaterials w) (Z.to_nat i) = Some e ->
  objectMaterials_at i w = Done (e, w).
Proof.
  intros Hi H. unfold objectMaterials_at, bind, gets, ret.
  now rewrite (nth_in_bounds _ _ _ Hi H), H.
Qed.

Lemma loaded_fuel (w : World) :
  (length (loaded w) <= Z.to_nat (m_loadedTextures w))%nat.
Proof. unfold loaded. rewrite length_firstn. lia. Qed.

(** The slot lookup terminates without a fault and returns [slot_of]. *)
Lemma FindTextureSlot_run (w : World) (tag : string) :
  table_ok w -> FindTextureSlot tag w = Done (slot_of tag w, w).
Proof.
  intro Hok. unfold slot_of.
  change (FindTextureSlot tag w) with
    (bind (gets m_loadedTextures) (fun n =>
       bind (while (Z.to_nat n) (search_cond n)
                   (search_body TEXTURE_INFO.tag textureIDs_at
                                (fun _ i _ => i) tag)
                   (-1, 0, false))
            (fun locals => let '(textureSlot, _, _) := locals in
                           ret textureSlot)) w).
  unfold bind at 1. unfold gets at 1. cbv beta iota. unfold bind at 1.
  rewrite (search_run _ _ _ tag w (m_loadedTextures w) (loaded w)
             (length_loaded w Hok)
             (fun i e Hi H => textureIDs_at_run w i e Hi
                                (nth_error_loaded w _ e H))
             (loaded w));
    auto using loaded_fuel; [|lia].
  destruct (first_hit _ tag (loaded w) 0) as [[j e]|]; reflexivity.
Qed.

(** The handle lookup terminates without a fault and returns [id_of]. *)
Lemma FindTextureID_run (w : World) (tag : string) :
  table_ok w -> FindTextureID tag w = Done (id_of tag w, w).
Proof.
  intro Hok. unfold id_of.
  change (FindTextureID tag w) with
    (bind (gets m_loadedTextures) (fun n =>
       bind (while (Z.to_nat n) (search_cond n)
                   (search_body TEXTURE_INFO.tag textureIDs_at
                      (fun _ _ e => int_of_GLuint (TEXTURE_INFO.ID e)) tag)
                   (-1, 0, false))
            (fun locals => let '(textureID, _, _) := locals in
                           ret textureID)) w).
  unfold bind at 1. unfold gets at 1. cbv beta iota. unfold bind at 1.
  rewrite (search_run _ _ _ tag w (m_loadedTextures w) (loaded w)
             (length_loaded w Hok)
             (fun i e Hi H => textureIDs_at_run w i e Hi
                                (nth_error_loaded w _ e H))
             (loaded w));
    auto using loaded_fuel; [|lia].
  destruct (first_hit _ tag (loaded w) 0) as [[j e]|]; reflexivity.
Qed.

Lemma slot_of_miss (w : World) (tag : string) :
  ~ In tag (registered_tags w) -> slot_of tag w = -1.
Proof. intro H. unfold slot_of. now rewrite first_hit_none. Qed.

Lemma id_of_miss (w : World) (tag : string) :
  ~ In tag (registered_tags w) -> id_of tag w = -1.
Proof. intro H. unfold id_of. now rewrite first_hit_none. Qed.

(** [FindMaterial] terminates without a fault; its flag tells only
    whether the list is empty. *)
Lemma FindMaterial_run (w : World) (tag : string)
  (material : OBJECT_MATERIAL.t) :
  FindMaterial tag material w
  = Done ((negb (Z.of_nat (length (m_objectMaterials w)) =? 0),
           material_of tag material w), w).
Proof.
  unfold material_of.
  change (FindMaterial tag material w) with
    (bind (gets (fun w => Z.of_nat (length (m_objectMaterials w))))
       (fun size =>
          if size =? 0 then ret (false, material)
          else
            bind (while (Z.to_nat size) (search_cond size)
                    (search_body OBJECT_MATERIAL.tag objectMaterials_at
                       (fun m _ e => copy_properties e m) tag)
                    (material, 0, false))
                 (fun locals => let '(material, _, _) := locals in
                                ret (true, material))) w).
  unfold bind at 1. unfold gets at 1. cbv beta iota.
  destruct (Z.of_nat (length (m_objectMaterials w)) =? 0) eqn:E.
  - apply Z.eqb_eq in E.
    destruct (m_objectMaterials w); [reflexivity | simpl in E; lia].
  - unfold bind at 1.
    rewrite (search_run _ _ _ tag w
               (Z.of_nat (length (m_objectMaterials w)))
               (m_objectMaterials w)
               (eq_sym (Nat2Z.id _))
               (objectMaterials_at_run w)
               (m_objectMaterials w));
      [|lia|reflexivity|lia].
    destruct (first_hit _ tag (m_objectMaterials w) 0) as [[j e]|];
      reflexivity.
Qed.

(** ** Updating one entry of the array *)

Lemma length_update_nth {A} (n : nat) (f : A -> A) (a : list A) :
  length (update_nth n f a) = length a.
Proof.
  revert n. induction a as [|e a IH]; intros [|n]; simpl; auto.
Qed.

Lemma update_nth_twice {A} (n : nat) (f g : A -> A) (a : list A) :
  update_nth n g (update_nth n f a) = update_nth n (fun e => g (f e)) a.
Proof.
  revert n. induction a as [|e a IH]; intros [|n]; simpl; auto.
  now rewrite IH.
Qed.

Lemma nth_error_update_nth {A} (n k : nat) (f : A -> A) (a : list A) :
  nth_error (update_nth n f a) k
  = if Nat.eqb k n then option_map f (nth_error a k) else nth_error a k.
Proof.
  revert n k. induction a as [|e a IH]; intros [|n] [|k]; simpl; auto.
  now destruct (Nat.eqb k n).
Qed.

Lemma firstn_succ_update_nth {A} (n : nat) (f : A -> A) (a : list A) (e : A) :
  nth_error a n = Some e ->
  firstn (Datatypes.S n) (update_nth n f a) = (firstn n a ++ [f e])%list.
Proof.
  revert n. induction a as [|x a IH]; intros [|n] H; simpl in *;
    try discriminate.
  - injection H as ->. reflexivity.
  - f_equal. now apply IH.
Qed.

Lemma in_bounds_update_nth {A} (n : nat) (f : A -> A) (a : list A) (i : Z) :
  in_bounds (update_nth n f a) i = in_bounds a i.
Proof. unfold in_bounds. now rewrite length_update_nth. Qed.

(** ** Running [CreateGLTexture] *)

(** The image loads with 3 or 4 channels and index [m_loadedTextures] is
    inside the array: the entry is written there and the count grows. *)
Lemma CreateGLTexture_registers (w : World) (filename tag : string)
  (img : Image) :
  disk w filename = Some img -> supported img ->
  in_bounds (m_textureIDs w) (m_loadedTextures w) = true ->
  exists w',
    CreateGLTexture filename tag w = Done (true, w') /\
    m_loadedTextures w' = m_loadedTextures w + 1 /\
    m_textureIDs w'
    = update_nth (Z.to_nat (m_loadedTextures w))
                 (fun e => set_tag tag (set_ID (gl_next_name w) e))
                 (m_textureIDs w) /\
    gl_next_name w' = gl_next_name w + 1 /\
    live_textures (trace w') = gl_next_name w :: live_textures (trace w) /\
    same_rest w w'.
Proof.
  intros D C B. unfold CreateGLTexture, same_rest.
  destruct C as [C|C]; run; rewrite D; run; rewrite C; run; rewrite B; run;
    rewrite in_bounds_update_nth, B, update_nth_twice;
    eexists; (split; [reflexivity|]); simpl; repeat split; reflexivity.
Qed.

(** The image loads with 3 or 4 channels but index [m_loadedTextures] is
    outside the array: the store is out of bounds. *)
Lemma CreateGLTexture_overflow (w : World) (filename tag : string)
  (img : Image) :
  disk w filename = Some img -> supported img ->
  in_bounds (m_textureIDs w) (m_loadedTextures w) = false ->
  CreateGLTexture filename tag w = Fault (OutOfBounds (m_loadedTextures w)).
Proof.
  intros D C B. unfold CreateGLTexture.
  destruct C as [C|C]; run; rewrite D; run; rewrite C; run; rewrite B;
    reflexivity.
Qed.

(** The image loads with another channel count. *)
Lemma CreateGLTexture_unsupported (w : World) (filename tag : string)
  (img : Image) :
  disk w filename = Some img -> ~ supported img ->
  exists w',
    CreateGLTexture filename tag w = Done (false, w') /\
    same_table w w' /\ same_rest w w'.
Proof.
  intros D C. unfold supported in C.
  unfold CreateGLTexture, same_table, same_rest.
  run. rewrite D. run.
  destruct (colorChannels img =? 3) eqn:C3; [apply Z.eqb_eq in C3; tauto|].
  destruct (colorChannels img =? 4) eqn:C4; [apply Z.eqb_eq in C4; tauto|].
  eexists; (split; [reflexivity|]); simpl; repeat split; reflexivity.
Qed.

(** The image does not load. *)
Lemma CreateGLTexture_unreadable (w : World) (filename tag : string) :
  disk w filename = None ->
  exists w',
    CreateGLTexture filename tag w = Done (false, w') /\
    same_table w w' /\ same_rest w w'.
Proof.
  intros D. unfold CreateGLTexture, same_table, same_rest.
  run. rewrite D. run.
  eexists; (split; [reflexivity|]); simpl; repeat split; reflexivity.
Qed.

Lemma supported_dec (img : Image) : {supported img} + {~ supported img}.
Proof.
  unfold supported.
  destruct (Z.eq_dec (colorChannels img) 3); [left; tauto|].
  destruct (Z.eq_dec (colorChannels img) 4); [left; tauto|].
  right; tauto.
Qed.

(** What a call that returned [true] must have done. *)
Lemma CreateGLTexture_true (w w' : World) (filename tag : string) :
  CreateGLTexture filename tag w = Done (true, w') ->
  in_bounds (m_textureIDs w) (m_loadedTextures w) = true /\
  m_loadedTextures w' = m_loadedTextures w + 1 /\
  m_textureIDs w'
  = update_nth (Z.to_nat (m_loadedTextures w))
               (fun e => set_tag tag (set_ID (gl_next_name w) e))
               (m_textureIDs w) /\
  same_rest w w'.
Proof.
  intro H.
  destruct (disk w filename) as [img|] eqn:D.
  - destruct (supported_dec img) as [C|C].
    + destruct (in_bounds (m_textureIDs w) (m_loadedTextures w)) eqn:B.
      * destruct (CreateGLTexture_registers w filename tag img D C B)
          as (w1 & E & P1 & P2 & _ & _ & P3).
        rewrite E in H. injection H as <-. auto.
      * rewrite (CreateGLTexture_overflow w filename tag img D C B) in H.
        discriminate.
    + destruct (CreateGLTexture_unsupported w filename tag img D C)
        as (w1 & E & _). rewrite E in H. discriminate.
  - destruct (CreateGLTexture_unreadable w filename tag D) as (w1 & E & _).
    rewrite E in H. discriminate.
Qed.

(** After a registration the scanned entries are the old ones followed by
    the new one. *)
Lemma loaded_after_register (w w' : World) (name : Z) (tag : string) :
  in_bounds (m_textureIDs w) (m_loadedTextures w) = true ->
  m_loadedTextures w' = m_loadedTextures w + 1 ->
  m_textureIDs w'
  = update_nth (Z.to_nat (m_loadedTextures w))
               (fun e => set_tag tag (set_ID name e)) (m_textureIDs w) ->
  loaded w' = (loaded w ++ [TEXTURE_INFO.mk name tag])%list /\ table_ok w'.
Proof.
  intros B N T. destruct (in_bounds_nth _ _ B) as (R & e & E).
  unfold loaded, table_ok. rewrite N, T, length_update_nth. split; [|lia].
  replace (Z.to_nat (m_loadedTextures w + 1))
    with (Datatypes.S (Z.to_nat (m_loadedTextures w))) by lia.
  now rewrite (firstn_succ_update_nth _ _ _ e E).
Qed.

Lemma same_table_loaded (w w' : World) :
  same_table w w' -> loaded w' = loaded w /\ (table_ok w -> table_ok w').
Proof.
  intros [N T]. unfold loaded, table_ok. rewrite N, T. auto.
Qed.

(** ** Material lookup *)

(** C1.  [FindMaterial(tag, material)] returns [false] when the material
    list is empty and [true] whenever it is not, for every tag: the flag is
    a function of the emptiness of the list alone, so it is the same
    whether or not an entry carries the tag.  (The reference parameter is
    left as [material_of] says: overwritten from the first match, untouched
    without one.) *)
Theorem FindMaterial_flag (w : World) (tag : string)
  (material : OBJECT_MATERIAL.t) :
  FindMaterial tag material w
  = Done ((match m_objectMaterials w with [] => false | _ :: _ => true end,
           material_of tag material w), w).
Proof.
  rewrite FindMaterial_run. now destruct (m_objectMaterials w).
Qed.

(** With a non-empty list and no entry under the tag the flag is [true]
    and the reference parameter is returned as it came. *)
Lemma FindMaterial_not_found (w : World) (tag : string)
  (material : OBJECT_MATERIAL.t) :
  m_objectMaterials w <> [] ->
  ~ In tag (map OBJECT_MATERIAL.tag (m_objectMaterials w)) ->
  FindMaterial tag material w = Done ((true, material), w).
Proof.
  intros NE Miss. rewrite FindMaterial_run. unfold material_of.
  rewrite first_hit_none by assumption.
  destruct (m_objectMaterials w); [congruence | reflexivity].
Qed.

(** ** Registration and lookup *)

Lemma int_of_GLuint_small (u : Z) :
  0 <= u < 2 ^ 31 -> int_of_GLuint u = u.
Proof.
  intro H. unfold int_of_GLuint.
  rewrite Z.mod_small by lia.
  destruct (Z.ltb_spec u (2 ^ 31)); lia.
Qed.

Lemma first_hit_nodup {A} (tag_of : A -> string) (tag : string) (l : list A) :
  NoDup (map tag_of l) ->
  forall (k : nat) (i : Z),
    nth_error (map tag_of l) k = Some tag ->
    exists e, first_hit tag_of tag l i = Some (i + Z.of_nat k, e).
Proof.
  induction l as [|x l IH]; intros ND k i H.
  - destruct k; discriminate.
  - simpl in ND. inversion ND as [|? ? Hx ND']; subst.
    destruct k as [|k]; simpl in H.
    + injection H as H. exists x. simpl.
      rewrite H, String.eqb_refl. do 2 f_equal. lia.
    + simpl. destruct (String.eqb (tag_of x) tag) eqn:Q.
      * apply String.eqb_eq in Q. apply nth_error_In in H. congruence.
      * destruct (IH ND' k (i + 1) H) as [e E]. exists e. rewrite E.
        do 2 f_equal. lia.
Qed.

(** A run of registrations that all returned [true] appended one entry
    per call, in call order. *)
Lemma register_all_true (calls : list (string * string)) :
  forall (w w' : World) (results : list bool),
    table_ok w ->
    register_all calls w = Done (results, w') ->
    Forall (eq true) results ->
    table_ok w' /\
    exists entries,
      loaded w' = (loaded w ++ entries)%list /\
      map TEXTURE_INFO.tag entries = map snd calls.
Proof.
  induction calls as [|[filename tag] calls IH]; intros w w' results Hok H Hall.
  - injection H as <- <-. split; [assumption|].
    exists []. now rewrite app_nil_r.
  - cbn [register_all] in H. unfold bind at 1 in H.
    destruct (CreateGLTexture filename tag w) as [[b w1]|] eqn:E1;
      [|discriminate].
    unfold bind at 1 in H.
    destruct (register_all calls w1) as [[bs w2]|] eqn:E2; [|discriminate].
    injection H as <- <-. inversion Hall as [|? ? Hb Hbs]; subst.
    destruct (CreateGLTexture_true _ _ _ _ E1) as (B & N & T & _).
    destruct (loaded_after_register _ _ _ _ B N T) as [L Hok1].
    destruct (IH w1 w2 bs Hok1 E2 Hbs) as (Hok2 & entries & L2 & M2).
    split; [assumption|].
    exists (TEXTURE_INFO.mk (gl_next_name w) tag :: entries).
    rewrite L2, L, <- app_assoc. simpl. now rewrite M2.
Qed.

(** C7 (amended).  When the image loads with 3 or 4 channels, index
    [m_loadedTextures] is inside the array, the tag is not registered yet
    and the generated handle is below 2^31, [CreateGLTexture] returns
    [true] and appends the entry {handle, tag}; afterwards
    [FindTextureID(tag)] returns that handle and [FindTextureSlot(tag)]
    returns the slot of the entry, neither being -1. *)
Theorem CreateGLTexture_then_lookup (w : World) (filename tag : string)
  (img : Image) :
  disk w filename = Some img -> supported img ->
  in_bounds (m_textureIDs w) (m_loadedTextures w) = true ->
  ~ In tag (registered_tags w) ->
  0 <= gl_next_name w < 2 ^ 31 ->
  exists w',
    CreateGLTexture filename tag w = Done (true, w') /\
    m_loadedTextures w' = m_loadedTextures w + 1 /\
    loaded w' = (loaded w ++ [TEXTURE_INFO.mk (gl_next_name w) tag])%list /\
    FindTextureID tag w' = Done (gl_next_name w, w') /\
    gl_next_name w <> -1 /\
    FindTextureSlot tag w' = Done (m_loadedTextures w, w') /\
    m_loadedTextures w <> -1.
Proof.
  intros D C B Fresh Small.
  destruct (CreateGLTexture_registers w filename tag img D C B)
    as (w' & E & N & T & _).
  destruct (loaded_after_register _ _ _ _ B N T) as [L Hok'].
  destruct (in_bounds_nth _ _ B) as (Rg & _).
  assert (Hok : table_ok w) by (unfold table_ok; lia).
  assert (Hit : first_hit TEXTURE_INFO.tag tag (loaded w') 0
                = Some (m_loadedTextures w,
                        TEXTURE_INFO.mk (gl_next_name w) tag)).
  { rewrite L, first_hit_app by (assumption || reflexivity).
    rewrite length_loaded by assumption. do 2 f_equal. lia. }
  exists w'. repeat split; try assumption; try lia.
  - rewrite FindTextureID_run by assumption. unfold id_of. rewrite Hit.
    simpl. now rewrite int_of_GLuint_small.
  - rewrite FindTextureSlot_run by assumption. unfold slot_of.
    now rewrite Hit.
Qed.

Lemma CreateGLTexture_then_lookup_witness :
  (disk loaded_scene "textures/icon.png" = Some (mkImage 2 2 4) /\
   supported (mkImage 2 2 4) /\
   in_bounds (m_textureIDs loaded_scene) (m_loadedTextures loaded_scene)
   = true /\
   ~ In "icon" (registered_tags loaded_scene) /\
   0 <= gl_next_name loaded_scene < 2 ^ 31) /\
  exists w',
    CreateGLTexture "textures/icon.png" "icon" loaded_scene = Done (true, w') /\
    m_loadedTextures w' = 7 + 1 /\
    loaded w' = (loaded loaded_scene ++ [TEXTURE_INFO.mk 8 "icon"])%list /\
    FindTextureID "icon" w' = Done (8, w') /\
    8 <> -1 /\
    FindTextureSlot "icon" w' = Done (7, w') /\
    7 <> -1.
Proof.
  assert (D : disk loaded_scene "textures/icon.png" = Some (mkImage 2 2 4))
    by reflexivity.
  assert (C : supported (mkImage 2 2 4)) by (right; reflexivity).
  assert (B : in_bounds (m_textureIDs loaded_scene)
                        (m_loadedTextures loaded_scene) = true)
    by reflexivity.
  assert (F : ~ In "icon" (registered_tags loaded_scene))
    by (vm_compute; intuition discriminate).
  assert (S : 0 <= gl_next_name loaded_scene < 2 ^ 31).
  { replace (gl_next_name loaded_scene) with 8 by (vm_compute; reflexivity).
    lia. }
  exact (conj (conj D (conj C (conj B (conj F S))))
              (CreateGLTexture_then_lookup loaded_scene "textures/icon.png"
                 "icon" (mkImage 2 2 4) D C B F S)).
Defined.

(** C7, as stated, fails when the tag is already registered: "sand" is at
    slot 6 with handle 7; a second registration under "sand" returns
    [true] and writes {8, "sand"} at slot 7, and the lookups still return
    handle 7 and slot 6. *)
Lemma duplicate_tag_finds_first :
  CreateGLTexture "textures/sand.jpg" "sand" loaded_scene
  = Done (true, sand_twice) /\
  m_loadedTextures sand_twice = 8 /\
  nth_error (m_textureIDs sand_twice) 7 = Some (TEXTURE_INFO.mk 8 "sand") /\
  FindTextureID "sand" sand_twice = Done (7, sand_twice) /\
  FindTextureSlot "sand" sand_twice = Done (6, sand_twice).
Proof. vm_compute. repeat split; reflexivity. Qed.

(** A rejected image leaves both lookups as they were, for every tag. *)
Lemma unsupported_keeps_lookups (w : World) (filename tag : string)
  (img : Image) :
  disk w filename = Some img -> ~ supported img -> table_ok w ->
  exists w',
    CreateGLTexture filename tag w = Done (false, w') /\
    same_table w w' /\
    forall t, FindTextureID t w' = Done (id_of t w, w') /\
              FindTextureSlot t w' = Done (slot_of t w, w').
Proof.
  intros D C Hok.
  destruct (CreateGLTexture_unsupported w filename tag img D C)
    as (w' & E & ST & _).
  destruct (same_table_loaded _ _ ST) as [L Hok'].
  exists w'. repeat split; try assumption; try apply ST.
  - rewrite FindTextureID_run by auto. unfold id_of. now rewrite L.
  - rewrite FindTextureSlot_run by auto. unfold slot_of. now rewrite L.
Qed.

(** C8 (amended).  When the image loads with a channel count other than 3
    and 4, [CreateGLTexture] returns [false] and leaves the texture array
    and its count as they were, whatever the tag and whatever the state of
    the table; and if the tag was not registered before the call,
    [FindTextureID] and [FindTextureSlot] return -1 for it afterwards
    (the lookups read the array up to the count, which is then taken not
    to exceed it). *)
Theorem CreateGLTexture_unsupported_lookup (w : World)
  (filename tag : string) (img : Image) :
  disk w filename = Some img -> ~ supported img ->
  exists w',
    CreateGLTexture filename tag w = Done (false, w') /\
    m_loadedTextures w' = m_loadedTextures w /\
    m_textureIDs w' = m_textureIDs w /\
    (table_ok w -> ~ In tag (registered_tags w) ->
     FindTextureID tag w' = Done (-1, w') /\
     FindTextureSlot tag w' = Done (-1, w')).
Proof.
  intros D C.
  destruct (CreateGLTexture_unsupported w filename tag img D C)
    as (w' & E & ST & _).
  exists w'. split; [exact E|].
  destruct ST as [N T]. split; [exact N|]. split; [exact T|].
  intros Hok Miss.
  destruct (unsupported_keeps_lookups w filename tag img D C Hok)
    as (w2 & E2 & _ & Look).
  rewrite E in E2. inversion E2; subst w2.
  destruct (Look tag) as [LI LS].
  rewrite id_of_miss in LI by assumption.
  rewrite slot_of_miss in LS by assumption. auto.
Qed.

Lemma CreateGLTexture_unsupported_lookup_witness :
  (disk loaded_scene "textures/gray.png" = Some (mkImage 2 2 1) /\
   ~ supported (mkImage 2 2 1) /\
   table_ok loaded_scene /\
   ~ In "gray" (registered_tags loaded_scene)) /\
  exists w',
    CreateGLTexture "textures/gray.png" "gray" loaded_scene
    = Done (false, w') /\
    m_loadedTextures w' = m_loadedTextures loaded_scene /\
    m_textureIDs w' = m_textureIDs loaded_scene /\
    (table_ok loaded_scene -> ~ In "gray" (registered_tags loaded_scene) ->
     FindTextureID "gray" w' = Done (-1, w') /\
     FindTextureSlot "gray" w' = Done (-1, w')).
Proof.
  assert (D : disk loaded_scene "textures/gray.png" = Some (mkImage 2 2 1))
    by reflexivity.
  assert (C : ~ supported (mkImage 2 2 1))
    by (unfold supported; simpl; intros [H|H]; discriminate H).
  assert (T : table_ok loaded_scene) by (vm_compute; intro H; discriminate H).
  assert (F : ~ In "gray" (registered_tags loaded_scene))
    by (vm_compute; intuition discriminate).
  exact (conj (conj D (conj C (conj T F)))
              (CreateGLTexture_unsupported_lookup loaded_scene
                 "textures/gray.png" "gray" (mkImage 2 2 1) D C)).
Defined.

(** C8, as stated, fails when the tag is already registered: offering a
    one-channel image under "sand" returns [false] and changes nothing in
    the table, and the lookups for "sand" return handle 7 and slot 6, not
    -1. *)
Lemma rejected_image_tag_still_found :
  CreateGLTexture "textures/gray.png" "sand" loaded_scene
  = Done (false, sand_gray) /\
  m_loadedTextures sand_gray = m_loadedTextures loaded_scene /\
  m_textureIDs sand_gray = m_textureIDs loaded_scene /\
  FindTextureID "sand" sand_gray = Done (7, sand_gray) /\
  FindTextureSlot "sand" sand_gray = Done (6, sand_gray).
Proof. vm_compute. repeat split; reflexivity. Qed.

(** C9.  After a run of N registrations that all returned [true], started
    with no texture loaded and made under pairwise distinct tags,
    [FindTextureSlot] of the tag of call number k (counted from 0) returns
    k: slots are given out in registration order. *)
Theorem FindTextureSlot_registration_order (w w' : World)
  (calls : list (string * string)) (results : list bool)
  (k : nat) (tag : string) :
  m_loadedTextures w = 0 ->
  NoDup (map snd calls) ->
  register_all calls w = Done (results, w') ->
  Forall (eq true) results ->
  nth_error (map snd calls) k = Some tag ->
  FindTextureSlot tag w' = Done (Z.of_nat k, w').
Proof.
  intros Empty ND Run Hall Hk.
  assert (Hok : table_ok w) by (unfold table_ok; lia).
  destruct (register_all_true calls w w' results Hok Run Hall)
    as (Hok' & entries & L & Tags).
  assert (L0 : loaded w = []) by (unfold loaded; now rewrite Empty).
  rewrite L0 in L. simpl in L.
  rewrite FindTextureSlot_run by assumption. unfold slot_of. rewrite L.
  rewrite <- Tags in ND, Hk.
  destruct (first_hit_nodup TEXTURE_INFO.tag tag entries ND k 0 Hk)
    as [e E].
  rewrite E. reflexivity.
Qed.

Lemma FindTextureSlot_registration_order_witness :
  (m_loadedTextures (new_SceneManager (Some []) textures_dir) = 0 /\
   NoDup (map snd (firstn 16 seventeen)) /\
   register_all (firstn 16 seventeen)
                (new_SceneManager (Some []) textures_dir)
   = Done (repeat true 16, full_scene) /\
   Forall (eq true) (repeat true 16) /\
   nth_error (map snd (firstn 16 seventeen)) 4 = Some "pyramid") /\
  FindTextureSlot "pyramid" full_scene = Done (4, full_scene).
Proof.
  assert (E : m_loadedTextures (new_SceneManager (Some []) textures_dir) = 0)
    by reflexivity.
  assert (N : NoDup (map snd (firstn 16 seventeen)))
    by (vm_compute; repeat constructor; simpl; intuition discriminate).
  assert (R : register_all (firstn 16 seventeen)
                (new_SceneManager (Some []) textures_dir)
              = Done (repeat true 16, full_scene))
    by (vm_compute; reflexivity).
  assert (A : Forall (eq true) (repeat true 16))
    by (vm_compute; repeat constructor).
  assert (K : nth_error (map snd (firstn 16 seventeen)) 4 = Some "pyramid")
    by reflexivity.
  exact (conj (conj E (conj N (conj R (conj A K))))
              (FindTextureSlot_registration_order
                 (new_SceneManager (Some []) textures_dir) full_scene
                 (firstn 16 seventeen) (repeat true 16) 4 "pyramid"
                 E N R A K)).
Defined.

(** The run of a scene that stays within the array does return [true]
    throughout: the seven registrations of [LoadSceneTextures]. *)
Example seven_registrations :
  register_all (firstn 7 seventeen) (new_SceneManager (Some []) textures_dir)
  = Done (repeat true 7,
          after (register_all (firstn 7 seventeen))
                (new_SceneManager (Some []) textures_dir)).
Proof. vm_compute. reflexivity. Qed.

(** The conversion to [int] in [FindTextureID]: a handle of 2^32 - 1 is
    registered, and the lookup returns -1 for its tag. *)
Example handle_above_int_range :
  let w := with_gl 4294967295 [] loaded_scene in
  let w' := after (CreateGLTexture "textures/icon.png" "icon") w in
  CreateGLTexture "textures/icon.png" "icon" w = Done (true, w') /\
  nth_error (m_textureIDs w') 7 = Some (TEXTURE_INFO.mk 4294967295 "icon") /\
  FindTextureID "icon" w' = Done (-1, w') /\
  FindTextureSlot "icon" w' = Done (7, w').
Proof. vm_compute. repeat split; reflexivity. Qed.

(** ** Colour and texture selection *)

Lemma SetShaderColor_run (w : World) (sh : ShaderManager) (r g b a : R) :
  m_pShaderManager w = Some sh ->
  SetShaderColor r g b a w
  = Done (tt, with_shader
                (Some ((g_ColorValueName, Vec4Value (vec4.mk r g b a))
                         :: (g_UseTextureName, IntValue 0) :: sh)) w).
Proof.
  intro H. unfold SetShaderColor. run. repeat (rewrite H; run). reflexivity.
Qed.

Lemma SetShaderTexture_run (w : World) (sh : ShaderManager) (tag : string) :
  m_pShaderManager w = Some sh -> table_ok w ->
  SetShaderTexture tag w
  = Done (tt, with_shader
                (Some ((g_TextureValueName, Sampler2DValue (slot_of tag w))
                         :: (g_UseTextureName, IntValue 1) :: sh)) w).
Proof.
  intros H Hok. unfold SetShaderTexture. run. repeat (rewrite H; run).
  rewrite FindTextureSlot_run by exact Hok. reflexivity.
Qed.

(** C10.  With the shader manager set and the tag not registered,
    [SetShaderTexture] completes, and what it does to the state is exactly
    two uniform updates: [bUseTexture] is set to 1 (true) and the sampler
    [objectTexture] is set to -1.  (The count is assumed not to exceed the
    array.) *)
Theorem SetShaderTexture_unregistered (w : World) (sh : ShaderManager)
  (tag : string) :
  m_pShaderManager w = Some sh -> table_ok w ->
  ~ In tag (registered_tags w) ->
  SetShaderTexture tag w
  = Done (tt, with_shader
                (Some ((g_TextureValueName, Sampler2DValue (-1))
                         :: (g_UseTextureName, IntValue 1) :: sh)) w).
Proof.
  intros H Hok Miss.
  rewrite (SetShaderTexture_run w sh tag H Hok).
  now rewrite slot_of_miss.
Qed.

Lemma SetShaderTexture_unregistered_witness :
  (m_pShaderManager loaded_scene = Some [] /\
   table_ok loaded_scene /\
   ~ In "marble" (registered_tags loaded_scene)) /\
  SetShaderTexture "marble" loaded_scene
  = Done (tt, with_shader
                (Some [(g_TextureValueName, Sampler2DValue (-1));
                       (g_UseTextureName, IntValue 1)]) loaded_scene).
Proof.
  assert (P : m_pShaderManager loaded_scene = Some []) by reflexivity.
  assert (T : table_ok loaded_scene) by (vm_compute; intro H; discriminate H).
  assert (F : ~ In "marble" (registered_tags loaded_scene))
    by (vm_compute; intuition discriminate).
  exact (conj (conj P (conj T F))
              (SetShaderTexture_unregistered loaded_scene [] "marble" P T F)).
Defined.

Lemma set_appearance_run (c : appearance) (w : World) (sh : ShaderManager) :
  m_pShaderManager w = Some sh -> table_ok w ->
  exists sh',
    set_appearance c w = Done (tt, with_shader (Some sh') w) /\
    uniform g_UseTextureName sh' = Some (IntValue (texture_flag c)).
Proof.
  intros H Hok. destruct c as [r g b a|tag]; simpl.
  - rewrite (SetShaderColor_run w sh r g b a H). eexists. split; reflexivity.
  - rewrite (SetShaderTexture_run w sh tag H Hok).
    eexists. split; reflexivity.
Qed.

(** C6.  With the shader manager set, after any sequence of
    [SetShaderColor] and [SetShaderTexture] calls the uniform
    [bUseTexture] holds 0 (false) if the last call was [SetShaderColor] and
    1 (true) if it was [SetShaderTexture]; with an empty [calls] this is
    what each call does by itself.  (The count is assumed not to exceed the
    array, so that the slot lookup of [SetShaderTexture] stays inside
    it.) *)
Theorem bUseTexture_follows_last_call (calls : list appearance)
  (c : appearance) :
  forall (w : World) (sh : ShaderManager),
    m_pShaderManager w = Some sh -> table_ok w ->
    exists sh',
      set_appearances (calls ++ [c])%list w
      = Done (tt, with_shader (Some sh') w) /\
      uniform g_UseTextureName sh' = Some (IntValue (texture_flag c)).
Proof.
  induction calls as [|x calls IH]; intros w sh H Hok.
  - destruct (set_appearance_run c w sh H Hok) as (sh' & E & U).
    exists sh'. split; [|assumption].
    simpl. unfold bind. rewrite E. reflexivity.
  - destruct (set_appearance_run x w sh H Hok) as (sh1 & E & _).
    destruct (IH (with_shader (Some sh1) w) sh1 eq_refl Hok)
      as (sh' & E' & U).
    exists sh'. split; [|assumption].
    cbn [app set_appearances]. unfold bind at 1. rewrite E, E'. reflexivity.
Qed.

Lemma bUseTexture_follows_last_call_witness :
  (m_pShaderManager loaded_scene = Some [] /\ table_ok loaded_scene) /\
  exists sh',
    set_appearances ([Color 1 0 0 1; Texture "sand"] ++ [Color 0 1 0 1])%list
                    loaded_scene
    = Done (tt, with_shader (Some sh') loaded_scene) /\
    uniform g_UseTextureName sh' = Some (IntValue 0).
Proof.
  assert (P : m_pShaderManager loaded_scene = Some []) by reflexivity.
  assert (T : table_ok loaded_scene) by (vm_compute; intro H; discriminate H).
  exact (conj (conj P T)
              (bUseTexture_follows_last_call
                 [Color 1 0 0 1; Texture "sand"] (Color 0 1 0 1)
                 loaded_scene [] P T)).
Defined.

(** ** An unset shader manager *)

Lemma SetTransformations_null (w : World) (scaleXYZ positionXYZ : vec3.t)
  (Xdeg Ydeg Zdeg : R) :
  m_pShaderManager w = None ->
  SetTransformations scaleXYZ Xdeg Ydeg Zdeg positionXYZ w = Done (tt, w).
Proof. intro H. unfold SetTransformations. run. now rewrite H. Qed.

Lemma SetShaderColor_null (w : World) (r g b a : R) :
  m_pShaderManager w = None -> SetShaderColor r g b a w = Done (tt, w).
Proof. intro H. unfold SetShaderColor. run. now rewrite H. Qed.

Lemma SetShaderTexture_null (w : World) (tag : string) :
  m_pShaderManager w = None -> SetShaderTexture tag w = Done (tt, w).
Proof. intro H. unfold SetShaderTexture. run. now rewrite H. Qed.

Lemma SetTextureUVScale_null (w : World) (u v : R) :
  m_pShaderManager w = None -> SetTextureUVScale u v w = Done (tt, w).
Proof. intro H. unfold SetTextureUVScale. run. now rewrite H. Qed.

(** [SetShaderMaterial] has no test of the pointer: with a material
    defined it calls through it. *)
Lemma SetShaderMaterial_null (w : World) (tag : string)
  (uninitialised : OBJECT_MATERIAL.t) :
  m_pShaderManager w = None ->
  SetShaderMaterial tag uninitialised w
  = match m_objectMaterials w with
    | [] => Done (tt, w)
    | _ :: _ => Fault NullPointer
    end.
Proof.
  intro H. unfold SetShaderMaterial.
  unfold bind at 1. unfold gets at 1. cbv beta iota.
  destruct (m_objectMaterials w) as [|m l] eqn:E; [reflexivity|].
  replace (0 <? Z.of_nat (length (m :: l))) with true
    by (symmetry; apply Z.ltb_lt; simpl; lia).
  unfold bind at 1. rewrite FindMaterial_run, E.
  replace (Z.of_nat (length (m :: l)) =? 0) with false
    by (symmetry; apply Z.eqb_neq; simpl; lia).
  run. now rewrite H.
Qed.

(** C3.  The claim fails for [SetShaderMaterial]: on a scene manager
    constructed with a null shader manager and holding the "steel"
    material, the four helpers that test the pointer return with the state
    unchanged, and [SetShaderMaterial("steel")] calls through the null
    pointer. *)
Theorem SetShaderMaterial_unset_shader_faults :
  SetTransformations (vec3.mk 1 1 1) 0 0 0 (vec3.mk 0 0 0) unset_shader_scene
  = Done (tt, unset_shader_scene) /\
  SetShaderColor 1 1 1 1 unset_shader_scene = Done (tt, unset_shader_scene) /\
  SetShaderTexture "sand" unset_shader_scene = Done (tt, unset_shader_scene) /\
  SetTextureUVScale 1 1 unset_shader_scene = Done (tt, unset_shader_scene) /\
  SetShaderMaterial "steel" zero_material unset_shader_scene
  = Fault NullPointer.
Proof.
  split; [now apply SetTransformations_null|].
  split; [now apply SetShaderColor_null|].
  split; [now apply SetShaderTexture_null|].
  split; [now apply SetTextureUVScale_null|].
  now rewrite SetShaderMaterial_null.
Qed.

(** ** Capacity of the texture array *)

(** C4.  The claim fails on the seventeenth registration: on a scene
    manager whose array has 16 entries, sixteen registrations return
    [true] and fill slots 0..15; the next call, with an image that loads
    with 3 channels, stores at index 16, outside the array. *)
Theorem seventeenth_registration_out_of_bounds :
  length (m_textureIDs (new_SceneManager (Some []) textures_dir)) = 16%nat /\
  register_all (firstn 16 seventeen) (new_SceneManager (Some []) textures_dir)
  = Done (repeat true 16, full_scene) /\
  m_loadedTextures full_scene = 16 /\
  CreateGLTexture "textures/t17.jpg" "t17" full_scene
  = Fault (OutOfBounds 16) /\
  register_all seventeen (new_SceneManager (Some []) textures_dir)
  = Fault (OutOfBounds 16).
Proof. vm_compute. repeat split; reflexivity. Qed.

(** A registration stays inside the array exactly when the count is below
    its size. *)
Lemma CreateGLTexture_in_bounds_iff (w : World) (filename tag : string)
  (img : Image) :
  disk w filename = Some img -> supported img ->
  0 <= m_loadedTextures w ->
  (exists w', CreateGLTexture filename tag w = Done (true, w')) <->
  m_loadedTextures w < Z.of_nat (length (m_textureIDs w)).
Proof.
  intros D C Pos. split.
  - intros [w' E]. destruct (CreateGLTexture_true _ _ _ _ E) as (B & _).
    apply in_bounds_nth in B. lia.
  - intro Lt.
    assert (B : in_bounds (m_textureIDs w) (m_loadedTextures w) = true).
    { unfold in_bounds. apply andb_true_iff.
      split; [apply Z.leb_le | apply Z.ltb_lt]; lia. }
    destruct (CreateGLTexture_registers w filename tag img D C B)
      as (w' & E & _).
    eauto.
Qed.

(** ** Teardown *)

Lemma generate_calls_succ (name : Z) (count : nat) :
  generate_calls name (Datatypes.S count)
  = (generate_calls (name + 1) count ++ [glGenTextures name])%list.
Proof.
  unfold generate_calls. rewrite <- cons_seq, <- seq_shift, map_cons, map_map.
  cbn [rev]. rewrite Z.add_0_r. do 2 f_equal.
  apply map_ext. intro k. f_equal. lia.
Qed.

Lemma generate_calls_are_generate (name : Z) (count : nat) :
  Forall is_generate (generate_calls name count).
Proof.
  unfold generate_calls. apply Forall_rev, Forall_map, Forall_forall.
  intros k _. exact I.
Qed.

(** Calls to [glGenTextures] remove no texture name from the context. *)
Lemma live_textures_kept (new old : list Event) (x : Z) :
  Forall is_generate new ->
  In x (live_textures old) -> In x (live_textures (new ++ old)).
Proof.
  induction 1 as [|e new He _ IH]; intro Hx; [assumption|].
  destruct e; try contradiction. simpl. right. now apply IH.
Qed.

Lemma nth_error_regenerate (count : nat) :
  forall (i : nat) (name : Z) (a : list TEXTURE_INFO.t) (k : nat),
    nth_error (regenerate count i name a) k
    = if Nat.leb i k && Nat.ltb k (i + count)
      then option_map (set_ID (name + Z.of_nat (k - i))) (nth_error a k)
      else nth_error a k.
Proof.
  induction count as [|c IH]; intros i name a k; cbn [regenerate].
  - replace (Nat.ltb k (i + 0)) with (negb (Nat.leb i k)).
    + now destruct (Nat.leb i k).
    + destruct (Nat.leb_spec i k), (Nat.ltb_spec k (i + 0)); simpl;
        reflexivity || lia.
  - rewrite IH, nth_error_update_nth.
    destruct (Nat.leb_spec (Datatypes.S i) k), (Nat.leb_spec i k),
      (Nat.ltb_spec k (Datatypes.S i + c)), (Nat.ltb_spec k (i + Datatypes.S c)),
      (Nat.eqb_spec k i); simpl; try lia; try reflexivity.
    + replace (name + 1 + Z.of_nat (k - Datatypes.S i))
        with (name + Z.of_nat (k - i)) by lia.
      reflexivity.
    + subst k. replace (i - i)%nat with 0%nat by lia.
      now rewrite Z.add_0_r.
Qed.

Lemma length_regenerate (count : nat) :
  forall (i : nat) (name : Z) (a : list TEXTURE_INFO.t),
    length (regenerate count i name a) = length a.
Proof.
  induction count as [|c IH]; intros i name a; cbn [regenerate];
    [reflexivity|].
  now rewrite IH, length_update_nth.
Qed.

(** The loop of [DestroyGLTextures], from index [i], inside the array. *)
Lemma destroy_loop_run (count : nat) :
  forall (i : nat) (w : World),
    (i + count <= length (m_textureIDs w))%nat ->
    for_loop count (Z.of_nat i)
      (fun i => _ <- textureIDs_at i ;;
                name <- gen_texture ;;
                textureIDs_store i (set_ID name)) w
    = Done (tt,
            with_gl (gl_next_name w + Z.of_nat count)
                    (generate_calls (gl_next_name w) count ++ trace w)
                    (with_textureIDs
                       (regenerate count i (gl_next_name w) (m_textureIDs w))
                       w)).
Proof.
  induction count as [|c IH]; intros i w Hlen.
  - simpl. unfold ret, with_gl, with_textureIDs. rewrite Z.add_0_r.
    now destruct w.
  - cbn [for_loop].
    assert (B : in_bounds (m_textureIDs w) (Z.of_nat i) = true).
    { unfold in_bounds. apply andb_true_iff.
      split; [apply Z.leb_le | apply Z.ltb_lt]; lia. }
    destruct (in_bounds_nth _ _ B) as (_ & e & E).
    unfold bind at 1. unfold bind at 1.
    rewrite (textureIDs_at_run w (Z.of_nat i) e (Nat2Z.is_nonneg i) E).
    run. rewrite B. run.
    replace (Z.of_nat i + 1) with (Z.of_nat (Datatypes.S i)) by lia.
    rewrite IH by (simpl; rewrite length_update_nth; lia).
    rewrite Nat2Z.id, generate_calls_succ, <- app_assoc.
    unfold with_gl, with_textureIDs. simpl.
    do 3 f_equal. lia.
Qed.

(** C2.  In a state with N loaded textures (N within the array),
    [DestroyGLTextures] completes; the calls it adds to the trace are N
    calls of [glGenTextures] and nothing else, so no [glDeleteTextures];
    each of the first N entries has its handle overwritten by the name its
    call generated and keeps its tag; and every texture name that existed
    in the context before still exists after. *)
Theorem DestroyGLTextures_generates (w : World) :
  table_ok w ->
  let N := Z.to_nat (m_loadedTextures w) in
  exists w',
    DestroyGLTextures w = Done (tt, w') /\
    trace w' = (generate_calls (gl_next_name w) N ++ trace w)%list /\
    length (generate_calls (gl_next_name w) N) = N /\
    Forall is_generate (generate_calls (gl_next_name w) N) /\
    (forall name, ~ In (glDeleteTextures name)
                       (generate_calls (gl_next_name w) N)) /\
    (forall k e, (k < N)%nat ->
       nth_error (m_textureIDs w) k = Some e ->
       nth_error (m_textureIDs w') k
       = Some (TEXTURE_INFO.mk (gl_next_name w + Z.of_nat k)
                               (TEXTURE_INFO.tag e))) /\
    m_loadedTextures w' = m_loadedTextures w /\
    (forall name, In name (live_textures (trace w)) ->
                  In name (live_textures (trace w'))).
Proof.
  intros Hok N. unfold table_ok in Hok.
  eexists. split.
  - unfold DestroyGLTextures. unfold bind at 1. unfold gets at 1.
    cbv beta iota. unfold for_range. rewrite Z.sub_0_r.
    apply (destroy_loop_run N 0 w). subst N. simpl. lia.
  - pose proof (generate_calls_are_generate (gl_next_name w) N) as G.
    simpl. repeat split.
    + unfold generate_calls.
      now rewrite length_rev, length_map, length_seq.
    + exact G.
    + intros name Hin.
      apply (proj1 (Forall_forall _ _) G) in Hin. exact Hin.
    + intros k e Hk E. rewrite nth_error_regenerate, E.
      replace (Nat.ltb k (0 + N)) with true
        by (symmetry; apply Nat.ltb_lt; lia).
      simpl. now rewrite Nat.sub_0_r.
    + intros name. now apply live_textures_kept.
Qed.

Lemma DestroyGLTextures_generates_witness :
  table_ok loaded_scene /\
  let N := Z.to_nat (m_loadedTextures loaded_scene) in
  exists w',
    DestroyGLTextures loaded_scene = Done (tt, w') /\
    trace w' = (generate_calls (gl_next_name loaded_scene) N
                  ++ trace loaded_scene)%list /\
    length (generate_calls (gl_next_name loaded_scene) N) = N /\
    Forall is_generate (generate_calls (gl_next_name loaded_scene) N) /\
    (forall name, ~ In (glDeleteTextures name)
                       (generate_calls (gl_next_name loaded_scene) N)) /\
    (forall k e, (k < N)%nat ->
       nth_error (m_textureIDs loaded_scene) k = Some e ->
       nth_error (m_textureIDs w') k
       = Some (TEXTURE_INFO.mk (gl_next_name loaded_scene + Z.of_nat k)
                               (TEXTURE_INFO.tag e))) /\
    m_loadedTextures w' = m_loadedTextures loaded_scene /\
    (forall name, In name (live_textures (trace loaded_scene)) ->
                  In name (live_textures (trace w'))).
Proof.
  assert (T : table_ok loaded_scene) by (vm_compute; intro H; discriminate H).
  exact (conj T (DestroyGLTextures_generates loaded_scene T)).
Defined.

(** On the scene of [LoadSceneTextures]: seven textures named 1..7 exist;
    the teardown generates 8..14, the table then holds those, and all
    fourteen names exist in the context. *)
Example DestroyGLTextures_loaded_scene :
  live_textures (trace loaded_scene) = [7; 6; 5; 4; 3; 2; 1] /\
  live_textures (trace (after DestroyGLTextures loaded_scene))
  = [14; 13; 12; 11; 10; 9; 8; 7; 6; 5; 4; 3; 2; 1] /\
  map TEXTURE_INFO.ID (loaded (after DestroyGLTextures loaded_scene))
  = [8; 9; 10; 11; 12; 13; 14].
Proof. vm_compute. repeat split; reflexivity. Qed.

(** ** The model matrix *)

Section ModelMatrix.
Local Open Scope R_scope.

Ltac matrix_entries :=
  cbv [compose5 glm.mat_mul glm.mat_vec glm.vec4_add glm.vec4_scale
       glm.scale glm.translate
       point.scale point.rotate_x point.rotate_y point.rotate_z
       point.translate
       mat4.c0 mat4.c1 mat4.c2 mat4.c3
       vec4.x vec4.y vec4.z vec4.w vec3.x vec3.y vec3.z].

Lemma mat_vec_mul (a b : mat4.t) (p : vec4.t) :
  glm.mat_vec (glm.mat_mul a b) p = glm.mat_vec a (glm.mat_vec b p).
Proof.
  destruct a as [[] [] [] []], b as [[] [] [] []], p.
  matrix_entries. f_equal; ring.
Qed.

Lemma normalize_axis (a b c : R) :
  a * a + b * b + c * c = 1 ->
  glm.normalize (vec3.mk a b c) = vec3.mk a b c.
Proof.
  intro H. unfold glm.normalize, glm.dot. simpl.
  rewrite H, sqrt_1. f_equal; field.
Qed.

Lemma rotate_axis_x (a : R) :
  glm.rotate a axis_x
  = mat4.mk (vec4.mk 1 0 0 0)
            (vec4.mk 0 (cos a) (sin a) 0)
            (vec4.mk 0 (- sin a) (cos a) 0)
            (vec4.mk 0 0 0 1).
Proof.
  unfold glm.rotate, axis_x. rewrite normalize_axis by ring.
  simpl. repeat f_equal; ring.
Qed.

Lemma rotate_axis_y (a : R) :
  glm.rotate a axis_y
  = mat4.mk (vec4.mk (cos a) 0 (- sin a) 0)
            (vec4.mk 0 1 0 0)
            (vec4.mk (sin a) 0 (cos a) 0)
            (vec4.mk 0 0 0 1).
Proof.
  unfold glm.rotate, axis_y. rewrite normalize_axis by ring.
  simpl. repeat f_equal; ring.
Qed.

Lemma rotate_axis_z (a : R) :
  glm.rotate a axis_z
  = mat4.mk (vec4.mk (cos a) (sin a) 0 0)
            (vec4.mk (- sin a) (cos a) 0 0)
            (vec4.mk 0 0 1 0)
            (vec4.mk 0 0 0 1).
Proof.
  unfold glm.rotate, axis_z. rewrite normalize_axis by ring.
  simpl. repeat f_equal; ring.
Qed.

Lemma scale_acts (s : vec3.t) (p : vec4.t) :
  glm.mat_vec (glm.scale s) p = point.scale s p.
Proof. destruct s, p. matrix_entries. f_equal; ring. Qed.

Lemma translate_acts (t : vec3.t) (p : vec4.t) :
  glm.mat_vec (glm.translate t) p = point.translate t p.
Proof. destruct t, p. matrix_entries. f_equal; ring. Qed.

Lemma rotate_x_acts (a : R) (p : vec4.t) :
  glm.mat_vec (glm.rotate a axis_x) p = point.rotate_x a p.
Proof. rewrite rotate_axis_x. destruct p. matrix_entries. f_equal; ring. Qed.

Lemma rotate_y_acts (a : R) (p : vec4.t) :
  glm.mat_vec (glm.rotate a axis_y) p = point.rotate_y a p.
Proof. rewrite rotate_axis_y. destruct p. matrix_entries. f_equal; ring. Qed.

Lemma rotate_z_acts (a : R) (p : vec4.t) :
  glm.mat_vec (glm.rotate a axis_z) p = point.rotate_z a p.
Proof. rewrite rotate_axis_z. destruct p. matrix_entries. f_equal; ring. Qed.

Lemma compose5_acts (m1 m2 m3 m4 m5 : mat4.t) (p : vec4.t) :
  glm.mat_vec (compose5 m1 m2 m3 m4 m5) p
  = glm.mat_vec m1 (glm.mat_vec m2 (glm.mat_vec m3 (glm.mat_vec m4
      (glm.mat_vec m5 p)))).
Proof. unfold compose5. now rewrite !mat_vec_mul. Qed.

Lemma radians_90 : glm.radians 90 = PI / 2.
Proof. unfold glm.radians. field. Qed.

Lemma SetTransformations_run (w : World) (sh : ShaderManager)
  (scaleXYZ positionXYZ : vec3.t) (Xdeg Ydeg Zdeg : R) :
  m_pShaderManager w = Some sh ->
  SetTransformations scaleXYZ Xdeg Ydeg Zdeg positionXYZ w
  = Done (tt,
          with_shader
            (Some ((g_ModelName,
                    Mat4Value
                      (compose5 (glm.translate positionXYZ)
                         (glm.rotate (glm.radians Zdeg) axis_z)
                         (glm.rotate (glm.radians Ydeg) axis_y)
                         (glm.rotate (glm.radians Xdeg) axis_x)
                         (glm.scale scaleXYZ))) :: sh)) w).
Proof.
  intro H. unfold SetTransformations.
  cbv beta iota zeta delta [bind gets setMat4Value set_uniform modify fail].
  repeat (rewrite H; cbv beta iota). reflexivity.
Qed.

(** C5.  With the shader manager set, [SetTransformations] sends as
    [model] the product translate * rotZ * rotY * rotX * scale, and that
    matrix maps every point to the result of scaling it, then rotating it
    about X, then about Y, then about Z, then translating it.  For the
    rotation angles (90, 90, 90), with unit scale and no translation, each
    of the five other orders of the three rotation factors gives a matrix
    different from it. *)
Theorem SetTransformations_model_matrix :
  (forall (w : World) (sh : ShaderManager) (scaleXYZ positionXYZ : vec3.t)
          (Xdeg Ydeg Zdeg : R),
      m_pShaderManager w = Some sh ->
      let model :=
        compose5 (glm.translate positionXYZ)
                 (glm.rotate (glm.radians Zdeg) axis_z)
                 (glm.rotate (glm.radians Ydeg) axis_y)
                 (glm.rotate (glm.radians Xdeg) axis_x)
                 (glm.scale scaleXYZ) in
      SetTransformations scaleXYZ Xdeg Ydeg Zdeg positionXYZ w
      = Done (tt, with_shader (Some ((g_ModelName, Mat4Value model) :: sh)) w)
      /\
      forall p : vec4.t,
        glm.mat_vec model p
        = point.translate positionXYZ
            (point.rotate_z (glm.radians Zdeg)
               (point.rotate_y (glm.radians Ydeg)
                  (point.rotate_x (glm.radians Xdeg)
                     (point.scale scaleXYZ p)))))
  /\
  (let T := glm.translate (vec3.mk 0 0 0) in
   let S := glm.scale (vec3.mk 1 1 1) in
   let RX := glm.rotate (glm.radians 90) axis_x in
   let RY := glm.rotate (glm.radians 90) axis_y in
   let RZ := glm.rotate (glm.radians 90) axis_z in
   compose5 T RZ RX RY S <> compose5 T RZ RY RX S /\
   compose5 T RY RZ RX S <> compose5 T RZ RY RX S /\
   compose5 T RY RX RZ S <> compose5 T RZ RY RX S /\
   compose5 T RX RZ RY S <> compose5 T RZ RY RX S /\
   compose5 T RX RY RZ S <> compose5 T RZ RY RX S).
Proof.
  split.
  - intros w sh scaleXYZ positionXYZ Xdeg Ydeg Zdeg H model. split.
    + now apply SetTransformations_run.
    + intro p. unfold model.
      now rewrite compose5_acts, scale_acts, rotate_x_acts, rotate_y_acts,
        rotate_z_acts, translate_acts.
  - intros T S RX RY RZ. subst T S RX RY RZ.
    rewrite rotate_axis_x, rotate_axis_y, rotate_axis_z, radians_90,
      cos_PI2, sin_PI2.
    repeat split; intro E.
    + apply (f_equal (fun m => vec4.x (mat4.c0 m))) in E.
      revert E. matrix_entries. lra.
    + apply (f_equal (fun m => vec4.x (mat4.c1 m))) in E.
      revert E. matrix_entries. lra.
    + apply (f_equal (fun m => vec4.x (mat4.c0 m))) in E.
      revert E. matrix_entries. lra.
    + apply (f_equal (fun m => vec4.x (mat4.c1 m))) in E.
      revert E. matrix_entries. lra.
    + apply (f_equal (fun m => vec4.y (mat4.c1 m))) in E.
      revert E. matrix_entries. lra.
Qed.

Lemma SetTransformations_model_matrix_witness :
  m_pShaderManager loaded_scene = Some [] /\
  let model :=
    compose5 (glm.translate (vec3.mk 3 0 2))
             (glm.rotate (glm.radians 0) axis_z)
             (glm.rotate (glm.radians 45) axis_y)
             (glm.rotate (glm.radians 0) axis_x)
             (glm.scale (vec3.mk 20 1 10)) in
  SetTransformations (vec3.mk 20 1 10) 0 45 0 (vec3.mk 3 0 2) loaded_scene
  = Done (tt, with_shader (Some [(g_ModelName, Mat4Value model)])
                          loaded_scene)
  /\
  forall p : vec4.t,
    glm.mat_vec model p
    = point.translate (vec3.mk 3 0 2)
        (point.rotate_z (glm.radians 0)
           (point.rotate_y (glm.radians 45)
              (point.rotate_x (glm.radians 0)
                 (point.scale (vec3.mk 20 1 10) p)))).
Proof.
  assert (P : m_pShaderManager loaded_scene = Some []) by reflexivity.
  exact (conj P (proj1 SetTransformations_model_matrix loaded_scene []
                   (vec3.mk 20 1 10) (vec3.mk 3 0 2) 0 45 0 P)).
Defined.
End ModelMatrix.

(** * Further properties of the texture and material tables *)

Lemma first_hit_found {A} (tag_of : A -> string) (tag : string) (l : list A) :
  forall (i j : Z) (e : A),
    first_hit tag_of tag l i = Some (j, e) ->
    i <= j < i + Z.of_nat (length l) /\
    nth_error l (Z.to_nat (j - i)) = Some e /\
    tag_of e = tag /\
    forall (k : nat) (x : A),
      (k < Z.to_nat (j - i))%nat -> nth_error l k = Some x -> tag_of x <> tag.
Proof.
  induction l as [|x l IH]; intros i j e H; [discriminate|].
  cbn [first_hit] in H.
  destruct (String.eqb (tag_of x) tag) eqn:Q.
  - injection H as <- <-. apply String.eqb_eq in Q.
    rewrite Z.sub_diag. cbn [length].
    split; [lia|]. split; [reflexivity|]. split; [assumption|].
    intros k y Hk. simpl in Hk. lia.
  - apply String.eqb_neq in Q.
    destruct (IH (i + 1) j e H) as (Rg & N & T & Before).
    cbn [length]. split; [lia|]. split; [|split; [assumption|]].
    + replace (Z.to_nat (j - i)) with (Datatypes.S (Z.to_nat (j - (i + 1))))
        by lia.
      exact N.
    + intros k y Hk Hy. destruct k as [|k].
      * simpl in Hy. injection Hy as <-. exact Q.
      * simpl in Hy. apply (Before k y); [lia | exact Hy].
Qed.

Lemma first_hit_missing {A} (tag_of : A -> string) (tag : string)
  (l : list A) (i : Z) :
  first_hit tag_of tag l i = None -> ~ In tag (map tag_of l).
Proof.
  revert i. induction l as [|x l IH]; intros i H; [simpl; tauto|].
  cbn [first_hit] in H.
  destruct (String.eqb (tag_of x) tag) eqn:Q; [discriminate|].
  apply String.eqb_neq in Q. simpl. intros [E|E]; [tauto|].
  exact (IH _ H E).
Qed.

Lemma first_hit_app_left {A} (tag_of : A -> string) (tag : string)
  (l1 l2 : list A) (i : Z) :
  In tag (map tag_of l1) ->
  first_hit tag_of tag (l1 ++ l2)%list i = first_hit tag_of tag l1 i.
Proof.
  revert i. induction l1 as [|x l1 IH]; intros i H; [contradiction|].
  cbn [app first_hit]. simpl in H.
  destruct (String.eqb (tag_of x) tag) eqn:Q; [reflexivity|].
  apply String.eqb_neq in Q. apply IH. tauto.
Qed.

Lemma FindTextureSlot_found_or_missing (w : World) (tag : string) :
  table_ok w ->
  exists r,
    FindTextureSlot tag w = Done (r, w) /\
    ((r = -1 /\ ~ In tag (registered_tags w)) \/
     (0 <= r < m_loadedTextures w /\
      (exists e, nth_error (m_textureIDs w) (Z.to_nat r) = Some e /\
                 TEXTURE_INFO.tag e = tag) /\
      forall (k : nat) (x : TEXTURE_INFO.t),
        (k < Z.to_nat r)%nat -> nth_error (m_textureIDs w) k = Some x ->
        TEXTURE_INFO.tag x <> tag)).
Proof.
  intro Hok. exists (slot_of tag w). split; [now apply FindTextureSlot_run|].
  unfold slot_of.
  destruct (first_hit TEXTURE_INFO.tag tag (loaded w) 0) as [[j e]|] eqn:E.
  - right. destruct (first_hit_found _ _ _ _ _ _ E) as (Rg & N & T & Before).
    rewrite Z.sub_0_r in N, Before.
    rewrite length_loaded in Rg by assumption.
    split; [lia|]. split.
    + exists e. split; [now apply nth_error_loaded | assumption].
    + intros k x Hk Hx. apply (Before k x Hk).
      unfold loaded. rewrite nth_error_firstn.
      replace (Nat.ltb k (Z.to_nat (m_loadedTextures w))) with true
        by (symmetry; apply Nat.ltb_lt; lia).
      exact Hx.
  - left. split; [reflexivity|]. exact (first_hit_missing _ _ _ _ E).
Qed.

(** X1.  With the count inside the array, [FindTextureSlot] returns without
    changing anything, and its result is either -1, when no registered
    entry carries the tag, or the index, below [m_loadedTextures], of the
    first entry that carries it. *)
Theorem FindTextureSlot_first_match (w : World) (tag : string) :
  table_ok w ->
  exists r,
    FindTextureSlot tag w = Done (r, w) /\
    ((r = -1 /\ ~ In tag (registered_tags w)) \/
     (0 <= r < m_loadedTextures w /\
      (exists e, nth_error (m_textureIDs w) (Z.to_nat r) = Some e /\
                 TEXTURE_INFO.tag e = tag) /\
      forall (k : nat) (x : TEXTURE_INFO.t),
        (k < Z.to_nat r)%nat -> nth_error (m_textureIDs w) k = Some x ->
        TEXTURE_INFO.tag x <> tag)).
Proof. exact (FindTextureSlot_found_or_missing w tag). Qed.

Lemma FindTextureSlot_first_match_witness :
  table_ok sand_twice /\
  exists r,
    FindTextureSlot "sand" sand_twice = Done (r, sand_twice) /\
    ((r = -1 /\ ~ In "sand" (registered_tags sand_twice)) \/
     (0 <= r < m_loadedTextures sand_twice /\
      (exists e, nth_error (m_textureIDs sand_twice) (Z.to_nat r) = Some e /\
                 TEXTURE_INFO.tag e = "sand") /\
      forall (k : nat) (x : TEXTURE_INFO.t),
        (k < Z.to_nat r)%nat ->
        nth_error (m_textureIDs sand_twice) k = Some x ->
        TEXTURE_INFO.tag x <> "sand")).
Proof.
  assert (T : table_ok sand_twice) by (vm_compute; intro H; discriminate H).
  exact (conj T (FindTextureSlot_first_match sand_twice "sand" T)).
Defined.

(** X2.  The two lookups find the same entry: when [FindTextureSlot]
    returns -1 so does [FindTextureID], and when it returns a slot,
    [FindTextureID] returns the handle stored in that slot, converted to
    [int]. *)
Theorem FindTextureID_agrees_with_slot (w : World) (tag : string) :
  table_ok w ->
  exists slot id,
    FindTextureSlot tag w = Done (slot, w) /\
    FindTextureID tag w = Done (id, w) /\
    (slot = -1 -> id = -1) /\
    (slot <> -1 ->
     exists e, nth_error (m_textureIDs w) (Z.to_nat slot) = Some e /\
               id = int_of_GLuint (TEXTURE_INFO.ID e)).
Proof.
  intro Hok. exists (slot_of tag w), (id_of tag w).
  split; [now apply FindTextureSlot_run|].
  split; [now apply FindTextureID_run|].
  unfold slot_of, id_of.
  destruct (first_hit TEXTURE_INFO.tag tag (loaded w) 0) as [[j e]|] eqn:E.
  - destruct (first_hit_found _ _ _ _ _ _ E) as (Rg & N & _).
    rewrite Z.sub_0_r in N. split; [lia|].
    intros _. exists e. split; [now apply nth_error_loaded | reflexivity].
  - split; [reflexivity | congruence].
Qed.

Lemma FindTextureID_agrees_with_slot_witness :
  table_ok loaded_scene /\
  exists slot id,
    FindTextureSlot "pyramid" loaded_scene = Done (slot, loaded_scene) /\
    FindTextureID "pyramid" loaded_scene = Done (id, loaded_scene) /\
    (slot = -1 -> id = -1) /\
    (slot <> -1 ->
     exists e,
       nth_error (m_textureIDs loaded_scene) (Z.to_nat slot) = Some e /\
       id = int_of_GLuint (TEXTURE_INFO.ID e)).
Proof.
  assert (T : table_ok loaded_scene) by (vm_compute; intro H; discriminate H).
  exact (conj T (FindTextureID_agrees_with_slot loaded_scene "pyramid" T)).
Defined.

(** X3.  When the first material tagged [tag] is [e], [FindMaterial]
    returns [true] and leaves in its reference parameter the five
    properties of [e]; the tag of the parameter is not assigned. *)
Theorem FindMaterial_copies_first_match (w : World) (tag : string)
  (material e : OBJECT_MATERIAL.t) (before rest : list OBJECT_MATERIAL.t) :
  m_objectMaterials w = (before ++ e :: rest)%list ->
  ~ In tag (map OBJECT_MATERIAL.tag before) ->
  OBJECT_MATERIAL.tag e = tag ->
  FindMaterial tag material w
  = Done ((true,
           OBJECT_MATERIAL.mk
             (OBJECT_MATERIAL.ambientColor e)
             (OBJECT_MATERIAL.ambientStrength e)
             (OBJECT_MATERIAL.diffuseColor e)
             (OBJECT_MATERIAL.specularColor e)
             (OBJECT_MATERIAL.shininess e)
             (OBJECT_MATERIAL.tag material)), w).
Proof.
  intros L Miss T. rewrite FindMaterial_run. unfold material_of.
  rewrite L, first_hit_app by assumption.
  destruct before; reflexivity.
Qed.

Lemma FindMaterial_copies_first_match_witness :
  (m_objectMaterials unset_shader_scene
   = ([] ++ OBJECT_MATERIAL.mk (vec3.mk 0 0 0) 0 (vec3.mk 0.5 0.5 0.5)
                               (vec3.mk 0.7 0.7 0.7) 64 "steel" :: [])%list /\
   ~ In "steel" (map OBJECT_MATERIAL.tag []) /\
   OBJECT_MATERIAL.tag
     (OBJECT_MATERIAL.mk (vec3.mk 0 0 0) 0 (vec3.mk 0.5 0.5 0.5)
                         (vec3.mk 0.7 0.7 0.7) 64 "steel") = "steel") /\
  FindMaterial "steel"
    (OBJECT_MATERIAL.mk (vec3.mk 1 1 1) 1 (vec3.mk 1 1 1) (vec3.mk 1 1 1) 1
                        "local") unset_shader_scene
  = Done ((true,
           OBJECT_MATERIAL.mk (vec3.mk 0 0 0) 0 (vec3.mk 0.5 0.5 0.5)
                              (vec3.mk 0.7 0.7 0.7) 64 "local"),
          unset_shader_scene).
Proof.
  assert (L : m_objectMaterials unset_shader_scene
              = ([] ++ OBJECT_MATERIAL.mk (vec3.mk 0 0 0) 0
                         (vec3.mk 0.5 0.5 0.5) (vec3.mk 0.7 0.7 0.7) 64
                         "steel" :: [])%list) by reflexivity.
  assert (N : ~ In "steel" (map OBJECT_MATERIAL.tag [])) by (simpl; tauto).
  assert (T : OBJECT_MATERIAL.tag
                (OBJECT_MATERIAL.mk (vec3.mk 0 0 0) 0 (vec3.mk 0.5 0.5 0.5)
                                    (vec3.mk 0.7 0.7 0.7) 64 "steel")
              = "steel") by reflexivity.
  exact (conj (conj L (conj N T))
              (FindMaterial_copies_first_match unset_shader_scene "steel"
                 (OBJECT_MATERIAL.mk (vec3.mk 1 1 1) 1 (vec3.mk 1 1 1)
                                     (vec3.mk 1 1 1) 1 "local")
                 _ [] [] L N T)).
Defined.

(** ** The outcomes of [CreateGLTexture], with their calls *)

Lemma CreateGLTexture_cases (w : World) (filename tag : string) :
  CreateGLTexture filename tag w
  = match disk w filename with
    | None =>
        Done (false,
              with_gl (gl_next_name w)
                (cout_could_not_load filename
                   :: stbi_set_flip_vertically_on_load true :: trace w) w)
    | Some img =>
        if (colorChannels img =? 3) || (colorChannels img =? 4) then
          if in_bounds (m_textureIDs w) (m_loadedTextures w) then
            if in_bounds (update_nth (Z.to_nat (m_loadedTextures w))
                            (set_ID (gl_next_name w)) (m_textureIDs w))
                         (m_loadedTextures w)
            then
              Done (true,
                with_loadedTextures (m_loadedTextures w + 1)
                  (with_textureIDs
                     (update_nth (Z.to_nat (m_loadedTextures w))
                        (set_tag tag)
                        (update_nth (Z.to_nat (m_loadedTextures w))
                           (set_ID (gl_next_name w)) (m_textureIDs w)))
                     (with_gl (gl_next_name w + 1)
                        (register_calls filename img (gl_next_name w)
                           ++ trace w) w)))
            else Fault (OutOfBounds (m_loadedTextures w))
          else Fault (OutOfBounds (m_loadedTextures w))
        else
          Done (false,
                with_gl (gl_next_name w + 1)
                  (reject_calls filename img (gl_next_name w) ++ trace w) w)
    end.
Proof.
  unfold CreateGLTexture, register_calls, reject_calls, upload_call.
  run.
  destruct (disk w filename) as [img|]; [|reflexivity].
  run.
  destruct (colorChannels img =? 3); simpl.
  - destruct (in_bounds (m_textureIDs w) (m_loadedTextures w)); [|reflexivity].
    simpl.
    destruct (in_bounds _ (m_loadedTextures w)); reflexivity.
  - destruct (colorChannels img =? 4); simpl; [|reflexivity].
    destruct (in_bounds (m_textureIDs w) (m_loadedTextures w)); [|reflexivity].
    simpl.
    destruct (in_bounds _ (m_loadedTextures w)); reflexivity.
Qed.

Lemma loads_supported (w : World) (filename : string) :
  loads (disk w) filename = true <->
  exists img, disk w filename = Some img /\ supported img.
Proof.
  unfold loads, supported. destruct (disk w filename) as [img|]; split.
  - intro H. exists img. split; [reflexivity|].
    apply orb_true_iff in H. destruct H as [H|H]; apply Z.eqb_eq in H; tauto.
  - intros (i & E & C). injection E as <-. apply orb_true_iff.
    destruct C as [C|C]; [left | right]; now apply Z.eqb_eq.
  - discriminate.
  - intros (i & E & _). discriminate.
Qed.

Lemma CreateGLTexture_rejects_run (w : World) (filename tag : string)
  (img : Image) :
  disk w filename = Some img -> ~ supported img ->
  CreateGLTexture filename tag w
  = Done (false,
          with_gl (gl_next_name w + 1)
                  (reject_calls filename img (gl_next_name w) ++ trace w) w).
Proof.
  intros D C. rewrite CreateGLTexture_cases, D.
  destruct ((colorChannels img =? 3) || (colorChannels img =? 4)) eqn:L;
    [|reflexivity].
  exfalso. apply C. apply orb_true_iff in L. unfold supported.
  destruct L as [L|L]; apply Z.eqb_eq in L; tauto.
Qed.

Lemma CreateGLTexture_registers_run (w : World) (filename tag : string)
  (img : Image) :
  disk w filename = Some img -> supported img ->
  in_bounds (m_textureIDs w) (m_loadedTextures w) = true ->
  CreateGLTexture filename tag w
  = Done (true,
          with_loadedTextures (m_loadedTextures w + 1)
            (with_textureIDs
               (update_nth (Z.to_nat (m_loadedTextures w))
                  (fun e => set_tag tag (set_ID (gl_next_name w) e))
                  (m_textureIDs w))
               (with_gl (gl_next_name w + 1)
                  (register_calls filename img (gl_next_name w) ++ trace w)
                  w))).
Proof.
  intros D C B. rewrite CreateGLTexture_cases, D.
  replace ((colorChannels img =? 3) || (colorChannels img =? 4)) with true.
  - now rewrite in_bounds_update_nth, B, update_nth_twice.
  - symmetry. apply orb_true_iff.
    destruct C as [C|C]; [left | right]; now apply Z.eqb_eq.
Qed.

(** X4.  With a free slot at index [m_loadedTextures], [CreateGLTexture]
    always returns; it returns [true] exactly when the file decodes with 3
    or 4 channels, and the count grows by one in that case and stays as it
    was otherwise.  The shader manager, the materials and the files are
    left alone. *)
Theorem CreateGLTexture_returns (w : World) (filename tag : string) :
  in_bounds (m_textureIDs w) (m_loadedTextures w) = true ->
  exists w',
    CreateGLTexture filename tag w = Done (loads (disk w) filename, w') /\
    m_loadedTextures w'
    = m_loadedTextures w + (if loads (disk w) filename then 1 else 0) /\
    same_rest w w'.
Proof.
  intro B. rewrite CreateGLTexture_cases. unfold loads, same_rest.
  destruct (disk w filename) as [img|].
  - destruct ((colorChannels img =? 3) || (colorChannels img =? 4)).
    + rewrite in_bounds_update_nth, B.
      eexists. split; [reflexivity|]. simpl. auto.
    + eexists. split; [reflexivity|]. simpl. rewrite Z.add_0_r. auto.
  - eexists. split; [reflexivity|]. simpl. rewrite Z.add_0_r. auto.
Qed.

Lemma CreateGLTexture_returns_witness :
  in_bounds (m_textureIDs loaded_scene) (m_loadedTextures loaded_scene)
  = true /\
  exists w',
    CreateGLTexture "textures/gray.png" "gray" loaded_scene
    = Done (loads (disk loaded_scene) "textures/gray.png", w') /\
    m_loadedTextures w'
    = m_loadedTextures loaded_scene
      + (if loads (disk loaded_scene) "textures/gray.png" then 1 else 0) /\
    same_rest loaded_scene w'.
Proof.
  assert (B : in_bounds (m_textureIDs loaded_scene)
                        (m_loadedTextures loaded_scene) = true)
    by reflexivity.
  exact (conj B (CreateGLTexture_returns loaded_scene "textures/gray.png"
                   "gray" B)).
Defined.

(** X5.  When the file does not decode, [CreateGLTexture] returns [false]
    whatever the state of the table (a full one included); it makes no
    OpenGL call, consumes no texture name and leaves the table alone. *)
Theorem CreateGLTexture_unreadable_no_gl (w : World) (filename tag : string) :
  disk w filename = None ->
  exists w' new,
    CreateGLTexture filename tag w = Done (false, w') /\
    trace w' = (new ++ trace w)%list /\
    Forall is_not_gl new /\
    gl_next_name w' = gl_next_name w /\
    same_table w w' /\ same_rest w w'.
Proof.
  intro D. rewrite CreateGLTexture_cases, D.
  eexists.
  exists [cout_could_not_load filename; stbi_set_flip_vertically_on_load true].
  split; [reflexivity|]. split; [reflexivity|].
  split; [repeat constructor|].
  unfold same_table, same_rest. simpl. auto.
Qed.

Lemma CreateGLTexture_unreadable_no_gl_witness :
  disk full_scene "textures/missing.jpg" = None /\
  exists w' new,
    CreateGLTexture "textures/missing.jpg" "missing" full_scene
    = Done (false, w') /\
    trace w' = (new ++ trace full_scene)%list /\
    Forall is_not_gl new /\
    gl_next_name w' = gl_next_name full_scene /\
    same_table full_scene w' /\ same_rest full_scene w'.
Proof.
  assert (D : disk full_scene "textures/missing.jpg" = None) by reflexivity.
  exact (conj D (CreateGLTexture_unreadable_no_gl full_scene
                   "textures/missing.jpg" "missing" D)).
Defined.

(** X6.  When the file decodes with a channel count other than 3 and 4,
    [CreateGLTexture] returns [false] whatever the state of the table and
    leaves the table alone, but it has generated a texture name by then:
    that name exists in the context afterwards and is still the texture
    bound to [GL_TEXTURE_2D], no [glDeleteTextures] was issued, and the
    decoded image was not passed to [stbi_image_free]. *)
Theorem CreateGLTexture_rejected_leaks (w : World) (filename tag : string)
  (img : Image) :
  disk w filename = Some img -> ~ supported img ->
  exists w' new,
    CreateGLTexture filename tag w = Done (false, w') /\
    trace w' = (new ++ trace w)%list /\
    same_table w w' /\
    live_textures (trace w') = gl_next_name w :: live_textures (trace w) /\
    current_binding (trace w') = Some (gl_next_name w) /\
    ~ In stbi_image_free new /\
    (forall name, ~ In (glDeleteTextures name) new).
Proof.
  intros D C. rewrite (CreateGLTexture_rejects_run w filename tag img D C).
  eexists. exists (reject_calls filename img (gl_next_name w)).
  split; [reflexivity|]. split; [reflexivity|].
  split; [unfold same_table; simpl; auto|].
  split; [reflexivity|]. split; [reflexivity|].
  split.
  - simpl. intuition discriminate.
  - intros name. simpl. intuition discriminate.
Qed.

Lemma CreateGLTexture_rejected_leaks_witness :
  (disk loaded_scene "textures/gray.png" = Some (mkImage 2 2 1) /\
   ~ supported (mkImage 2 2 1)) /\
  exists w' new,
    CreateGLTexture "textures/gray.png" "gray" loaded_scene
    = Done (false, w') /\
    trace w' = (new ++ trace loaded_scene)%list /\
    same_table loaded_scene w' /\
    live_textures (trace w')
    = gl_next_name loaded_scene :: live_textures (trace loaded_scene) /\
    current_binding (trace w') = Some (gl_next_name loaded_scene) /\
    ~ In stbi_image_free new /\
    (forall name, ~ In (glDeleteTextures name) new).
Proof.
  assert (D : disk loaded_scene "textures/gray.png" = Some (mkImage 2 2 1))
    by reflexivity.
  assert (C : ~ supported (mkImage 2 2 1))
    by (unfold supported; simpl; intros [H|H]; discriminate H).
  exact (conj (conj D C)
              (CreateGLTexture_rejected_leaks loaded_scene
                 "textures/gray.png" "gray" (mkImage 2 2 1) D C)).
Defined.

(** What any completed [CreateGLTexture] does to the scanned entries:
    nothing, or one entry appended under the tag. *)
Lemma CreateGLTexture_loaded (w w' : World) (filename tag : string)
  (b : bool) :
  table_ok w ->
  CreateGLTexture filename tag w = Done (b, w') ->
  table_ok w' /\
  exists added,
    loaded w' = (loaded w ++ added)%list /\
    (added = [] \/ exists name, added = [TEXTURE_INFO.mk name tag]).
Proof.
  intros Hok H. destruct b.
  - destruct (CreateGLTexture_true _ _ _ _ H) as (B & N & T & _).
    destruct (loaded_after_register _ _ _ _ B N T) as [L Hok'].
    split; [assumption|]. eexists. split; [exact L|]. right. eauto.
  - rewrite CreateGLTexture_cases in H.
    assert (ST : same_table w w').
    { destruct (disk w filename) as [img|].
      - destruct ((colorChannels img =? 3) || (colorChannels img =? 4)).
        + destruct (in_bounds (m_textureIDs w) (m_loadedTextures w));
            [|discriminate].
          destruct (in_bounds _ (m_loadedTextures w)); discriminate.
        + injection H as <-. split; reflexivity.
      - injection H as <-. split; reflexivity. }
    destruct (same_table_loaded _ _ ST) as [L Hok'].
    split; [auto|]. exists []. rewrite app_nil_r. auto.
Qed.

(** X7.  A completed [CreateGLTexture], whatever it returned and whatever
    tag it was given, does not change what the lookups return for a tag
    that was registered before: same slot, same handle. *)
Theorem CreateGLTexture_keeps_registered (w w' : World)
  (filename tag : string) (b : bool) (t : string) (slot id : Z) :
  table_ok w ->
  CreateGLTexture filename tag w = Done (b, w') ->
  In t (registered_tags w) ->
  FindTextureSlot t w = Done (slot, w) ->
  FindTextureID t w = Done (id, w) ->
  FindTextureSlot t w' = Done (slot, w') /\
  FindTextureID t w' = Done (id, w').
Proof.
  intros Hok H Reg HS HI.
  destruct (CreateGLTexture_loaded _ _ _ _ _ Hok H) as (Hok' & added & L & _).
  rewrite FindTextureSlot_run in HS by assumption.
  rewrite FindTextureID_run in HI by assumption.
  injection HS as <-. injection HI as <-.
  rewrite FindTextureSlot_run, FindTextureID_run by assumption.
  unfold slot_of, id_of. rewrite L.
  now rewrite first_hit_app_left by exact Reg.
Qed.

Lemma CreateGLTexture_keeps_registered_witness :
  (table_ok loaded_scene /\
   CreateGLTexture "textures/sand.jpg" "sand" loaded_scene
   = Done (true, sand_twice) /\
   In "sand" (registered_tags loaded_scene) /\
   FindTextureSlot "sand" loaded_scene = Done (6, loaded_scene) /\
   FindTextureID "sand" loaded_scene = Done (7, loaded_scene)) /\
  FindTextureSlot "sand" sand_twice = Done (6, sand_twice) /\
  FindTextureID "sand" sand_twice = Done (7, sand_twice).
Proof.
  assert (T : table_ok loaded_scene) by (vm_compute; intro H; discriminate H).
  assert (C : CreateGLTexture "textures/sand.jpg" "sand" loaded_scene
              = Done (true, sand_twice)) by (vm_compute; reflexivity).
  assert (R : In "sand" (registered_tags loaded_scene))
    by (vm_compute; tauto).
  assert (S1 : FindTextureSlot "sand" loaded_scene = Done (6, loaded_scene))
    by (vm_compute; reflexivity).
  assert (I1 : FindTextureID "sand" loaded_scene = Done (7, loaded_scene))
    by (vm_compute; reflexivity).
  exact (conj (conj T (conj C (conj R (conj S1 I1))))
              (CreateGLTexture_keeps_registered loaded_scene sand_twice
                 "textures/sand.jpg" "sand" true "sand" 6 7 T C R S1 I1)).
Defined.

(** ** Binding the textures to units *)

Local Opaque GL_TEXTURE0.

Lemma bind_loop_run (count : nat) :
  forall (i : nat) (w : World),
    (i + count <= length (m_textureIDs w))%nat ->
    for_loop count (Z.of_nat i)
      (fun i => call (glActiveTexture (GL_TEXTURE0 + i)) ;;
                e <- textureIDs_at i ;;
                call (glBindTexture GL_TEXTURE_2D (TEXTURE_INFO.ID e))) w
    = Done (tt, with_gl (gl_next_name w)
                        (bind_calls count i (m_textureIDs w) ++ trace w) w).
Proof.
  induction count as [|c IH]; intros i w Hlen.
  - simpl. unfold ret, with_gl. now destruct w.
  - cbn [for_loop bind_calls].
    assert (B : in_bounds (m_textureIDs w) (Z.of_nat i) = true).
    { unfold in_bounds. apply andb_true_iff.
      split; [apply Z.leb_le | apply Z.ltb_lt]; lia. }
    destruct (in_bounds_nth _ _ B) as (_ & e & E).
    rewrite Nat2Z.id in E.
    run. rewrite B, Nat2Z.id, E. run.
    replace (Z.of_nat i + 1) with (Z.of_nat (Datatypes.S i)) by lia.
    rewrite IH by (simpl; lia).
    unfold with_gl. simpl. rewrite <- app_assoc. simpl.
    now rewrite (nth_error_nth _ _ _ E).
Qed.

Lemma bind_calls_no_names (count : nat) :
  forall (i : nat) (a : list TEXTURE_INFO.t) (t : list Event),
    live_textures (bind_calls count i a ++ t) = live_textures t.
Proof.
  induction count as [|c IH]; intros i a t; [reflexivity|].
  cbn [bind_calls]. rewrite <- app_assoc, IH. reflexivity.
Qed.

Lemma bind_calls_other_unit (count : nat) :
  forall (i : nat) (a : list TEXTURE_INFO.t) (t : list Event) (k : nat),
    (k < i)%nat ->
    texture_on_unit (GL_TEXTURE0 + Z.of_nat k) (bind_calls count i a ++ t)
    = texture_on_unit (GL_TEXTURE0 + Z.of_nat k) t.
Proof.
  induction count as [|c IH]; intros i a t k Hk; [reflexivity|].
  cbn [bind_calls]. rewrite <- app_assoc, IH by lia.
  cbn [app texture_on_unit active_unit].
  destruct (Z.eqb_spec (GL_TEXTURE0 + Z.of_nat i) (GL_TEXTURE0 + Z.of_nat k));
    [lia | reflexivity].
Qed.

Lemma bind_calls_unit (count : nat) :
  forall (i : nat) (a : list TEXTURE_INFO.t) (t : list Event) (k : nat)
         (e : TEXTURE_INFO.t),
    (i <= k < i + count)%nat -> nth_error a k = Some e ->
    texture_on_unit (GL_TEXTURE0 + Z.of_nat k) (bind_calls count i a ++ t)
    = Some (TEXTURE_INFO.ID e).
Proof.
  induction count as [|c IH]; intros i a t k e Hk E; [lia|].
  cbn [bind_calls]. rewrite <- app_assoc.
  destruct (Nat.eq_dec k i) as [->|Ne].
  - rewrite bind_calls_other_unit by lia.
    cbn [app texture_on_unit active_unit].
    rewrite Z.eqb_refl. now rewrite (nth_error_nth _ _ _ E).
  - apply IH; [lia | assumption].
Qed.

Lemma BindGLTextures_run (w : World) :
  table_ok w ->
  exists w',
    BindGLTextures w = Done (tt, w') /\
    same_table w w' /\ same_rest w w' /\
    gl_next_name w' = gl_next_name w /\
    live_textures (trace w') = live_textures (trace w) /\
    forall (k : nat) (e : TEXTURE_INFO.t),
      Z.of_nat k < m_loadedTextures w ->
      nth_error (m_textureIDs w) k = Some e ->
      texture_on_unit (GL_TEXTURE0 + Z.of_nat k) (trace w')
      = Some (TEXTURE_INFO.ID e).
Proof.
  intro Hok. unfold table_ok in Hok. eexists. split.
  - unfold BindGLTextures. unfold bind at 1. unfold gets at 1.
    cbv beta iota. unfold for_range. rewrite Z.sub_0_r.
    apply (bind_loop_run (Z.to_nat (m_loadedTextures w)) 0 w). simpl. lia.
  - split; [split; reflexivity|].
    split; [repeat split|].
    split; [reflexivity|].
    split; [apply bind_calls_no_names|].
    intros k e Hk E. apply bind_calls_unit; [lia | assumption].
Qed.

(** X8.  With the count inside the array, [BindGLTextures] completes
    without changing the table or generating a name, and afterwards
    texture unit [GL_TEXTURE0 + k] holds the handle stored in slot [k], for
    every slot below [m_loadedTextures]. *)
Theorem BindGLTextures_units (w : World) :
  table_ok w ->
  exists w',
    BindGLTextures w = Done (tt, w') /\
    same_table w w' /\ same_rest w w' /\
    gl_next_name w' = gl_next_name w /\
    live_textures (trace w') = live_textures (trace w) /\
    forall (k : nat) (e : TEXTURE_INFO.t),
      Z.of_nat k < m_loadedTextures w ->
      nth_error (m_textureIDs w) k = Some e ->
      texture_on_unit (GL_TEXTURE0 + Z.of_nat k) (trace w')
      = Some (TEXTURE_INFO.ID e).
Proof. exact (BindGLTextures_run w). Qed.

Local Transparent GL_TEXTURE0.

Lemma BindGLTextures_units_witness :
  table_ok full_scene /\
  exists w',
    BindGLTextures full_scene = Done (tt, w') /\
    same_table full_scene w' /\ same_rest full_scene w' /\
    gl_next_name w' = gl_next_name full_scene /\
    live_textures (trace w') = live_textures (trace full_scene) /\
    forall (k : nat) (e : TEXTURE_INFO.t),
      Z.of_nat k < m_loadedTextures full_scene ->
      nth_error (m_textureIDs full_scene) k = Some e ->
      texture_on_unit (GL_TEXTURE0 + Z.of_nat k) (trace w')
      = Some (TEXTURE_INFO.ID e).
Proof.
  assert (T : table_ok full_scene) by (vm_compute; intro H; discriminate H).
  exact (conj T (BindGLTextures_units full_scene T)).
Defined.

Local Opaque GL_TEXTURE0.

(** X9.  [BindGLTextures] followed by [SetShaderTexture(tag)] for a
    registered tag: the sampler index sent to the shader is the slot of the
    first entry registered under the tag (no entry before it carries the
    tag), and it designates the texture unit on which the texture of that
    entry was bound.  A texture registered later under the same tag is
    never the one sampled. *)
Theorem sampler_designates_bound_texture (w : World) (sh : ShaderManager)
  (tag : string) :
  table_ok w -> m_pShaderManager w = Some sh ->
  In tag (registered_tags w) ->
  exists w1 w2 sh' slot e,
    BindGLTextures w = Done (tt, w1) /\
    SetShaderTexture tag w1 = Done (tt, w2) /\
    m_pShaderManager w2 = Some sh' /\
    uniform g_TextureValueName sh' = Some (Sampler2DValue slot) /\
    0 <= slot < m_loadedTextures w /\
    nth_error (m_textureIDs w) (Z.to_nat slot) = Some e /\
    TEXTURE_INFO.tag e = tag /\
    (forall (k : nat) (x : TEXTURE_INFO.t),
       (k < Z.to_nat slot)%nat -> nth_error (m_textureIDs w) k = Some x ->
       TEXTURE_INFO.tag x <> tag) /\
    texture_on_unit (GL_TEXTURE0 + slot) (trace w2)
    = Some (TEXTURE_INFO.ID e).
Proof.
  intros Hok Hsh Reg.
  destruct (BindGLTextures_run w Hok)
    as (w1 & E1 & ST & (SR & _) & _ & _ & Units).
  destruct (same_table_loaded _ _ ST) as [L Hok1]. specialize (Hok1 Hok).
  rewrite <- SR in Hsh.
  destruct (FindTextureSlot_found_or_missing w tag Hok)
    as (slot & ES & [[_ Miss]|(Rg & (e & N & T) & First)]); [contradiction|].
  rewrite FindTextureSlot_run in ES by assumption. injection ES as ES.
  exists w1. eexists. eexists. exists slot, e.
  split; [exact E1|].
  split; [exact (SetShaderTexture_run w1 sh tag Hsh Hok1)|].
  split; [reflexivity|].
  split; [simpl; unfold slot_of; rewrite L; fold (slot_of tag w);
          now rewrite ES|].
  split; [exact Rg|].
  split; [assumption|]. split; [assumption|]. split; [exact First|].
  simpl. rewrite <- (Z2Nat.id slot) at 1 by lia.
  apply Units; [lia | assumption].
Qed.

Local Transparent GL_TEXTURE0.

Lemma sampler_designates_bound_texture_witness :
  (table_ok sand_twice /\ m_pShaderManager sand_twice = Some [] /\
   In "sand" (registered_tags sand_twice)) /\
  exists w1 w2 sh' slot e,
    BindGLTextures sand_twice = Done (tt, w1) /\
    SetShaderTexture "sand" w1 = Done (tt, w2) /\
    m_pShaderManager w2 = Some sh' /\
    uniform g_TextureValueName sh' = Some (Sampler2DValue slot) /\
    0 <= slot < m_loadedTextures sand_twice /\
    nth_error (m_textureIDs sand_twice) (Z.to_nat slot) = Some e /\
    TEXTURE_INFO.tag e = "sand" /\
    (forall (k : nat) (x : TEXTURE_INFO.t),
       (k < Z.to_nat slot)%nat ->
       nth_error (m_textureIDs sand_twice) k = Some x ->
       TEXTURE_INFO.tag x <> "sand") /\
    texture_on_unit (GL_TEXTURE0 + slot) (trace w2)
    = Some (TEXTURE_INFO.ID e).
Proof.
  assert (T : table_ok sand_twice) by (vm_compute; intro H; discriminate H).
  assert (P : m_pShaderManager sand_twice = Some []) by reflexivity.
  assert (R : In "sand" (registered_tags sand_twice))
    by (vm_compute; tauto).
  exact (conj (conj T (conj P R))
              (sampler_designates_bound_texture sand_twice [] "sand"
                 T P R)).
Defined.

(** ** Relations kept by the primitives and by composition *)

Section Keeps.
Context (Rel : World -> World -> Prop) `{Frame Rel}.

Lemma keeps_ret {A} (a : A) : keeps Rel (ret a).
Proof. intros w x w' E. inversion E; subst. apply frame_refl. Qed.

Lemma keeps_fail {A} (f : fault) : keeps Rel (@fail A f).
Proof. intros w x w' E. discriminate. Qed.

Lemma keeps_gets {A} (proj : World -> A) : keeps Rel (gets proj).
Proof. intros w x w' E. inversion E; subst. apply frame_refl. Qed.

Lemma keeps_modify (f : World -> World) :
  (forall w, Rel w (f w)) -> keeps Rel (modify f).
Proof. intros Hf w x w' E. inversion E; subst. apply Hf. Qed.

Lemma keeps_bind {A B} (m : M A) (k : A -> M B) :
  keeps Rel m -> (forall a, keeps Rel (k a)) -> keeps Rel (bind m k).
Proof.
  intros Hm Hk w b w' E. unfold bind in E.
  destruct (m w) as [[a w1]|] eqn:E1; [|discriminate].
  exact (frame_trans _ _ _ (Hm _ _ _ E1) (Hk _ _ _ _ E)).
Qed.

Lemma keeps_while {S} (cond : S -> bool) (body : S -> M S) :
  (forall s, keeps Rel (body s)) ->
  forall (fuel : nat) (s : S), keeps Rel (while fuel cond body s).
Proof.
  intros Hb fuel. induction fuel as [|fuel IH]; intro s; cbn [while].
  - destruct (cond s); [apply keeps_fail | apply keeps_ret].
  - destruct (cond s); [|apply keeps_ret].
    apply keeps_bind; [apply Hb | exact IH].
Qed.

Lemma keeps_for_loop (body : Z -> M unit) :
  (forall i, keeps Rel (body i)) ->
  forall (count : nat) (i : Z), keeps Rel (for_loop count i body).
Proof.
  intros Hb count. induction count as [|count IH]; intro i; cbn [for_loop].
  - apply keeps_ret.
  - apply keeps_bind; [apply Hb | intro; apply IH].
Qed.

Lemma keepsR_ret {A} (a : A) : keepsR Rel (retR a).
Proof. intros s x s' E. inversion E; subst. apply frame_refl. Qed.

Lemma keepsR_lift {A} (m : M A) : keeps Rel m -> keepsR Rel (lift m).
Proof.
  intros Hm s a s' E. unfold lift in E.
  destruct (m (fst s)) as [[x w1]|] eqn:E1; [|discriminate].
  inversion E; subst. exact (Hm _ _ _ E1).
Qed.

Lemma keepsR_mesh (c : MeshCall) : keepsR Rel (mesh c).
Proof. intros s x s' E. inversion E; subst. apply frame_refl. Qed.

Lemma keepsR_bind {A B} (m : MR A) (k : A -> MR B) :
  keepsR Rel m -> (forall a, keepsR Rel (k a)) -> keepsR Rel (bindR m k).
Proof.
  intros Hm Hk s b s' E. unfold bindR in E.
  destruct (m s) as [[a s1]|] eqn:E1; [|discriminate].
  exact (frame_trans _ _ _ (Hm _ _ _ E1) (Hk _ _ _ _ E)).
Qed.

Lemma keepsR_for_loop (body : Z -> MR unit) :
  (forall i, keepsR Rel (body i)) ->
  forall (count : nat) (i : Z), keepsR Rel (for_loopR count i body).
Proof.
  intros Hb count. induction count as [|count IH]; intro i; cbn [for_loopR].
  - apply keepsR_ret.
  - apply keepsR_bind; [apply Hb | intro; apply IH].
Qed.
End Keeps.

Lemma keeps_weaken {A} (Rel Rel' : World -> World -> Prop) (m : M A) :
  (forall w w', Rel w w' -> Rel' w w') -> keeps Rel m -> keeps Rel' m.
Proof. intros Hw Hm w a w' E. exact (Hw _ _ (Hm _ _ _ E)). Qed.

Create HintDb keeps.

Ltac frame_goal :=
  match goal with
  | |- Frame _ => typeclasses eauto
  | _ => idtac
  end.

(** Decomposing a method into its primitives; [side] settles what a
    [modify] does to the relation. *)
Ltac keeps_steps side :=
  repeat first
    [ solve [auto with keeps]
    | apply keeps_ret; frame_goal
    | apply keeps_fail
    | apply keeps_gets; frame_goal
    | apply keeps_bind; frame_goal; [ | intro ]
    | apply keeps_while; frame_goal; intro
    | apply keeps_for_loop; frame_goal; intro
    | apply keeps_modify; side
    | match goal with
      | |- keeps _ (match ?x with _ => _ end) => destruct x
      end
    | progress cbv beta zeta ].

Ltac keepsR_steps :=
  repeat first
    [ apply keepsR_ret; frame_goal
    | apply keepsR_mesh; frame_goal
    | apply keepsR_lift; solve [auto with keeps]
    | apply keepsR_bind; frame_goal; [ | intro ]
    | apply keepsR_for_loop; frame_goal; intro
    | match goal with
      | |- keepsR _ (match ?x with _ => _ end) => destruct x
      end
    | progress cbv beta zeta ].

Ltac unfold_primitives :=
  unfold call, stbi_load, gen_texture, set_uniform, setIntValue, setBoolValue,
    setFloatValue, setVec2Value, setVec3Value, setVec4Value, setMat4Value,
    setSampler2DValue, textureIDs_at, textureIDs_store, objectMaterials_at,
    for_range.

#[export] Instance no_delete_since_frame : Frame no_delete_since.
Proof.
  split.
  - intro w. exists []. split; [reflexivity | simpl; tauto].
  - intros w1 w2 w3 (n1 & E1 & D1) (n2 & E2 & D2).
    exists (n2 ++ n1)%list. split.
    + now rewrite E2, E1, app_assoc.
    + intros name Hin. apply in_app_or in Hin.
      destruct Hin as [Hin|Hin]; [exact (D2 _ Hin) | exact (D1 _ Hin)].
Qed.

#[export] Instance only_shader_frame : Frame only_shader.
Proof.
  split.
  - intro w. repeat split.
  - intros w1 w2 w3 (A1 & A2 & A3 & A4 & A5 & A6) (B1 & B2 & B3 & B4 & B5 & B6).
    unfold only_shader. rewrite B1, B2, B3, B4, B5, B6. tauto.
Qed.

#[export] Instance others_kept_frame (names : list string) : Frame (others_kept names).
Proof.
  split.
  - intros w name _. reflexivity.
  - intros w1 w2 w3 H1 H2 name Hn. now rewrite H2, H1.
Qed.

#[export] Instance table_extended_frame : Frame table_extended.
Proof.
  split.
  - intros w Hok. split; [assumption|]. exists []. now rewrite app_nil_r.
  - intros w1 w2 w3 H1 H2 Hok.
    destruct (H1 Hok) as (Hok2 & a1 & E1).
    destruct (H2 Hok2) as (Hok3 & a2 & E2).
    split; [assumption|]. exists (a1 ++ a2)%list.
    now rewrite E2, E1, app_assoc.
Qed.

(** ** No method deletes a texture *)

Ltac no_delete_side :=
  idtac; intro;
  first [ exists []; split; [reflexivity | simpl; tauto]
        | eexists [_]; split; [reflexivity | simpl; intuition discriminate] ].

Lemma no_delete_CreateGLTexture (filename tag : string) :
  keeps no_delete_since (CreateGLTexture filename tag).
Proof.
  unfold CreateGLTexture. unfold_primitives. keeps_steps no_delete_side.
Qed.

Lemma no_delete_BindGLTextures : keeps no_delete_since BindGLTextures.
Proof.
  unfold BindGLTextures. unfold_primitives. keeps_steps no_delete_side.
Qed.

Lemma no_delete_DestroyGLTextures : keeps no_delete_since DestroyGLTextures.
Proof.
  unfold DestroyGLTextures. unfold_primitives. keeps_steps no_delete_side.
Qed.

Lemma no_delete_FindTextureID (tag : string) :
  keeps no_delete_since (FindTextureID tag).
Proof.
  unfold FindTextureID. unfold_primitives. keeps_steps no_delete_side.
Qed.

Lemma no_delete_FindTextureSlot (tag : string) :
  keeps no_delete_since (FindTextureSlot tag).
Proof.
  unfold FindTextureSlot. unfold_primitives. keeps_steps no_delete_side.
Qed.

Lemma no_delete_FindMaterial (tag : string) (material : OBJECT_MATERIAL.t) :
  keeps no_delete_since (FindMaterial tag material).
Proof.
  unfold FindMaterial. unfold_primitives. keeps_steps no_delete_side.
Qed.

#[export] Hint Resolve no_delete_CreateGLTexture no_delete_BindGLTextures
  no_delete_DestroyGLTextures no_delete_FindTextureID
  no_delete_FindTextureSlot no_delete_FindMaterial : keeps.

Lemma no_delete_uniform_call (c : uniform_call) :
  keeps no_delete_since (run_uniform_call c).
Proof.
  destruct c; cbn [run_uniform_call];
    unfold SetTransformations, SetShaderColor, SetShaderTexture,
      SetTextureUVScale, SetShaderMaterial, SetupSceneLights;
    unfold_primitives; keeps_steps no_delete_side.
Qed.

Lemma no_delete_LoadSceneTextures : keeps no_delete_since LoadSceneTextures.
Proof. unfold LoadSceneTextures. keeps_steps no_delete_side. Qed.

Lemma no_delete_DefineObjectMaterials (u : OBJECT_MATERIAL.t) :
  keeps no_delete_since (DefineObjectMaterials u).
Proof. unfold DefineObjectMaterials. keeps_steps no_delete_side. Qed.

#[export] Hint Resolve no_delete_uniform_call no_delete_LoadSceneTextures
  no_delete_DefineObjectMaterials : keeps.

Lemma no_delete_helpers :
  (forall s x y z p, keeps no_delete_since (SetTransformations s x y z p)) /\
  (forall r g b a, keeps no_delete_since (SetShaderColor r g b a)) /\
  (forall t, keeps no_delete_since (SetShaderTexture t)) /\
  (forall u v, keeps no_delete_since (SetTextureUVScale u v)) /\
  (forall t u, keeps no_delete_since (SetShaderMaterial t u)) /\
  keeps no_delete_since SetupSceneLights.
Proof.
  repeat split; intros.
  - apply (no_delete_uniform_call (CallSetTransformations s x y z p)).
  - apply (no_delete_uniform_call (CallSetShaderColor r g b a)).
  - apply (no_delete_uniform_call (CallSetShaderTexture t)).
  - apply (no_delete_uniform_call (CallSetTextureUVScale u v)).
  - apply (no_delete_uniform_call (CallSetShaderMaterial t u)).
  - apply (no_delete_uniform_call CallSetupSceneLights).
Qed.

Lemma no_delete_SetTransformations s x y z p :
  keeps no_delete_since (SetTransformations s x y z p).
Proof. apply no_delete_helpers. Qed.
Lemma no_delete_SetShaderColor r g b a :
  keeps no_delete_since (SetShaderColor r g b a).
Proof. apply no_delete_helpers. Qed.
Lemma no_delete_SetShaderTexture t :
  keeps no_delete_since (SetShaderTexture t).
Proof. apply no_delete_helpers. Qed.
Lemma no_delete_SetTextureUVScale u v :
  keeps no_delete_since (SetTextureUVScale u v).
Proof. apply no_delete_helpers. Qed.
Lemma no_delete_SetShaderMaterial t u :
  keeps no_delete_since (SetShaderMaterial t u).
Proof. apply no_delete_helpers. Qed.
Lemma no_delete_SetupSceneLights : keeps no_delete_since SetupSceneLights.
Proof. apply no_delete_helpers. Qed.

#[export] Hint Resolve no_delete_SetTransformations no_delete_SetShaderColor
  no_delete_SetShaderTexture no_delete_SetTextureUVScale
  no_delete_SetShaderMaterial no_delete_SetupSceneLights : keeps.

Lemma no_delete_PrepareScene (u : OBJECT_MATERIAL.t) :
  keepsR no_delete_since (PrepareScene u).
Proof. unfold PrepareScene. keepsR_steps. Qed.

Lemma no_delete_RenderScene (u : OBJECT_MATERIAL.t) :
  keepsR no_delete_since (RenderScene u).
Proof. unfold RenderScene, for_rangeR. keepsR_steps. Qed.

Lemma no_delete_run_method (c : method_call) :
  keepsR no_delete_since (run_method c).
Proof.
  destruct c; cbn [run_method];
    try (apply keepsR_lift; keeps_steps no_delete_side).
  - apply no_delete_PrepareScene.
  - apply no_delete_RenderScene.
Qed.

Lemma keepsR_run_methods (Rel : World -> World -> Prop) `{Frame Rel} :
  (forall c, keepsR Rel (run_method c)) ->
  forall calls, keepsR Rel (run_methods calls).
Proof.
  intros Hc calls. induction calls as [|c calls IH]; cbn [run_methods].
  - apply keepsR_ret; assumption.
  - apply keepsR_bind; [assumption | apply Hc | intro; exact IH].
Qed.

(** A trace extended without [glDeleteTextures] loses no texture name. *)
Lemma live_textures_grow (new old : list Event) (x : Z) :
  (forall name, ~ In (glDeleteTextures name) new) ->
  In x (live_textures old) -> In x (live_textures (new ++ old)).
Proof.
  induction new as [|e new IH]; intros ND Hx; [assumption|].
  assert (IH' : In x (live_textures (new ++ old))).
  { apply IH; [|assumption]. intros name Hin. apply (ND name). now right. }
  destruct e; simpl; auto.
  exfalso. apply (ND name). now left.
Qed.

(** X10.  Whatever sequence of methods of the scene manager is run, if it
    completes, the calls it added to the trace contain no
    [glDeleteTextures], and every texture name that existed in the context
    before still exists after: nothing in the class releases a texture. *)
Theorem no_method_deletes_a_texture (calls : list method_call)
  (s s' : Stage) :
  run_methods calls s = Done (tt, s') ->
  (exists new,
     trace (fst s') = (new ++ trace (fst s))%list /\
     forall name, ~ In (glDeleteTextures name) new) /\
  forall name,
    In name (live_textures (trace (fst s))) ->
    In name (live_textures (trace (fst s'))).
Proof.
  intro E.
  pose proof (keepsR_run_methods no_delete_since no_delete_run_method
                calls s tt s' E) as (new & T & ND).
  split; [exists new; auto|].
  intros name Hin. rewrite T. now apply live_textures_grow.
Qed.

Lemma no_method_deletes_a_texture_witness :
  run_methods [CallLoadSceneTextures; CallDestroyGLTextures] fresh_stage
  = Done (tt, stage_after
                (run_methods [CallLoadSceneTextures; CallDestroyGLTextures])
                fresh_stage) /\
  ((exists new,
      trace (fst (stage_after
                    (run_methods [CallLoadSceneTextures;
                                  CallDestroyGLTextures]) fresh_stage))
      = (new ++ trace (fst fresh_stage))%list /\
      forall name, ~ In (glDeleteTextures name) new) /\
   forall name,
     In name (live_textures (trace (fst fresh_stage))) ->
     In name (live_textures
                (trace (fst (stage_after
                               (run_methods [CallLoadSceneTextures;
                                             CallDestroyGLTextures])
                               fresh_stage))))).
Proof.
  assert (E : run_methods [CallLoadSceneTextures; CallDestroyGLTextures]
                fresh_stage
              = Done (tt, stage_after
                            (run_methods [CallLoadSceneTextures;
                                          CallDestroyGLTextures])
                            fresh_stage))
    by (vm_compute; reflexivity).
  exact (conj E (no_method_deletes_a_texture _ _ _ E)).
Defined.

(** ** What the uniform calls change *)

Ltac only_shader_side :=
  idtac; intro; unfold only_shader; simpl; tauto.

Lemma only_shader_textureIDs_at (i : Z) : keeps only_shader (textureIDs_at i).
Proof. unfold textureIDs_at. keeps_steps only_shader_side. Qed.

Lemma only_shader_objectMaterials_at (i : Z) :
  keeps only_shader (objectMaterials_at i).
Proof. unfold objectMaterials_at. keeps_steps only_shader_side. Qed.

Lemma only_shader_set_uniform (name : string) (v : uniform_value) :
  keeps only_shader (set_uniform name v).
Proof. unfold set_uniform. keeps_steps only_shader_side. Qed.

#[export] Hint Resolve only_shader_textureIDs_at
  only_shader_objectMaterials_at only_shader_set_uniform : keeps.

Lemma only_shader_FindTextureSlot (tag : string) :
  keeps only_shader (FindTextureSlot tag).
Proof. unfold FindTextureSlot. keeps_steps only_shader_side. Qed.

Lemma only_shader_FindTextureID (tag : string) :
  keeps only_shader (FindTextureID tag).
Proof. unfold FindTextureID. keeps_steps only_shader_side. Qed.

Lemma only_shader_FindMaterial (tag : string) (m : OBJECT_MATERIAL.t) :
  keeps only_shader (FindMaterial tag m).
Proof. unfold FindMaterial. keeps_steps only_shader_side. Qed.

#[export] Hint Resolve only_shader_FindTextureSlot only_shader_FindTextureID
  only_shader_FindMaterial : keeps.

Ltac unfold_uniform_call :=
  unfold SetTransformations, SetShaderColor, SetShaderTexture,
    SetTextureUVScale, SetShaderMaterial, SetupSceneLights,
    setIntValue, setBoolValue, setFloatValue, setVec2Value, setVec3Value,
    setVec4Value, setMat4Value, setSampler2DValue.

Lemma only_shader_uniform_call (c : uniform_call) :
  keeps only_shader (run_uniform_call c).
Proof.
  destruct c; cbn [run_uniform_call]; unfold_uniform_call;
    keeps_steps only_shader_side.
Qed.

Lemma uniform_other (name n : string) (v : uniform_value)
  (sh : ShaderManager) :
  n <> name -> uniform name ((n, v) :: sh) = uniform name sh.
Proof.
  intro Ne. cbn [uniform].
  destruct (String.eqb n name) eqn:Q; [|reflexivity].
  apply String.eqb_eq in Q. contradiction.
Qed.

Lemma others_kept_set_uniform (names : list string) (n : string)
  (v : uniform_value) :
  In n names -> keeps (others_kept names) (set_uniform n v).
Proof.
  intros Hin w x w' E name Hname. unfold set_uniform, bind, gets in E.
  destruct (m_pShaderManager w) as [sh|] eqn:P; [|discriminate].
  inversion E; subst. unfold uniform_of. rewrite P. simpl.
  apply uniform_other. intros ->. contradiction.
Qed.

#[export] Instance unchanged_frame : Frame (@eq World).
Proof. split; [reflexivity | intros; congruence]. Qed.

(** The three lookups leave the state as it is. *)
Lemma FindTextureSlot_unchanged (tag : string) :
  keeps eq (FindTextureSlot tag).
Proof.
  unfold FindTextureSlot, textureIDs_at. keeps_steps ltac:(idtac; fail).
Qed.

Lemma FindTextureID_unchanged (tag : string) : keeps eq (FindTextureID tag).
Proof.
  unfold FindTextureID, textureIDs_at. keeps_steps ltac:(idtac; fail).
Qed.

Lemma FindMaterial_unchanged (tag : string) (m : OBJECT_MATERIAL.t) :
  keeps eq (FindMaterial tag m).
Proof.
  unfold FindMaterial, objectMaterials_at. keeps_steps ltac:(idtac; fail).
Qed.

Lemma others_kept_FindTextureSlot (names : list string) (tag : string) :
  keeps (others_kept names) (FindTextureSlot tag).
Proof.
  apply (keeps_weaken eq); [|apply FindTextureSlot_unchanged].
  intros w w' <- name _. reflexivity.
Qed.

Lemma others_kept_FindMaterial (names : list string) (tag : string)
  (m : OBJECT_MATERIAL.t) :
  keeps (others_kept names) (FindMaterial tag m).
Proof.
  apply (keeps_weaken eq); [|apply FindMaterial_unchanged].
  intros w w' <- name _. reflexivity.
Qed.

#[export] Hint Resolve others_kept_FindTextureSlot others_kept_FindMaterial
  : keeps.
#[export] Hint Extern 1 (keeps (others_kept _) (set_uniform _ _)) =>
  apply others_kept_set_uniform; simpl; auto 20 : keeps.

Lemma others_kept_uniform_call (c : uniform_call) :
  keeps (others_kept (uniforms_written c)) (run_uniform_call c).
Proof.
  destruct c; cbn [run_uniform_call uniforms_written]; unfold_uniform_call;
    keeps_steps ltac:(idtac; fail).
Qed.

(** X11.  Each of [SetTransformations], [SetShaderColor],
    [SetShaderTexture], [SetTextureUVScale], [SetShaderMaterial] and
    [SetupSceneLights], when it completes, has changed nothing but the
    shader manager (not the texture table, the materials or the OpenGL
    context), and in the shader manager every uniform other than the ones
    it names holds the value it held before. *)
Theorem uniform_call_frame (c : uniform_call) (w w' : World) :
  run_uniform_call c w = Done (tt, w') ->
  only_shader w w' /\
  forall name,
    ~ In name (uniforms_written c) -> uniform_of w' name = uniform_of w name.
Proof.
  intro E. split.
  - exact (only_shader_uniform_call c w tt w' E).
  - exact (others_kept_uniform_call c w tt w' E).
Qed.

Lemma uniform_call_frame_witness :
  run_uniform_call (CallSetShaderColor 1 0 0 1) loaded_scene
  = Done (tt, after (SetShaderColor 1 0 0 1) loaded_scene) /\
  (only_shader loaded_scene (after (SetShaderColor 1 0 0 1) loaded_scene) /\
   forall name,
     ~ In name (uniforms_written (CallSetShaderColor 1 0 0 1)) ->
     uniform_of (after (SetShaderColor 1 0 0 1) loaded_scene) name
     = uniform_of loaded_scene name).
Proof.
  assert (E : run_uniform_call (CallSetShaderColor 1 0 0 1) loaded_scene
              = Done (tt, after (SetShaderColor 1 0 0 1) loaded_scene))
    by reflexivity.
  exact (conj E (uniform_call_frame _ _ _ E)).
Defined.

(** ** The registered tags are only ever extended *)

Lemma only_shader_table_extended (w w' : World) :
  only_shader w w' -> table_extended w w'.
Proof.
  intros (N & T & _) Hok. unfold table_ok, registered_tags, loaded.
  rewrite N, T. split; [exact Hok|]. exists []. now rewrite app_nil_r.
Qed.

Lemma unchanged_table_extended (w w' : World) : w = w' -> table_extended w w'.
Proof. intros <-. apply frame_refl. Qed.

Lemma table_extended_CreateGLTexture (filename tag : string) :
  keeps table_extended (CreateGLTexture filename tag).
Proof.
  intros w b w' E Hok.
  destruct (CreateGLTexture_loaded _ _ _ _ _ Hok E) as (Hok' & added & L & _).
  split; [assumption|]. exists (map TEXTURE_INFO.tag added).
  unfold registered_tags. now rewrite L, map_app.
Qed.

Lemma table_extended_BindGLTextures : keeps table_extended BindGLTextures.
Proof.
  intros w x w' E Hok.
  destruct (BindGLTextures_run w Hok) as (w1 & E1 & ST & _).
  rewrite E1 in E. inversion E; subst.
  destruct (same_table_loaded _ _ ST) as [L Hok'].
  split; [auto|]. exists []. unfold registered_tags.
  now rewrite L, app_nil_r.
Qed.

Lemma map_tag_update_nth_set_ID (n : nat) (name : Z)
  (a : list TEXTURE_INFO.t) :
  map TEXTURE_INFO.tag (update_nth n (set_ID name) a)
  = map TEXTURE_INFO.tag a.
Proof.
  revert n. induction a as [|e a IH]; intros [|n]; simpl; auto.
  now rewrite IH.
Qed.

Lemma map_tag_regenerate (count : nat) :
  forall (i : nat) (name : Z) (a : list TEXTURE_INFO.t),
    map TEXTURE_INFO.tag (regenerate count i name a)
    = map TEXTURE_INFO.tag a.
Proof.
  induction count as [|c IH]; intros i name a; cbn [regenerate];
    [reflexivity|].
  now rewrite IH, map_tag_update_nth_set_ID.
Qed.

Lemma table_extended_DestroyGLTextures :
  keeps table_extended DestroyGLTextures.
Proof.
  intros w x w' E Hok. unfold table_ok in Hok.
  assert (R : DestroyGLTextures w
              = for_loop (Z.to_nat (m_loadedTextures w)) (Z.of_nat 0)
                  (fun i => _ <- textureIDs_at i ;;
                            name <- gen_texture ;;
                            textureIDs_store i (set_ID name)) w).
  { unfold DestroyGLTextures. unfold bind at 1. unfold gets at 1.
    cbv beta iota. unfold for_range. now rewrite Z.sub_0_r. }
  rewrite R, destroy_loop_run in E by (simpl; lia).
  inversion E; subst. clear E R.
  unfold table_ok, registered_tags, loaded. simpl.
  rewrite length_regenerate. split; [exact Hok|].
  exists []. rewrite app_nil_r, <- !firstn_map. f_equal.
  apply map_tag_regenerate.
Qed.

Lemma table_extended_FindTextureID (tag : string) :
  keeps table_extended (FindTextureID tag).
Proof.
  exact (keeps_weaken eq _ _ unchanged_table_extended
           (FindTextureID_unchanged tag)).
Qed.

Lemma table_extended_FindTextureSlot (tag : string) :
  keeps table_extended (FindTextureSlot tag).
Proof.
  exact (keeps_weaken eq _ _ unchanged_table_extended
           (FindTextureSlot_unchanged tag)).
Qed.

Lemma table_extended_FindMaterial (tag : string) (m : OBJECT_MATERIAL.t) :
  keeps table_extended (FindMaterial tag m).
Proof.
  exact (keeps_weaken eq _ _ unchanged_table_extended
           (FindMaterial_unchanged tag m)).
Qed.

Lemma table_extended_uniform_call (c : uniform_call) :
  keeps table_extended (run_uniform_call c).
Proof.
  exact (keeps_weaken only_shader _ _ only_shader_table_extended
           (only_shader_uniform_call c)).
Qed.

Lemma table_extended_DefineObjectMaterials (u : OBJECT_MATERIAL.t) :
  keeps table_extended (DefineObjectMaterials u).
Proof.
  intros w x w' E Hok. inversion E; subst.
  split; [exact Hok|]. exists []. now rewrite app_nil_r.
Qed.

#[export] Hint Resolve table_extended_CreateGLTexture
  table_extended_BindGLTextures table_extended_DestroyGLTextures
  table_extended_FindTextureID table_extended_FindTextureSlot
  table_extended_FindMaterial table_extended_uniform_call
  table_extended_DefineObjectMaterials : keeps.

Lemma table_extended_SetTransformations s x y z p :
  keeps table_extended (SetTransformations s x y z p).
Proof. exact (table_extended_uniform_call (CallSetTransformations s x y z p)). Qed.
Lemma table_extended_SetShaderColor r g b a :
  keeps table_extended (SetShaderColor r g b a).
Proof. exact (table_extended_uniform_call (CallSetShaderColor r g b a)). Qed.
Lemma table_extended_SetShaderTexture t :
  keeps table_extended (SetShaderTexture t).
Proof. exact (table_extended_uniform_call (CallSetShaderTexture t)). Qed.
Lemma table_extended_SetTextureUVScale u v :
  keeps table_extended (SetTextureUVScale u v).
Proof. exact (table_extended_uniform_call (CallSetTextureUVScale u v)). Qed.
Lemma table_extended_SetShaderMaterial t u :
  keeps table_extended (SetShaderMaterial t u).
Proof. exact (table_extended_uniform_call (CallSetShaderMaterial t u)). Qed.
Lemma table_extended_SetupSceneLights :
  keeps table_extended SetupSceneLights.
Proof. exact (table_extended_uniform_call CallSetupSceneLights). Qed.

Lemma table_extended_LoadSceneTextures :
  keeps table_extended LoadSceneTextures.
Proof. unfold LoadSceneTextures. keeps_steps ltac:(idtac; fail). Qed.

#[export] Hint Resolve table_extended_SetTransformations
  table_extended_SetShaderColor table_extended_SetShaderTexture
  table_extended_SetTextureUVScale table_extended_SetShaderMaterial
  table_extended_SetupSceneLights table_extended_LoadSceneTextures : keeps.

Lemma table_extended_run_method (c : method_call) :
  keepsR table_extended (run_method c).
Proof.
  destruct c; cbn [run_method];
    try (apply keepsR_lift; keeps_steps ltac:(idtac; fail)).
  - unfold PrepareScene. keepsR_steps.
  - unfold RenderScene, for_rangeR. keepsR_steps.
Qed.

Lemma first_hit_tags {A} (tag_of : A -> string) (tag : string)
  (l : list A) (i : Z) :
  option_map fst (first_hit tag_of tag l i)
  = option_map fst (first_hit (fun t => t) tag (map tag_of l) i).
Proof.
  revert i. induction l as [|e l IH]; intro i; [reflexivity|].
  cbn [map first_hit]. destruct (String.eqb (tag_of e) tag); [reflexivity|].
  apply IH.
Qed.

Lemma slot_of_tags (t : string) (w : World) :
  slot_of t w
  = match option_map fst (first_hit (fun t => t) t (registered_tags w) 0) with
    | Some j => j
    | None => -1
    end.
Proof.
  unfold registered_tags. rewrite <- first_hit_tags. unfold slot_of.
  now destruct (first_hit TEXTURE_INFO.tag t (loaded w) 0) as [[j e]|].
Qed.

(** X12.  Whatever sequence of methods is run from a state whose count is
    inside the array, if it completes the count is still inside the array
    and the registered tags are the old ones, in their slots, followed by
    new ones: no method removes or moves a registered tag, and
    [FindTextureSlot] keeps returning the same slot for it. *)
Theorem registered_tags_only_extended (calls : list method_call)
  (s s' : Stage) :
  table_ok (fst s) ->
  run_methods calls s = Done (tt, s') ->
  table_ok (fst s') /\
  (exists added,
     registered_tags (fst s') = (registered_tags (fst s) ++ added)%list) /\
  forall (t : string) (slot : Z),
    In t (registered_tags (fst s)) ->
    FindTextureSlot t (fst s) = Done (slot, fst s) ->
    FindTextureSlot t (fst s') = Done (slot, fst s').
Proof.
  intros Hok E.
  destruct (keepsR_run_methods table_extended table_extended_run_method
              calls s tt s' E Hok) as (Hok' & added & L).
  split; [assumption|]. split; [eauto|].
  intros t slot Reg HS.
  rewrite FindTextureSlot_run in HS by assumption. inversion HS as [HS'].
  rewrite FindTextureSlot_run by assumption. do 2 f_equal.
  rewrite !slot_of_tags, L.
  rewrite first_hit_app_left; [reflexivity|].
  now rewrite map_id.
Qed.

Lemma registered_tags_only_extended_witness :
  (table_ok (fst loaded_stage) /\
   run_methods [CallDestroyGLTextures;
                CallCreateGLTexture "textures/icon.png" "sand"] loaded_stage
   = Done (tt, stage_after
                 (run_methods [CallDestroyGLTextures;
                               CallCreateGLTexture "textures/icon.png" "sand"])
                 loaded_stage)) /\
  let s' := stage_after
              (run_methods [CallDestroyGLTextures;
                            CallCreateGLTexture "textures/icon.png" "sand"])
              loaded_stage in
  table_ok (fst s') /\
  (exists added,
     registered_tags (fst s')
     = (registered_tags (fst loaded_stage) ++ added)%list) /\
  forall (t : string) (slot : Z),
    In t (registered_tags (fst loaded_stage)) ->
    FindTextureSlot t (fst loaded_stage) = Done (slot, fst loaded_stage) ->
    FindTextureSlot t (fst s') = Done (slot, fst s').
Proof.
  assert (T : table_ok (fst loaded_stage))
    by (vm_compute; intro H; discriminate H).
  assert (E : run_methods [CallDestroyGLTextures;
                CallCreateGLTexture "textures/icon.png" "sand"] loaded_stage
              = Done (tt, stage_after
                   (run_methods [CallDestroyGLTextures;
                      CallCreateGLTexture "textures/icon.png" "sand"])
                   loaded_stage))
    by (vm_compute; reflexivity).
  exact (conj (conj T E) (registered_tags_only_extended _ _ _ T E)).
Defined.

(** ** Loading the scene textures *)

Lemma registered_tags_after_register (w w' : World) (name : Z)
  (tag : string) :
  in_bounds (m_textureIDs w) (m_loadedTextures w) = true ->
  m_loadedTextures w' = m_loadedTextures w + 1 ->
  m_textureIDs w'
  = update_nth (Z.to_nat (m_loadedTextures w))
               (fun e => set_tag tag (set_ID name e)) (m_textureIDs w) ->
  registered_tags w' = (registered_tags w ++ [tag])%list.
Proof.
  intros B N T. destruct (loaded_after_register _ _ _ _ B N T) as [L _].
  unfold registered_tags. now rewrite L, map_app.
Qed.

(** One call with a free slot: the flag tells whether the file was
    registered, under its tag, in the next slot. *)
Lemma CreateGLTexture_step (w : World) (filename tag : string) :
  in_bounds (m_textureIDs w) (m_loadedTextures w) = true ->
  exists w',
    CreateGLTexture filename tag w = Done (loads (disk w) filename, w') /\
    m_loadedTextures w'
    = m_loadedTextures w + (if loads (disk w) filename then 1 else 0) /\
    length (m_textureIDs w') = length (m_textureIDs w) /\
    registered_tags w'
    = (registered_tags w
       ++ (if loads (disk w) filename then [tag] else []))%list /\
    same_rest w w'.
Proof.
  intro B. rewrite CreateGLTexture_cases. unfold loads, same_rest.
  destruct (disk w filename) as [img|].
  - destruct ((colorChannels img =? 3) || (colorChannels img =? 4)).
    + rewrite in_bounds_update_nth, B, update_nth_twice.
      eexists. split; [reflexivity|].
      split; [reflexivity|].
      split; [simpl; apply length_update_nth|].
      split; [|simpl; tauto].
      apply (registered_tags_after_register w _ (gl_next_name w));
        [exact B | reflexivity | reflexivity].
    + eexists. split; [reflexivity|]. simpl.
      rewrite Z.add_0_r, app_nil_r. tauto.
  - eexists. split; [reflexivity|]. simpl.
    rewrite Z.add_0_r, app_nil_r. tauto.
Qed.

(** A run of registrations that fits in the free slots: every call
    returns, and the files that decode with 3 or 4 channels are registered
    in call order. *)
Lemma register_all_run (calls : list (string * string)) :
  forall (w : World),
    0 <= m_loadedTextures w ->
    m_loadedTextures w + Z.of_nat (length calls)
    <= Z.of_nat (length (m_textureIDs w)) ->
    exists w',
      register_all calls w
      = Done (map (fun c => loads (disk w) (fst c)) calls, w') /\
      registered_tags w'
      = (registered_tags w
         ++ map snd (filter (fun c => loads (disk w) (fst c)) calls))%list /\
      table_ok w' /\ 0 <= m_loadedTextures w' /\
      m_loadedTextures w' <= m_loadedTextures w + Z.of_nat (length calls) /\
      length (m_textureIDs w') = length (m_textureIDs w) /\
      same_rest w w'.
Proof.
  induction calls as [|[filename tag] calls IH]; intros w Pos Room.
  - exists w. cbn [register_all map filter length]. unfold ret.
    rewrite app_nil_r. unfold table_ok, same_rest. simpl in Room.
    repeat split; try reflexivity; lia.
  - cbn [length] in Room.
    assert (B : in_bounds (m_textureIDs w) (m_loadedTextures w) = true).
    { unfold in_bounds. apply andb_true_iff.
      split; [apply Z.leb_le | apply Z.ltb_lt]; lia. }
    destruct (CreateGLTexture_step w filename tag B)
      as (w1 & E1 & N1 & L1 & T1 & (S1 & M1 & D1)).
    assert (N1' : m_loadedTextures w <= m_loadedTextures w1
                  <= m_loadedTextures w + 1).
    { rewrite N1. destruct (loads (disk w) filename); lia. }
    destruct (IH w1) as (w2 & E2 & T2 & Hok2 & Pos2 & Le2 & L2 & (S2 & M2 & D2));
      [lia | rewrite L1; lia |].
    rewrite D1 in E2, T2.
    exists w2. cbn [register_all]. unfold bind at 1. rewrite E1.
    unfold bind at 1. rewrite E2. unfold ret.
    cbn [map filter fst snd].
    split; [reflexivity|].
    split.
    { rewrite T2, T1, <- app_assoc. f_equal.
      now destruct (loads (disk w) filename). }
    split; [assumption|]. split; [assumption|].
    split; [cbn [length]; lia|].
    split; [congruence|].
    unfold same_rest. repeat split; congruence.
Qed.

Lemma LoadSceneTextures_as_register_all (w : World) :
  LoadSceneTextures w
  = bind (register_all scene_textures) (fun _ => BindGLTextures) w.
Proof.
  unfold LoadSceneTextures, scene_textures. cbn [register_all].
  unfold bind, ret.
  repeat (destruct (CreateGLTexture _ _ _) as [[? ?]|]; [|reflexivity]).
  reflexivity.
Qed.

Local Opaque GL_TEXTURE0.

Lemma LoadSceneTextures_bound (w : World) :
  0 <= m_loadedTextures w ->
  m_loadedTextures w + 7 <= Z.of_nat (length (m_textureIDs w)) ->
  exists w',
    LoadSceneTextures w = Done (tt, w') /\
    registered_tags w' = (registered_tags w ++ loadable_tags (disk w))%list /\
    table_ok w' /\ same_rest w w' /\
    forall (k : nat) (e : TEXTURE_INFO.t),
      Z.of_nat k < m_loadedTextures w' ->
      nth_error (m_textureIDs w') k = Some e ->
      texture_on_unit (GL_TEXTURE0 + Z.of_nat k) (trace w')
      = Some (TEXTURE_INFO.ID e).
Proof.
  intros Pos Room.
  destruct (register_all_run scene_textures w Pos)
    as (w1 & E1 & T1 & Hok1 & _ & _ & _ & (S1 & M1 & D1));
    [simpl; lia|].
  destruct (BindGLTextures_run w1 Hok1)
    as (w2 & E2 & [N2 A2] & (S2 & M2 & D2) & _ & _ & Units).
  exists w2. rewrite LoadSceneTextures_as_register_all.
  unfold bind. rewrite E1, E2.
  split; [reflexivity|].
  split.
  { unfold registered_tags, loaded in *. rewrite N2, A2. exact T1. }
  split; [unfold table_ok in *; rewrite N2, A2; exact Hok1|].
  split; [unfold same_rest; repeat split; congruence|].
  intros k e Hk E. rewrite N2 in Hk. rewrite A2 in E. now apply Units.
Qed.

(** X13.  With seven free slots, [LoadSceneTextures] completes whatever
    the files are: the tags registered are those of the files that decode
    with 3 or 4 channels, in the order of the calls, so that a file that
    does not load moves every later texture one slot down; and each
    registered slot is then bound to the texture unit of its index. *)
Theorem LoadSceneTextures_registers_loadable (w : World) :
  0 <= m_loadedTextures w ->
  m_loadedTextures w + 7 <= Z.of_nat (length (m_textureIDs w)) ->
  exists w',
    LoadSceneTextures w = Done (tt, w') /\
    registered_tags w' = (registered_tags w ++ loadable_tags (disk w))%list /\
    table_ok w' /\ same_rest w w' /\
    forall (k : nat) (e : TEXTURE_INFO.t),
      Z.of_nat k < m_loadedTextures w' ->
      nth_error (m_textureIDs w') k = Some e ->
      texture_on_unit (GL_TEXTURE0 + Z.of_nat k) (trace w')
      = Some (TEXTURE_INFO.ID e).
Proof. exact (LoadSceneTextures_bound w). Qed.

Local Transparent GL_TEXTURE0.

Lemma LoadSceneTextures_registers_loadable_witness :
  (0 <= m_loadedTextures (new_SceneManager (Some []) incomplete_dir) /\
   m_loadedTextures (new_SceneManager (Some []) incomplete_dir) + 7
   <= Z.of_nat (length (m_textureIDs
                          (new_SceneManager (Some []) incomplete_dir)))) /\
  exists w',
    LoadSceneTextures (new_SceneManager (Some []) incomplete_dir)
    = Done (tt, w') /\
    registered_tags w'
    = (registered_tags (new_SceneManager (Some []) incomplete_dir)
       ++ loadable_tags (disk (new_SceneManager (Some []) incomplete_dir)))
      %list /\
    table_ok w' /\
    same_rest (new_SceneManager (Some []) incomplete_dir) w' /\
    forall (k : nat) (e : TEXTURE_INFO.t),
      Z.of_nat k < m_loadedTextures w' ->
      nth_error (m_textureIDs w') k = Some e ->
      texture_on_unit (GL_TEXTURE0 + Z.of_nat k) (trace w')
      = Some (TEXTURE_INFO.ID e).
Proof.
  assert (P : 0 <= m_loadedTextures
                     (new_SceneManager (Some []) incomplete_dir))
    by (simpl; lia).
  assert (R : m_loadedTextures (new_SceneManager (Some []) incomplete_dir) + 7
              <= Z.of_nat (length (m_textureIDs
                              (new_SceneManager (Some []) incomplete_dir))))
    by (simpl; lia).
  exact (conj (conj P R)
              (LoadSceneTextures_registers_loadable
                 (new_SceneManager (Some []) incomplete_dir) P R)).
Defined.

(** With the third file missing, "stainedglass" is found in slot 2 and
    "sand" in slot 5. *)
Example LoadSceneTextures_missing_file :
  let w := after LoadSceneTextures
                 (new_SceneManager (Some []) incomplete_dir) in
  registered_tags w
  = ["drywall"; "backdrop"; "stainedglass"; "pyramid"; "pyramid2"; "sand"] /\
  FindTextureSlot "stainedglass" w = Done (2, w) /\
  FindTextureSlot "sand" w = Done (5, w) /\
  FindTextureSlot "abstract" w = Done (-1, w).
Proof. vm_compute. repeat split; reflexivity. Qed.

(** ** Sending a material *)

Lemma with_shader_same (w : World) (sh : ShaderManager) :
  m_pShaderManager w = Some sh -> with_shader (Some sh) w = w.
Proof. destruct w. simpl. intros ->. reflexivity. Qed.

Lemma SetTextureUVScale_run (w : World) (sh : ShaderManager) (u v : R) :
  m_pShaderManager w = Some sh ->
  SetTextureUVScale u v w
  = Done (tt, with_shader
                (Some (("UVscale", Vec2Value (vec2.mk u v)) :: sh)) w).
Proof.
  intro H. unfold SetTextureUVScale. run. repeat (rewrite H; run).
  reflexivity.
Qed.

Lemma SetShaderMaterial_run (w : World) (sh : ShaderManager) (tag : string)
  (u : OBJECT_MATERIAL.t) :
  m_pShaderManager w = Some sh ->
  SetShaderMaterial tag u w
  = Done (tt,
          with_shader
            (Some (match m_objectMaterials w with
                   | [] => sh
                   | _ :: _ => material_uniforms (material_of tag u w) ++ sh
                   end)%list) w).
Proof.
  intro H. unfold SetShaderMaterial.
  unfold bind at 1. unfold gets at 1. cbv beta iota.
  destruct (m_objectMaterials w) as [|m l] eqn:E.
  - simpl. unfold ret. now rewrite with_shader_same.
  - replace (0 <? Z.of_nat (length (m :: l))) with true
      by (symmetry; apply Z.ltb_lt; simpl; lia).
    unfold bind at 1. rewrite FindMaterial_run, E.
    replace (Z.of_nat (length (m :: l)) =? 0) with false
      by (symmetry; apply Z.eqb_neq; simpl; lia).
    cbn [negb Bool.eqb]. cbv iota beta.
    generalize (material_of tag u w). intro found.
    run. repeat (rewrite H; run). reflexivity.
Qed.

(** X14.  With the shader manager set, [SetShaderMaterial(tag)] sends the
    five properties of the first material tagged [tag]: afterwards each of
    the five [material.*] uniforms holds the corresponding field of that
    material. *)
Theorem SetShaderMaterial_sends_first_match (w : World) (sh : ShaderManager)
  (tag : string) (u e : OBJECT_MATERIAL.t)
  (before rest : list OBJECT_MATERIAL.t) :
  m_pShaderManager w = Some sh ->
  m_objectMaterials w = (before ++ e :: rest)%list ->
  ~ In tag (map OBJECT_MATERIAL.tag before) ->
  OBJECT_MATERIAL.tag e = tag ->
  exists w',
    SetShaderMaterial tag u w = Done (tt, w') /\
    uniform_of w' "material.ambientColor"
    = Some (Vec3Value (OBJECT_MATERIAL.ambientColor e)) /\
    uniform_of w' "material.ambientStrength"
    = Some (FloatValue (OBJECT_MATERIAL.ambientStrength e)) /\
    uniform_of w' "material.diffuseColor"
    = Some (Vec3Value (OBJECT_MATERIAL.diffuseColor e)) /\
    uniform_of w' "material.specularColor"
    = Some (Vec3Value (OBJECT_MATERIAL.specularColor e)) /\
    uniform_of w' "material.shininess"
    = Some (FloatValue (OBJECT_MATERIAL.shininess e)).
Proof.
  intros H L Miss T. eexists. split.
  - apply (SetShaderMaterial_run w sh tag u H).
  - unfold material_of. rewrite L, first_hit_app by assumption.
    destruct before; unfold uniform_of; simpl; repeat split.
Qed.

Lemma SetShaderMaterial_sends_first_match_witness :
  (m_pShaderManager two_materials = Some [] /\
   m_objectMaterials two_materials
   = ([OBJECT_MATERIAL.mk (vec3.mk 1 1 1) 1 (vec3.mk 0 0 1) (vec3.mk 0 1 0) 8
                          "glass"] ++ steel zero_material :: [])%list /\
   ~ In "steel"
        (map OBJECT_MATERIAL.tag
             [OBJECT_MATERIAL.mk (vec3.mk 1 1 1) 1 (vec3.mk 0 0 1)
                                 (vec3.mk 0 1 0) 8 "glass"]) /\
   OBJECT_MATERIAL.tag (steel zero_material) = "steel") /\
  exists w',
    SetShaderMaterial "steel" zero_material two_materials = Done (tt, w') /\
    uniform_of w' "material.ambientColor"
    = Some (Vec3Value (OBJECT_MATERIAL.ambientColor (steel zero_material))) /\
    uniform_of w' "material.ambientStrength"
    = Some (FloatValue
              (OBJECT_MATERIAL.ambientStrength (steel zero_material))) /\
    uniform_of w' "material.diffuseColor"
    = Some (Vec3Value (OBJECT_MATERIAL.diffuseColor (steel zero_material))) /\
    uniform_of w' "material.specularColor"
    = Some (Vec3Value (OBJECT_MATERIAL.specularColor (steel zero_material))) /\
    uniform_of w' "material.shininess"
    = Some (FloatValue (OBJECT_MATERIAL.shininess (steel zero_material))).
Proof.
  assert (P : m_pShaderManager two_materials = Some []) by reflexivity.
  assert (L : m_objectMaterials two_materials
              = ([OBJECT_MATERIAL.mk (vec3.mk 1 1 1) 1 (vec3.mk 0 0 1)
                                     (vec3.mk 0 1 0) 8 "glass"]
                 ++ steel zero_material :: [])%list) by reflexivity.
  assert (N : ~ In "steel"
                (map OBJECT_MATERIAL.tag
                   [OBJECT_MATERIAL.mk (vec3.mk 1 1 1) 1 (vec3.mk 0 0 1)
                                       (vec3.mk 0 1 0) 8 "glass"]))
    by (simpl; intuition discriminate).
  assert (T : OBJECT_MATERIAL.tag (steel zero_material) = "steel")
    by reflexivity.
  exact (conj (conj P (conj L (conj N T)))
              (SetShaderMaterial_sends_first_match two_materials [] "steel"
                 zero_material _ _ [] P L N T)).
Defined.

(** X15.  With the shader manager set and at least one material defined,
    [SetShaderMaterial(tag)] for a tag that no material carries still
    sends five updates: each [material.*] uniform is overwritten with the
    corresponding field of the local [material], which the source never
    initialises. *)
Theorem SetShaderMaterial_unknown_tag (w : World) (sh : ShaderManager)
  (tag : string) (u : OBJECT_MATERIAL.t) :
  m_pShaderManager w = Some sh ->
  m_objectMaterials w <> [] ->
  ~ In tag (map OBJECT_MATERIAL.tag (m_objectMaterials w)) ->
  SetShaderMaterial tag u w
  = Done (tt, with_shader (Some (material_uniforms u ++ sh)%list) w).
Proof.
  intros H NE Miss. rewrite (SetShaderMaterial_run w sh tag u H).
  unfold material_of. rewrite first_hit_none by assumption.
  destruct (m_objectMaterials w); [congruence | reflexivity].
Qed.

Lemma SetShaderMaterial_unknown_tag_witness :
  (m_pShaderManager two_materials = Some [] /\
   m_objectMaterials two_materials <> [] /\
   ~ In "gold" (map OBJECT_MATERIAL.tag (m_objectMaterials two_materials))) /\
  SetShaderMaterial "gold" zero_material two_materials
  = Done (tt, with_shader (Some (material_uniforms zero_material ++ [])%list)
                          two_materials).
Proof.
  assert (P : m_pShaderManager two_materials = Some []) by reflexivity.
  assert (NE : m_objectMaterials two_materials <> [])
    by (simpl; discriminate).
  assert (N : ~ In "gold"
                (map OBJECT_MATERIAL.tag (m_objectMaterials two_materials)))
    by (simpl; intuition discriminate).
  exact (conj (conj P (conj NE N))
              (SetShaderMaterial_unknown_tag two_materials [] "gold"
                 zero_material P NE N)).
Defined.

(** With no material defined, [SetShaderMaterial] returns at once. *)
Lemma SetShaderMaterial_no_material (w : World) (tag : string)
  (u : OBJECT_MATERIAL.t) :
  m_objectMaterials w = [] -> SetShaderMaterial tag u w = Done (tt, w).
Proof.
  intro E. unfold SetShaderMaterial.
  unfold bind at 1. unfold gets at 1. cbv beta iota. now rewrite E.
Qed.

(** ** The scene script with a shader manager *)

Lemma shading_bind {A B} (d1 d2 : list MeshCall)
  (Q1 Q2 : ShaderManager -> Prop) (m : MR A) (k : A -> MR B) :
  shading d1 Q1 m -> (forall a, shading d2 Q2 (k a)) ->
  shading (d2 ++ d1) Q2 (bindR m k).
Proof.
  intros Hm Hk w sh log Hok P.
  destruct (Hm w sh log Hok P) as (a & sh1 & E1 & _).
  destruct (Hk a (with_shader (Some sh1) w) sh1 (d1 ++ log)%list Hok eq_refl)
    as (b & sh2 & E2 & Q).
  exists b, sh2. unfold bindR. rewrite E1, E2, <- app_assoc.
  split; [reflexivity | exact Q].
Qed.

Lemma shading_lift {A} (Q : ShaderManager -> Prop) (m : M A) :
  (forall w sh, table_ok w -> m_pShaderManager w = Some sh ->
     exists a sh', m w = Done (a, with_shader (Some sh') w) /\ Q sh') ->
  shading [] Q (lift m).
Proof.
  intros Hm w sh log Hok P.
  destruct (Hm w sh Hok P) as (a & sh' & E & Q').
  exists a, sh'. unfold lift. simpl. rewrite E. auto.
Qed.

Lemma shading_mesh (c : MeshCall) (Q : ShaderManager -> Prop) {A}
  (d : list MeshCall) (m : MR A) :
  shading d Q m -> shading (c :: d) Q (bindR m (fun _ => mesh c)).
Proof.
  intros Hm w sh log Hok P.
  destruct (Hm w sh log Hok P) as (a & sh' & E & Q').
  exists tt, sh'. unfold bindR. rewrite E. auto.
Qed.

Lemma shading_mesh_only (c : MeshCall) : shading [c] any_shader (mesh c).
Proof.
  intros w sh log Hok P. exists tt, sh. unfold mesh. simpl.
  rewrite with_shader_same by assumption. split; [reflexivity | exact I].
Qed.

Lemma shading_ret : shading [] any_shader (retR tt).
Proof.
  intros w sh log Hok P. exists tt, sh. unfold retR. simpl.
  rewrite with_shader_same by assumption. split; [reflexivity | exact I].
Qed.

Lemma shading_weaken {A} (d : list MeshCall) (Q : ShaderManager -> Prop)
  (m : MR A) :
  shading d Q m -> shading d any_shader m.
Proof.
  intros Hm w sh log Hok P. destruct (Hm w sh log Hok P) as (a & sh' & E & _).
  exists a, sh'. split; [assumption | exact I].
Qed.

Lemma shading_for_loop (d : list MeshCall) (body : Z -> MR unit) :
  forall (count : nat) (from : Z),
    (forall i, from <= i < from + Z.of_nat count ->
               shading d any_shader (body i)) ->
    shading (concat (repeat d count)) any_shader (for_loopR count from body).
Proof.
  induction count as [|count IH]; intros from Hb; cbn [for_loopR repeat concat].
  - apply shading_ret.
  - replace (d ++ concat (repeat d count))%list
      with (concat (repeat d count) ++ d)%list.
    + apply (shading_bind d _ any_shader any_shader).
      * apply Hb. lia.
      * intros _. apply IH. intros i Hi. apply Hb. lia.
    + clear. induction count as [|count IH]; simpl.
      * now rewrite app_nil_r.
      * now rewrite <- app_assoc, IH.
Qed.

Lemma shading_SetTransformations (s p : vec3.t) (x y z : R) :
  shading [] any_shader (lift (SetTransformations s x y z p)).
Proof.
  apply shading_lift. intros w sh _ P. eexists. eexists.
  split; [exact (SetTransformations_run w sh s p x y z P) | exact I].
Qed.

Lemma shading_SetShaderColor (r g b a : R) :
  shading [] (fun sh => uniform g_UseTextureName sh = Some (IntValue 0))
          (lift (SetShaderColor r g b a)).
Proof.
  apply shading_lift. intros w sh _ P. eexists. eexists.
  split; [exact (SetShaderColor_run w sh r g b a P) | reflexivity].
Qed.

Lemma shading_SetShaderTexture (t : string) :
  shading [] any_shader (lift (SetShaderTexture t)).
Proof.
  apply shading_lift. intros w sh Hok P. eexists. eexists.
  split; [exact (SetShaderTexture_run w sh t P Hok) | exact I].
Qed.

Lemma shading_SetTextureUVScale (u v : R) :
  shading [] any_shader (lift (SetTextureUVScale u v)).
Proof.
  apply shading_lift. intros w sh _ P. eexists. eexists.
  split; [exact (SetTextureUVScale_run w sh u v P) | exact I].
Qed.

Lemma shading_SetShaderMaterial (t : string) (u : OBJECT_MATERIAL.t) :
  shading [] any_shader (lift (SetShaderMaterial t u)).
Proof.
  apply shading_lift. intros w sh _ P. eexists. eexists.
  split; [exact (SetShaderMaterial_run w sh t u P) | exact I].
Qed.

Create HintDb stage.
#[export] Hint Resolve shading_SetTransformations shading_SetShaderTexture
  shading_SetTextureUVScale shading_SetShaderMaterial shading_mesh_only
  shading_ret : stage.

Lemma shading_SetShaderColor_any (r g b a : R) :
  shading [] any_shader (lift (SetShaderColor r g b a)).
Proof. exact (shading_weaken _ _ _ (shading_SetShaderColor r g b a)). Qed.

#[export] Hint Resolve shading_SetShaderColor_any : stage.

Lemma shading_calls_eq {A} (d d' : list MeshCall)
  (Q : ShaderManager -> Prop) (m : MR A) :
  shading d Q m -> d = d' -> shading d' Q m.
Proof. intros Hm <-. exact Hm. Qed.

(** Going through a sequence of calls, each of which is known. *)
Ltac shading_steps :=
  repeat first
    [ solve [auto with stage]
    | eapply shading_mesh; apply shading_SetShaderColor
    | eapply shading_bind; [solve [auto with stage] | intros _ ] ].

(** With a shader manager and a count inside the array, [RenderScene]
    completes, changes only the shader manager, issues the draw calls
    [scene_draws] and leaves [bUseTexture] at 0. *)
Lemma RenderScene_shading (u : OBJECT_MATERIAL.t) :
  shading (rev scene_draws)
          (fun sh => uniform g_UseTextureName sh = Some (IntValue 0))
          (RenderScene u).
Proof.
  eapply shading_calls_eq.
  - unfold RenderScene. cbv beta zeta.
    do 4 (eapply shading_bind; [solve [auto with stage] | intros _ ]).
    eapply shading_bind; [ | intros _ ].
    { unfold for_rangeR. apply (shading_for_loop [DrawBoxMesh]).
      intros i Hi. eapply shading_calls_eq; [shading_steps | reflexivity]. }
    eapply shading_bind; [ | intros _ ].
    { unfold for_rangeR. apply (shading_for_loop [DrawBoxMesh]).
      intros i Hi. change (Z.of_nat (Z.to_nat (5 - 0))) with 5%Z in Hi.
      destruct (Z.eqb_spec i (9 - 1)); [lia|].
      destruct (Z.eqb_spec i (9 - 2)); [lia|].
      eapply shading_calls_eq; [shading_steps | reflexivity]. }
    shading_steps.
  - reflexivity.
Qed.

(** ** The scene script without a shader manager *)

Lemma passes_bind (P : World -> Prop) (d1 d2 : list MeshCall)
  (m k : MR unit) :
  passes P d1 m -> passes P d2 k ->
  passes P (d2 ++ d1) (bindR m (fun _ => k)).
Proof.
  intros Hm Hk w log Pw. unfold bindR.
  rewrite (Hm w log Pw), (Hk w _ Pw), <- app_assoc. reflexivity.
Qed.

Lemma passes_ret (P : World -> Prop) : passes P [] (retR tt).
Proof. intros w log _. reflexivity. Qed.

Lemma passes_mesh (P : World -> Prop) (c : MeshCall) : passes P [c] (mesh c).
Proof. intros w log _. reflexivity. Qed.

Lemma passes_lift (P : World -> Prop) (m : M unit) :
  (forall w, P w -> m w = Done (tt, w)) -> passes P [] (lift m).
Proof. intros Hm w log Pw. unfold lift. simpl. now rewrite Hm. Qed.

Lemma passes_calls_eq (P : World -> Prop) (d d' : list MeshCall)
  (m : MR unit) :
  passes P d m -> d = d' -> passes P d' m.
Proof. intros Hm <-. exact Hm. Qed.

Lemma passes_for_loop (P : World -> Prop) (d : list MeshCall)
  (body : Z -> MR unit) :
  forall (count : nat) (from : Z),
    (forall i, from <= i < from + Z.of_nat count -> passes P d (body i)) ->
    passes P (concat (repeat d count)) (for_loopR count from body).
Proof.
  induction count as [|count IH]; intros from Hb; cbn [for_loopR repeat concat].
  - apply passes_ret.
  - replace (d ++ concat (repeat d count))%list
      with (concat (repeat d count) ++ d)%list.
    + apply passes_bind.
      * apply Hb. lia.
      * apply IH. intros i Hi. apply Hb. lia.
    + clear. induction count as [|count IH]; simpl.
      * now rewrite app_nil_r.
      * now rewrite <- app_assoc, IH.
Qed.

Lemma faults_after (P : World -> Prop) (d : list MeshCall) (m k : MR unit) :
  passes P d m -> faults P k -> faults P (bindR m (fun _ => k)).
Proof.
  intros Hm Hk w log Pw. unfold bindR. now rewrite (Hm w log Pw), Hk.
Qed.

Lemma faults_first (P : World -> Prop) (m k : MR unit) :
  faults P m -> faults P (bindR m (fun _ => k)).
Proof. intros Hm w log Pw. unfold bindR. now rewrite Hm. Qed.

Section NullShader.
Variable P : World -> Prop.
Hypothesis P_null : forall w, P w -> m_pShaderManager w = None.

Lemma passes_SetTransformations (s p : vec3.t) (x y z : R) :
  passes P [] (lift (SetTransformations s x y z p)).
Proof.
  apply passes_lift. intros w Pw. apply SetTransformations_null. auto.
Qed.

Lemma passes_SetShaderColor (r g b a : R) :
  passes P [] (lift (SetShaderColor r g b a)).
Proof. apply passes_lift. intros w Pw. apply SetShaderColor_null. auto. Qed.

Lemma passes_SetShaderTexture (t : string) :
  passes P [] (lift (SetShaderTexture t)).
Proof. apply passes_lift. intros w Pw. apply SetShaderTexture_null. auto. Qed.

Lemma passes_SetTextureUVScale (u v : R) :
  passes P [] (lift (SetTextureUVScale u v)).
Proof.
  apply passes_lift. intros w Pw. apply SetTextureUVScale_null. auto.
Qed.

End NullShader.

Ltac passes_steps HP :=
  repeat first
    [ apply (passes_SetTransformations _ HP)
    | apply (passes_SetShaderColor _ HP)
    | apply (passes_SetShaderTexture _ HP)
    | apply (passes_SetTextureUVScale _ HP)
    | apply passes_mesh
    | apply passes_ret
    | match goal with
      | |- passes _ _ (bindR (for_rangeR _ _ _) _) => fail 1
      | |- passes _ _ (bindR (lift (SetShaderMaterial _ _)) _) => fail 1
      | |- passes _ _ (bindR _ _) => eapply passes_bind
      end ].

Ltac passes_loop HP :=
  unfold for_rangeR; apply (passes_for_loop _ [DrawBoxMesh]);
  let i := fresh "i" in
  let Hi := fresh "Hi" in
  intros i Hi; cbv beta zeta;
  try (change (Z.of_nat (Z.to_nat (5 - 0))) with 5%Z in Hi;
       destruct (Z.eqb_spec i (9 - 1)); [lia|];
       destruct (Z.eqb_spec i (9 - 2)); [lia|]);
  eapply passes_calls_eq; [passes_steps HP | reflexivity].

Lemma null_of_no_material (w : World) :
  null_shader_no_material w -> m_pShaderManager w = None.
Proof. now intros [H _]. Qed.

Lemma null_of_with_material (w : World) :
  null_shader_with_material w -> m_pShaderManager w = None.
Proof. now intros [H _]. Qed.

(** Without a shader manager and without a material, [RenderScene] issues
    its draw calls and changes nothing. *)
Lemma RenderScene_passes (u : OBJECT_MATERIAL.t) :
  passes null_shader_no_material (rev scene_draws) (RenderScene u).
Proof.
  eapply passes_calls_eq.
  - unfold RenderScene. cbv beta zeta.
    passes_steps null_of_no_material.
    eapply passes_bind; [passes_loop null_of_no_material|].
    eapply passes_bind; [passes_loop null_of_no_material|].
    passes_steps null_of_no_material.
    eapply passes_bind.
    { apply passes_lift. intros w [_ M].
      now apply SetShaderMaterial_no_material. }
    passes_steps null_of_no_material.
  - reflexivity.
Qed.

(** Without a shader manager but with a material, [RenderScene] reaches
    [SetShaderMaterial] and calls through the null pointer there. *)
Lemma RenderScene_faults (u : OBJECT_MATERIAL.t) :
  faults null_shader_with_material (RenderScene u).
Proof.
  unfold RenderScene. cbv beta zeta.
  do 4 (eapply faults_after; [passes_steps null_of_with_material|]).
  eapply faults_after; [passes_loop null_of_with_material|].
  eapply faults_after; [passes_loop null_of_with_material|].
  do 16 (eapply faults_after; [passes_steps null_of_with_material|]).
  apply faults_first. intros w log [N M]. unfold lift. simpl.
  rewrite SetShaderMaterial_null by assumption.
  destruct (m_objectMaterials w); [contradiction | reflexivity].
Qed.

(** ** The scene script, end to end *)

(** X16.  With a shader manager and the count inside the array,
    [RenderScene] completes whatever textures and materials are
    registered.  It changes nothing but the shader manager; it issues the
    draw calls [scene_draws] in that order, the second loop drawing a box
    at each of its five iterations (its indices stay below 5, so neither
    the test against [numCubes - 1] nor the one against [numCubes - 2]
    ever holds); and it leaves [bUseTexture] at 0. *)
Theorem RenderScene_draws (u : OBJECT_MATERIAL.t) (w : World)
  (sh : ShaderManager) (log : list MeshCall) :
  table_ok w -> m_pShaderManager w = Some sh ->
  exists sh',
    RenderScene u (w, log)
    = Done (tt, (with_shader (Some sh') w, rev scene_draws ++ log)%list) /\
    uniform g_UseTextureName sh' = Some (IntValue 0).
Proof.
  intros Hok P.
  destruct (RenderScene_shading u w sh log Hok P) as ([] & sh' & E & Q).
  exists sh'. auto.
Qed.

Lemma RenderScene_draws_witness :
  (table_ok loaded_scene /\ m_pShaderManager loaded_scene = Some []) /\
  exists sh',
    RenderScene zero_material (loaded_scene, [])
    = Done (tt, (with_shader (Some sh') loaded_scene,
                 rev scene_draws ++ [])%list) /\
    uniform g_UseTextureName sh' = Some (IntValue 0).
Proof.
  assert (T : table_ok loaded_scene) by (vm_compute; intro H; discriminate H).
  assert (P : m_pShaderManager loaded_scene = Some []) by reflexivity.
  exact (conj (conj T P)
              (RenderScene_draws zero_material loaded_scene [] [] T P)).
Defined.

(** X17.  Without a shader manager, [RenderScene] completes exactly when
    no material is defined, issuing the same draw calls and changing
    nothing; with a material defined it calls through the null pointer, in
    [SetShaderMaterial]. *)
Theorem RenderScene_null_shader (u : OBJECT_MATERIAL.t) (w : World)
  (log : list MeshCall) :
  m_pShaderManager w = None ->
  RenderScene u (w, log)
  = match m_objectMaterials w with
    | [] => Done (tt, (w, rev scene_draws ++ log)%list)
    | _ :: _ => Fault NullPointer
    end.
Proof.
  intro N. destruct (m_objectMaterials w) as [|m l] eqn:M.
  - apply RenderScene_passes. split; assumption.
  - apply RenderScene_faults. split; [assumption | congruence].
Qed.

Lemma RenderScene_null_shader_witness :
  m_pShaderManager unset_shader_scene = None /\
  RenderScene zero_material (unset_shader_scene, [])
  = match m_objectMaterials unset_shader_scene with
    | [] => Done (tt, (unset_shader_scene, rev scene_draws ++ [])%list)
    | _ :: _ => Fault NullPointer
    end.
Proof.
  assert (N : m_pShaderManager unset_shader_scene = None) by reflexivity.
  exact (conj N (RenderScene_null_shader zero_material unset_shader_scene
                   [] N)).
Defined.

Lemma SetupSceneLights_run (w : World) (sh : ShaderManager) :
  m_pShaderManager w = Some sh ->
  SetupSceneLights w
  = Done (tt, with_shader (Some (light_uniforms ++ sh)%list) w).
Proof.
  intro H. unfold SetupSceneLights. run. repeat (rewrite H; run).
  reflexivity.
Qed.

Lemma SetupSceneLights_null (w : World) :
  m_pShaderManager w = None -> SetupSceneLights w = Fault NullPointer.
Proof. intro H. unfold SetupSceneLights. run. now rewrite H. Qed.

#[export] Instance same_shader_frame : Frame same_shader.
Proof.
  split; [reflexivity|]. unfold same_shader. intros; congruence.
Qed.

Lemma same_shader_LoadSceneTextures : keeps same_shader LoadSceneTextures.
Proof.
  unfold LoadSceneTextures, CreateGLTexture, BindGLTextures.
  unfold_primitives. keeps_steps ltac:(idtac; intro; reflexivity).
Qed.

Lemma LoadSceneTextures_run (w : World) :
  0 <= m_loadedTextures w ->
  m_loadedTextures w + 7 <= Z.of_nat (length (m_textureIDs w)) ->
  exists w',
    LoadSceneTextures w = Done (tt, w') /\
    registered_tags w' = (registered_tags w ++ loadable_tags (disk w))%list /\
    table_ok w' /\ same_rest w w'.
Proof.
  intros Pos Room.
  destruct (LoadSceneTextures_bound w Pos Room)
    as (w' & E & T & Hok & SR & _).
  eauto.
Qed.

(** X18.  With a shader manager and seven free slots, [PrepareScene]
    completes whatever the files are: the loadable textures are
    registered, one material tagged "steel" is appended (its ambient
    fields are whatever the unassigned local held), the lighting uniforms
    are sent, and the five meshes are loaded. *)
Theorem PrepareScene_completes (u : OBJECT_MATERIAL.t) (w : World)
  (sh : ShaderManager) (log : list MeshCall) :
  m_pShaderManager w = Some sh ->
  0 <= m_loadedTextures w ->
  m_loadedTextures w + 7 <= Z.of_nat (length (m_textureIDs w)) ->
  exists w',
    PrepareScene u (w, log) = Done (tt, (w', scene_meshes ++ log)%list) /\
    table_ok w' /\
    registered_tags w' = (registered_tags w ++ loadable_tags (disk w))%list /\
    m_objectMaterials w' = (m_objectMaterials w ++ [steel u])%list /\
    m_pShaderManager w' = Some (light_uniforms ++ sh)%list /\
    uniform_of w' g_UseLightingName = Some (BoolValue true).
Proof.
  intros P Pos Room.
  destruct (LoadSceneTextures_run w Pos Room)
    as (w1 & E1 & T1 & Hok1 & (S1 & M1 & D1)).
  rewrite P in S1.
  eexists. split.
  - unfold PrepareScene, bindR, lift, mesh. simpl. rewrite E1. simpl.
    unfold DefineObjectMaterials, modify. simpl.
    rewrite (SetupSceneLights_run _ sh) by exact S1. simpl. reflexivity.
  - unfold uniform_of, table_ok, registered_tags, loaded. simpl.
    rewrite M1. repeat split; assumption.
Qed.

Lemma PrepareScene_completes_witness :
  (m_pShaderManager (new_SceneManager (Some []) incomplete_dir) = Some [] /\
   0 <= m_loadedTextures (new_SceneManager (Some []) incomplete_dir) /\
   m_loadedTextures (new_SceneManager (Some []) incomplete_dir) + 7
   <= Z.of_nat (length (m_textureIDs
                          (new_SceneManager (Some []) incomplete_dir)))) /\
  exists w',
    PrepareScene zero_material (new_SceneManager (Some []) incomplete_dir, [])
    = Done (tt, (w', scene_meshes ++ [])%list) /\
    table_ok w' /\
    registered_tags w'
    = (registered_tags (new_SceneManager (Some []) incomplete_dir)
       ++ loadable_tags (disk (new_SceneManager (Some []) incomplete_dir)))
      %list /\
    m_objectMaterials w'
    = (m_objectMaterials (new_SceneManager (Some []) incomplete_dir)
       ++ [steel zero_material])%list /\
    m_pShaderManager w' = Some (light_uniforms ++ [])%list /\
    uniform_of w' g_UseLightingName = Some (BoolValue true).
Proof.
  assert (P : m_pShaderManager (new_SceneManager (Some []) incomplete_dir)
              = Some []) by reflexivity.
  assert (Z0 : 0 <= m_loadedTextures
                      (new_SceneManager (Some []) incomplete_dir))
    by (simpl; lia).
  assert (R : m_loadedTextures (new_SceneManager (Some []) incomplete_dir) + 7
              <= Z.of_nat (length (m_textureIDs
                              (new_SceneManager (Some []) incomplete_dir))))
    by (simpl; lia).
  exact (conj (conj P (conj Z0 R))
              (PrepareScene_completes zero_material _ [] [] P Z0 R)).
Defined.

(** X19.  On a scene manager constructed with a null shader manager,
    [PrepareScene] never completes: [SetupSceneLights] has no test of the
    pointer and calls through it (when the textures fit in the array, that
    is the fault met). *)
Theorem PrepareScene_null_shader_faults (u : OBJECT_MATERIAL.t) (w : World)
  (log : list MeshCall) :
  m_pShaderManager w = None ->
  exists f,
    PrepareScene u (w, log) = Fault f /\
    (0 <= m_loadedTextures w ->
     m_loadedTextures w + 7 <= Z.of_nat (length (m_textureIDs w)) ->
     f = NullPointer).
Proof.
  intro N. unfold PrepareScene, bindR, lift. simpl.
  destruct (LoadSceneTextures w) as [[[] w1]|f] eqn:E1.
  - pose proof (same_shader_LoadSceneTextures w tt w1 E1) as S1.
    unfold same_shader in S1. rewrite N in S1.
    exists NullPointer. simpl.
    unfold DefineObjectMaterials, modify. simpl.
    rewrite SetupSceneLights_null by exact S1. auto.
  - exists f. split; [reflexivity|]. intros Pos Room.
    destruct (LoadSceneTextures_run w Pos Room) as (w1 & E & _).
    congruence.
Qed.

Lemma PrepareScene_null_shader_faults_witness :
  m_pShaderManager (new_SceneManager None textures_dir) = None /\
  exists f,
    PrepareScene zero_material (new_SceneManager None textures_dir, [])
    = Fault f /\
    (0 <= m_loadedTextures (new_SceneManager None textures_dir) ->
     m_loadedTextures (new_SceneManager None textures_dir) + 7
     <= Z.of_nat (length (m_textureIDs (new_SceneManager None textures_dir))) ->
     f = NullPointer).
Proof.
  assert (N : m_pShaderManager (new_SceneManager None textures_dir) = None)
    by reflexivity.
  exact (conj N (PrepareScene_null_shader_faults zero_material _ [] N)).
Defined.

Lemma others_kept_incl (names names' : list string) (w w' : World) :
  incl names names' -> others_kept names w w' -> others_kept names' w w'.
Proof. intros I K name Hn. apply K. intro Hin. apply Hn, I, Hin. Qed.

Lemma others_kept_render_call (c : uniform_call) :
  incl (uniforms_written c) render_uniforms ->
  keeps (others_kept render_uniforms) (run_uniform_call c).
Proof.
  intro I. apply (keeps_weaken (others_kept (uniforms_written c))).
  - intros w w'. now apply others_kept_incl.
  - apply others_kept_uniform_call.
Qed.

Ltac incl_names :=
  let a := fresh "a" in
  let H := fresh "H" in
  intros a H; simpl in H; simpl; intuition.

Lemma others_kept_render_SetTransformations s x y z p :
  keeps (others_kept render_uniforms) (SetTransformations s x y z p).
Proof.
  apply (others_kept_render_call (CallSetTransformations s x y z p)).
  incl_names.
Qed.

Lemma others_kept_render_SetShaderColor r g b a :
  keeps (others_kept render_uniforms) (SetShaderColor r g b a).
Proof.
  apply (others_kept_render_call (CallSetShaderColor r g b a)). incl_names.
Qed.

Lemma others_kept_render_SetShaderTexture t :
  keeps (others_kept render_uniforms) (SetShaderTexture t).
Proof.
  apply (others_kept_render_call (CallSetShaderTexture t)). incl_names.
Qed.

Lemma others_kept_render_SetTextureUVScale u v :
  keeps (others_kept render_uniforms) (SetTextureUVScale u v).
Proof.
  apply (others_kept_render_call (CallSetTextureUVScale u v)). incl_names.
Qed.

Lemma others_kept_render_SetShaderMaterial t u :
  keeps (others_kept render_uniforms) (SetShaderMaterial t u).
Proof.
  apply (others_kept_render_call (CallSetShaderMaterial t u)). incl_names.
Qed.

#[export] Hint Resolve others_kept_render_SetTransformations
  others_kept_render_SetShaderColor others_kept_render_SetShaderTexture
  others_kept_render_SetTextureUVScale others_kept_render_SetShaderMaterial
  : keeps.

Lemma RenderScene_others_kept (u : OBJECT_MATERIAL.t) :
  keepsR (others_kept render_uniforms) (RenderScene u).
Proof. unfold RenderScene, for_rangeR. keepsR_steps. Qed.

(** X20.  [RenderScene], when it completes, has written no uniform other
    than [model], [bUseTexture], [objectColor], [objectTexture], [UVscale]
    and the five [material.*] ones: every other uniform, the lighting ones
    of [SetupSceneLights] among them, holds what it held before. *)
Theorem RenderScene_keeps_other_uniforms (u : OBJECT_MATERIAL.t)
  (s s' : Stage) (name : string) :
  RenderScene u s = Done (tt, s') ->
  ~ In name render_uniforms ->
  uniform_of (fst s') name = uniform_of (fst s) name.
Proof.
  intros E Hn. exact (RenderScene_others_kept u s tt s' E name Hn).
Qed.

Lemma RenderScene_keeps_other_uniforms_witness :
  (RenderScene zero_material loaded_stage
   = Done (tt, stage_after (RenderScene zero_material) loaded_stage) /\
   ~ In g_UseLightingName render_uniforms) /\
  uniform_of (fst (stage_after (RenderScene zero_material) loaded_stage))
             g_UseLightingName
  = uniform_of (fst loaded_stage) g_UseLightingName.
Proof.
  assert (E : RenderScene zero_material loaded_stage
              = Done (tt, stage_after (RenderScene zero_material)
                                      loaded_stage)).
  { unfold stage_after.
    destruct (RenderScene_shading zero_material loaded_scene [] []) as
      ([] & sh' & E & _);
      [vm_compute; intro H; discriminate H | reflexivity |].
    unfold loaded_stage. rewrite E. reflexivity. }
  assert (N : ~ In g_UseLightingName render_uniforms)
    by (simpl; intuition discriminate).
  exact (conj (conj E N)
              (RenderScene_keeps_other_uniforms zero_material _ _
                 g_UseLightingName E N)).
Defined.

(** X21.  [PrepareScene] followed by [RenderScene], on a scene manager
    with a shader manager and seven free slots: the two complete whatever
    the files are (a texture that does not load stops nothing), with the
    five mesh loads followed by the draw calls [scene_draws]; at the end
    [bUseTexture] is 0 and [bUseLighting] is still true. *)
Theorem scene_prepared_and_rendered (u u' : OBJECT_MATERIAL.t) (w : World)
  (sh : ShaderManager) (log : list MeshCall) :
  m_pShaderManager w = Some sh ->
  0 <= m_loadedTextures w ->
  m_loadedTextures w + 7 <= Z.of_nat (length (m_textureIDs w)) ->
  exists w',
    bindR (PrepareScene u) (fun _ => RenderScene u') (w, log)
    = Done (tt, (w', rev scene_draws ++ scene_meshes ++ log)%list) /\
    table_ok w' /\
    registered_tags w' = (registered_tags w ++ loadable_tags (disk w))%list /\
    uniform_of w' g_UseTextureName = Some (IntValue 0) /\
    uniform_of w' g_UseLightingName = Some (BoolValue true).
Proof.
  intros P Pos Room.
  destruct (LoadSceneTextures_run w Pos Room)
    as (w1 & E1 & T1 & Hok1 & (S1 & M1 & D1)).
  rewrite P in S1.
  assert (EP : exists w2,
             PrepareScene u (w, log)
             = Done (tt, (w2, scene_meshes ++ log)%list) /\
             table_ok w2 /\ registered_tags w2 = registered_tags w1 /\
             m_pShaderManager w2 = Some (light_uniforms ++ sh)%list).
  { eexists. split.
    - unfold PrepareScene, bindR, lift, mesh. simpl. rewrite E1. simpl.
      unfold DefineObjectMaterials, modify. simpl.
      rewrite (SetupSceneLights_run _ sh) by exact S1. simpl. reflexivity.
    - unfold table_ok, registered_tags, loaded. simpl. auto. }
  destruct EP as (w2 & E2 & Hok2 & T2 & S2).
  destruct (RenderScene_shading u' w2 _ (scene_meshes ++ log)%list Hok2 S2)
    as ([] & sh' & E3 & Q).
  assert (L : uniform_of (with_shader (Some sh') w2) g_UseLightingName
              = uniform_of w2 g_UseLightingName).
  { apply (RenderScene_others_kept u' _ tt _ E3).
    simpl. intuition discriminate. }
  eexists. split.
  - unfold bindR at 1. rewrite E2. exact E3.
  - split; [exact Hok2|].
    split; [unfold registered_tags, loaded in *; simpl; congruence|].
    split; [exact Q|].
    rewrite L. unfold uniform_of. rewrite S2. reflexivity.
Qed.

Lemma scene_prepared_and_rendered_witness :
  (m_pShaderManager (new_SceneManager (Some []) incomplete_dir) = Some [] /\
   0 <= m_loadedTextures (new_SceneManager (Some []) incomplete_dir) /\
   m_loadedTextures (new_SceneManager (Some []) incomplete_dir) + 7
   <= Z.of_nat (length (m_textureIDs
                          (new_SceneManager (Some []) incomplete_dir)))) /\
  exists w',
    bindR (PrepareScene zero_material) (fun _ => RenderScene zero_material)
          (new_SceneManager (Some []) incomplete_dir, [])
    = Done (tt, (w', rev scene_draws ++ scene_meshes ++ [])%list) /\
    table_ok w' /\
    registered_tags w'
    = (registered_tags (new_SceneManager (Some []) incomplete_dir)
       ++ loadable_tags (disk (new_SceneManager (Some []) incomplete_dir)))
      %list /\
    uniform_of w' g_UseTextureName = Some (IntValue 0) /\
    uniform_of w' g_UseLightingName = Some (BoolValue true).
Proof.
  assert (P : m_pShaderManager (new_SceneManager (Some []) incomplete_dir)
              = Some []) by reflexivity.
  assert (Z0 : 0 <= m_loadedTextures
                      (new_SceneManager (Some []) incomplete_dir))
    by (simpl; lia).
  assert (R : m_loadedTextures (new_SceneManager (Some []) incomplete_dir) + 7
              <= Z.of_nat (length (m_textureIDs
                              (new_SceneManager (Some []) incomplete_dir))))
    by (simpl; lia).
  exact (conj (conj P (conj Z0 R))
              (scene_prepared_and_rendered zero_material zero_material _ []
                 [] P Z0 R)).
Defined.
